(** * Volunteer Connect: ranking, filtering, favourites and profile saving

    A shallow embedding of the recommendation pipeline of the Volunteer
    Connect web client (the single-file [App] with [simpleRecommendations],
    [getAIRecommendations], [recommendOpportunities], [OpportunitiesPage] and
    [ProfilePage]; the [Opportunities] page with [normalizeFavoriteId],
    [handleToggleFavorite] and [filteredOpportunities]; the [Profile] page
    with [handleSubmit]), followed by the properties of the specification.

    JavaScript values are modelled as follows.  Strings are [string];
    numbers that matter here (ids, ranks, scores, array positions, time
    values) are integers and live in [Z]; arrays are lists; objects with a
    fixed shape are records; [undefined] is [None].  The library functions
    whose tables cannot be written down here (Unicode case mapping and white
    space, [Number] on strings, [JSON.parse], [Date]) are the methods of the
    class [JsRuntime]: every theorem holds for every runtime. *)

From Stdlib Require Import List String Ascii ZArith Lia Bool Permutation Sorted.
From Stdlib Require Import DecimalString.
Import ListNotations.
Local Open Scope string_scope.
Local Open Scope Z_scope.

(** ** JSON values, as [JSON.parse] and [response.json()] produce them *)

#[local] Unset Elimination Schemes.
Inductive json : Type :=
| JNull
| JBool (b : bool)
| JNum (n : Z)
| JStr (s : string)
| JArr (items : list json)
| JObj (fields : list (string * json)).
#[local] Set Elimination Schemes.

(** ** The runtime *)

Class JsRuntime : Type := {
  (** [String.prototype.toLowerCase] *)
  toLowerCase : string -> string;
  (** [String.prototype.trim] *)
  trim : string -> string;
  (** [Number(s)] on a string; [None] is [NaN] *)
  Number_string : string -> option Z;
  (** [JSON.parse(s)]; [None] when it throws a [SyntaxError] *)
  JSON_parse : string -> option json;
  (** [new Date(s).getTime()]; [None] is the invalid date *)
  Date_getTime : string -> option Z;
  (** the time value after [setHours(0, 0, 0, 0)]: local midnight of the day *)
  setHours0 : Z -> Z;
  toLowerCase_empty : toLowerCase "" = "";
  trim_empty : trim "" = "";
  (** the empty text is not JSON *)
  JSON_parse_empty : JSON_parse "" = None;
}.

(** ** Completions: a value or a thrown exception *)

Inductive Completion (A : Type) : Type :=
| Normal (a : A)
| Throw.
Arguments Normal {A} a.
Arguments Throw {A}.

Definition cbind {A B : Type} (c : Completion A) (k : A -> Completion B) : Completion B :=
  match c with
  | Normal a => k a
  | Throw => Throw
  end.

Notation "'let!' x ':=' c 'in' k" := (cbind c (fun x => k))
  (at level 10, x name, c at level 100, k at level 200).

(** ** Strings *)

(** [s.includes(sub)] *)
Fixpoint includes (s sub : string) : bool :=
  if String.prefix sub s then true
  else match s with
       | EmptyString => false
       | String _ s' => includes s' sub
       end.

(** [s.indexOf(sub)], counting from position [i] *)
Fixpoint String_indexOf_from (s sub : string) (i : Z) : Z :=
  if String.prefix sub s then i
  else match s with
       | EmptyString => -1
       | String _ s' => String_indexOf_from s' sub (i + 1)
       end.

Definition String_indexOf (s sub : string) : Z := String_indexOf_from s sub 0.

(** [s.split(',')] for a one-character separator *)
Fixpoint split (sep : ascii) (s : string) : list string :=
  match s with
  | EmptyString => [EmptyString]
  | String c s' =>
      if Ascii.eqb c sep then EmptyString :: split sep s'
      else match split sep s' with
           | [] => [String c EmptyString]
           | w :: ws => String c w :: ws
           end
  end.

(** [l.join(sep)] on strings *)
Fixpoint join (sep : string) (l : list string) : string :=
  match l with
  | [] => ""
  | [x] => x
  | x :: l' => x ++ sep ++ join sep l'
  end.

(** [String(k)] for an array position [k >= 0]: its decimal digits *)
Definition Number_toString (k : Z) : string :=
  NilZero.string_of_uint (N.to_uint (Z.to_N k)).

(** [filter(Boolean)] on strings keeps the non-empty ones *)
Definition nonEmpty (s : string) : bool := negb (s =? "")%string.

(** ** Arrays *)

(** [Array.prototype.sort(cmp)]: the sort is stable, an element [x] comes
    before [y] when [cmp x y <= 0] and [x] was first. *)
Fixpoint insertBy {A : Type} (cmp : A -> A -> Z) (x : A) (l : list A) : list A :=
  match l with
  | [] => [x]
  | y :: l' => if cmp x y <=? 0 then x :: l else y :: insertBy cmp x l'
  end.

Definition sort {A : Type} (cmp : A -> A -> Z) (l : list A) : list A :=
  fold_right (insertBy cmp) [] l.

(** [l.map((x, index) => f x index)] *)
Fixpoint mapi_from {A B : Type} (f : A -> Z -> B) (i : Z) (l : list A) : list B :=
  match l with
  | [] => []
  | x :: l' => f x i :: mapi_from f (i + 1) l'
  end.

Definition mapi {A B : Type} (f : A -> Z -> B) (l : list A) : list B := mapi_from f 0 l.

(** [Array.from(new Set(l))]: every value is added to the set unless it is
    already there; the array lists the set in insertion order. *)
Fixpoint Set_add_all {A : Type} (eqb : A -> A -> bool) (seen l : list A) : list A :=
  match l with
  | [] => []
  | x :: l' =>
      if existsb (eqb x) seen then Set_add_all eqb seen l'
      else x :: Set_add_all eqb (x :: seen) l'
  end.

Definition dedup {A : Type} (eqb : A -> A -> bool) (l : list A) : list A :=
  Set_add_all eqb [] l.

(** [items.indexOf(k)] for a number [k]: strict equality finds only numbers *)
Definition strictEqualsNumber (v : json) (k : Z) : bool :=
  match v with
  | JNum n => n =? k
  | _ => false
  end.

Fixpoint Array_indexOf_from (items : list json) (k : Z) (i : Z) : Z :=
  match items with
  | [] => -1
  | v :: items' =>
      if strictEqualsNumber v k then i else Array_indexOf_from items' k (i + 1)
  end.

Definition Array_indexOf (items : list json) (k : Z) : Z := Array_indexOf_from items k 0.

(** ** Reading a parsed response

    A JavaScript value here is a JSON value or [undefined] ([None]). *)

Definition truthy (v : option json) : bool :=
  match v with
  | None => false
  | Some JNull => false
  | Some (JBool b) => b
  | Some (JNum n) => negb (n =? 0)
  | Some (JStr s) => nonEmpty s
  | Some (JArr _) => true
  | Some (JObj _) => true
  end.

Fixpoint lookup (name : string) (fields : list (string * json)) : option json :=
  match fields with
  | [] => None
  | (k, v) :: fields' => if (k =? name)%string then Some v else lookup name fields'
  end.

(** [v.name] for the data properties the program reads ([choices],
    [message], [content], [length]): a [TypeError] on [null] and
    [undefined], the own property of an object, the length of an array or a
    string, [undefined] otherwise. *)
Definition getProp (v : option json) (name : string) : Completion (option json) :=
  match v with
  | None => Throw
  | Some JNull => Throw
  | Some (JObj fields) => Normal (lookup name fields)
  | Some (JArr items) =>
      if (name =? "length")%string then Normal (Some (JNum (Z.of_nat (List.length items))))
      else Normal None
  | Some (JStr s) =>
      if (name =? "length")%string then Normal (Some (JNum (Z.of_nat (String.length s))))
      else Normal None
  | Some (JBool _) => Normal None
  | Some (JNum _) => Normal None
  end.

(** [v[0]] *)
Definition getFirst (v : option json) : Completion (option json) :=
  match v with
  | None => Throw
  | Some JNull => Throw
  | Some (JObj fields) => Normal (lookup "0" fields)
  | Some (JArr items) => Normal (hd_error items)
  | Some (JStr s) =>
      match s with
      | EmptyString => Normal None
      | String c _ => Normal (Some (JStr (String c EmptyString)))
      end
  | Some (JBool _) => Normal None
  | Some (JNum _) => Normal None
  end.

(** [content?.trim()]: [undefined] on a nullish content, the trimmed string
    on a string, a [TypeError] on any other value (it has no callable
    [trim]). *)
Definition optionalTrim {RT : JsRuntime} (content : option json) : Completion (option string) :=
  match content with
  | None => Normal None
  | Some JNull => Normal None
  | Some (JStr s) => Normal (Some (trim s))
  | Some _ => Throw
  end.

(** [ranking.indexOf(k)]: [Array.prototype.indexOf] on an array,
    [String.prototype.indexOf] (which searches for the digits of [k]) on a
    string, a [TypeError] on every other parsed value. *)
Definition indexOf (ranking : json) (k : Z) : Completion Z :=
  match ranking with
  | JArr items => Normal (Array_indexOf items k)
  | JStr s => Normal (String_indexOf s (Number_toString k))
  | _ => Throw
  end.

(** ** The catalog *)

(** An opportunity record of [data/opportunities]; every record carries
    its [skills] and [interests] arrays, the dates are optional.  [rank] is
    absent on the catalog's records; the copies [{...opportunity, rank}]
    made by [getAIRecommendations] carry it. *)
Record Opportunity : Type := {
  id : Z;
  title : string;
  description : string;
  location : string;
  skills : list string;
  interests : list string;
  date : option string;
  startDate : option string;
  rank : option Z;
}.

(** [{...opportunity, rank: r}] *)
Definition withRank (o : Opportunity) (r : Z) : Opportunity :=
  {| id := id o; title := title o; description := description o;
     location := location o; skills := skills o; interests := interests o;
     date := date o; startDate := startDate o; rank := Some r |}.

(** [a - b] on possibly absent numbers: [NaN] when one is [undefined], which
    a comparator's caller reads as [0]. *)
Definition comparatorDifference (a b : option Z) : Z :=
  match a, b with
  | Some x, Some y => x - y
  | _, _ => 0
  end.

(** [x >= 0] on a possibly absent number *)
Definition isNonNegative (x : option Z) : bool :=
  match x with
  | Some r => 0 <=? r
  | None => false
  end.

(** ** The network

    A computation that may call [fetch]: it reads the answers of the remote
    service and records the requests it sent. *)

Record Request : Type := {
  url : string;
  systemContent : string;
  userContent : string;
  max_tokens : Z;
}.

Inductive FetchOutcome : Type :=
| FetchRejected
    (* [fetch] rejects: network error *)
| FetchResponse (status : Z) (body : option json).
    (* a response with its status; [body] is what [response.json()] resolves
       to, [None] when it rejects because the body is not JSON *)

Definition Net (A : Type) : Type := (Request -> FetchOutcome) -> A * list Request.

Definition ret {A : Type} (a : A) : Net A := fun _ => (a, []).

Definition bind {A B : Type} (m : Net A) (k : A -> Net B) : Net B :=
  fun remote =>
    let (a, sent) := m remote in
    let (b, sent') := k a remote in
    (b, sent ++ sent')%list.

Definition fetch (request : Request) : Net FetchOutcome :=
  fun remote => (remote request, [request]).

Notation "'await' x '<-' m ';' k" := (bind m (fun x => k))
  (at level 10, x name, m at level 100, k at level 200).

(** * The application module: ranking, the opportunities page, the profile form *)

Module App.

Definition newline : string := String (ascii_of_nat 10) EmptyString.

Definition API_URL : string := "https://volunteery.cryck.workers.dev/".

Record Profile : Type := {
  profile_name : string;
  profile_interests : list string;
}.

Definition DEFAULT_PROFILE : Profile :=
  {| profile_name := "Guest User"; profile_interests := ["environment"] |}.

Section Ranking.

Context {RT : JsRuntime}.
(** the imports of [./data/opportunities] *)
Variable allOpportunities : list Opportunity.
Variable opportunitiesList : string.

(** the [reduce] of [simpleRecommendations]: one more for every interest of
    the opportunity whose lower-case form is among [normalized] *)
Definition score (normalized : list string) (opportunity : Opportunity) : Z :=
  fold_left
    (fun acc interest =>
       if existsb (String.eqb (toLowerCase interest)) normalized then acc + 1 else acc)
    (interests opportunity) 0.

Definition simpleRecommendations (interests : list string) : list Opportunity :=
  match interests with
  | [] => allOpportunities
  | _ :: _ =>
      let normalized := map toLowerCase interests in
      map snd
        (sort (fun a b => fst b - fst a)
           (map (fun opportunity => (score normalized opportunity, opportunity))
              allOpportunities))
  end.

Definition systemPrompt : string :=
  "You are an AI assistant that ranks volunteer opportunities." ++ newline ++
  "Given the user interests and a list of opportunities, return ONLY the JSON array"
  ++ newline ++
  "of indices (starting at 1) in order of relevance." ++ newline ++
  "Example: [1,3,2,4]".

Definition userPrompt (interests : list string) : string :=
  "Interests: " ++ join ", " interests ++ newline ++ newline ++
  "Opportunities: " ++ opportunitiesList ++ newline ++
  "Rank them from most to least relevant and reply with the JSON array only.".

Definition rankingRequest (interests : list string) : Request :=
  {| url := API_URL; systemContent := systemPrompt;
     userContent := userPrompt interests; max_tokens := 1200 |}.

(** [allOpportunities.map((opportunity, index) => ({...opportunity,
    rank: ranking.indexOf(index + 1)}))]: the callback may throw *)
Fixpoint rankAll_from (ranking : json) (index : Z) (l : list Opportunity)
  : Completion (list Opportunity) :=
  match l with
  | [] => Normal []
  | opportunity :: l' =>
      let! r := indexOf ranking (index + 1) in
      let! items := rankAll_from ranking (index + 1) l' in
      Normal (withRank opportunity r :: items)
  end.

Definition rankAll (ranking : json) : Completion (list Opportunity) :=
  rankAll_from ranking 0 allOpportunities.

(** the rest of the chain: [.filter(item => item.rank >= 0)
    .sort((a, b) => a.rank - b.rank).slice(0, 3)] *)
Definition topRanked (items : list Opportunity) : list Opportunity :=
  firstn 3
    (sort (fun a b => comparatorDifference (rank a) (rank b))
       (filter (fun item => isNonNegative (rank item)) items)).

(** The [try] block of [getAIRecommendations] after [fetch]: [Normal (Some
    l)] when it returns [l], [Normal None] when it falls through (no
    choices), [Throw] when anything in it throws.  The status of the
    response is not read. *)
Definition tryRanking (outcome : FetchOutcome) : Completion (option (list Opportunity)) :=
  match outcome with
  | FetchRejected => Throw
  | FetchResponse _ None => Throw
  | FetchResponse _ (Some data) =>
      let! choices := getProp (Some data) "choices" in
      let! hasChoices :=
        (if truthy choices
         then let! len := getProp choices "length" in Normal (truthy len)
         else Normal false) in
      if hasChoices : bool then
        let! first := getFirst choices in
        let! message := getProp first "message" in
        let! content := getProp message "content" in
        let! raw := optionalTrim content in
        match raw with
        | None => Throw
        | Some raw =>
            if nonEmpty raw then
              match JSON_parse raw with
              | None => Throw
              | Some ranking =>
                  let! items := rankAll ranking in
                  Normal (Some (topRanked items))
              end
            else Throw
        end
      else Normal None
  end.

Definition getAIRecommendations (interests : list string) : Net (list Opportunity) :=
  await outcome <- fetch (rankingRequest interests);
  match tryRanking outcome with
  | Normal (Some ranked) => ret ranked
  | Normal None => ret (simpleRecommendations interests)
  | Throw => ret (simpleRecommendations interests)
  end.

Definition recommendOpportunities (interests : list string) : Net (list Opportunity) :=
  match interests with
  | [] => ret allOpportunities
  | _ :: _ =>
      await recommended <- getAIRecommendations interests;
      ret (match recommended with
           | [] => allOpportunities
           | _ :: _ => recommended
           end)
  end.

(** ** [OpportunitiesPage]: the effect that loads the recommendations

    Every run of the effect owns a cell [ignore], set by its cleanup.  React
    runs the cleanup of the previous run before it runs the effect again for
    a changed [profile].  A run is pending until its ranking call settles. *)

Record EffectRun : Type := {
  ignore : bool;
  requested : list string;   (* the interests the run asked a ranking for *)
}.

Record PageState : Type := {
  recommended : list Opportunity;
  loading : bool;
  error : string;
  runs : list EffectRun;     (* in the order the effect ran *)
}.

Definition initialPage : PageState :=
  {| recommended := []; loading := true; error := ""; runs := [] |}.

Inductive Settlement : Type :=
| Resolved (remote : Request -> FetchOutcome)
    (* the ranking call of the run completes against these answers *)
| Rejected.
    (* [recommendOpportunities] rejects *)

Inductive PageEvent : Type :=
| ProfileChanged (profile : Profile)
    (* mount, or a new [profile]: cleanup of the last run, then the effect *)
| Settled (run : nat) (how : Settlement).
    (* the [await] of run number [run] continues *)

(** the cleanup [() => { ignore = true; }] of the run before *)
Fixpoint cleanupLast (l : list EffectRun) : list EffectRun :=
  match l with
  | [] => []
  | [r] => [{| ignore := true; requested := requested r |}]
  | r :: l' => r :: cleanupLast l'
  end.

Definition step (st : PageState) (e : PageEvent) : PageState :=
  match e with
  | ProfileChanged profile =>
      let interests := filter nonEmpty (profile_interests profile) in
      {| recommended := recommended st;
         loading := true;
         error := "";
         runs := cleanupLast (runs st)
                   ++ [{| ignore := false; requested := interests |}] |}
  | Settled k how =>
      match nth_error (runs st) k with
      | None => st
      | Some r =>
          if ignore r then st
          else
            match how with
            | Resolved remote =>
                {| recommended := fst (recommendOpportunities (requested r) remote);
                   loading := false;
                   error := error st;
                   runs := runs st |}
            | Rejected =>
                {| recommended := allOpportunities;
                   loading := false;
                   error := "We had trouble loading AI recommendations, so we are showing everything instead.";
                   runs := runs st |}
            end
      end
  end.

Definition run (st : PageState) (events : list PageEvent) : PageState :=
  fold_left step events st.

End Ranking.

(** ** [ProfilePage]: the comma-separated interests field *)

Section ProfileForm.

Context {RT : JsRuntime}.

Definition interestList (interests : string) : list string :=
  filter nonEmpty (map trim (split "," interests)).

(** [name.trim() || DEFAULT_PROFILE.name] *)
Definition sanitizedName (name : string) : string :=
  if nonEmpty (trim name) then trim name else profile_name DEFAULT_PROFILE.

(** [handleSubmit]: the profile handed to [onSave], which stores it *)
Definition handleSubmit (name interests : string) : Profile :=
  {| profile_name := sanitizedName name;
     profile_interests := interestList interests |}.

End ProfileForm.

End App.

(** * The opportunities page: favourites and the filter *)

(** The profile the newer pages receive; an absent property is [None]. *)
Record UserProfile : Type := {
  user_name : option string;
  user_email : option string;
  user_password : option string;
  user_story : option string;
  user_interests : option (list string);
  user_skills : option (list string);
}.

(** [a || []] *)
Definition orEmpty {A : Type} (a : option (list A)) : list A :=
  match a with
  | Some l => l
  | None => []
  end.

Module Opportunities.

(** A favourite as stored and as passed to the toggle: an opportunity id, a
    number or a string.  The numbers are the integers, as the ids of the
    catalog are: a fraction, [NaN] and the infinite numbers (which
    [JSON.stringify] writes as [null]) have no counterpart here, nor has a
    string that [Number] reads as one of them. *)
Inductive FavoriteId : Type :=
| IdNumber (n : Z)
| IdString (s : string).

(** [===] and the same-value-zero comparison of [includes] and [Set]; they
    agree on these values *)
Definition sameValue (a b : FavoriteId) : bool :=
  match a, b with
  | IdNumber n, IdNumber m => n =? m
  | IdString s, IdString t => (s =? t)%string
  | _, _ => false
  end.

(** what [localStorage.getItem('favorites')] and [JSON.parse] give *)
Inductive StoredFavorites : Type :=
| StoredUnreadable
    (* reading or parsing throws *)
| StoredNotArray
    (* nothing stored, or a parsed value that is not an array *)
| StoredArray (values : list FavoriteId).

Record Criteria : Type := {
  searchTerm : string;
  locationFilter : string;
  skillFilter : string;
  interestFilter : string;
  dateRange_start : string;
  dateRange_end : string;
}.

Record Scored : Type := {
  opportunity : Opportunity;
  index : Z;
  interestOverlap : Z;
  skillOverlap : Z;
}.

Record Snackbar : Type := {
  snackbarMessage : string;
  snackbarVisible : bool;
}.

Section Page.

Context {RT : JsRuntime}.
Variable allOpportunities : list Opportunity.

Definition normalizeFavoriteId (value : FavoriteId) : FavoriteId :=
  match value with
  | IdNumber n => IdNumber n
  | IdString s =>
      match Number_string s with
      | Some asNumber => IdNumber asNumber
      | None => IdString s
      end
  end.

(** the initial value of the [favorites] state *)
Definition initialFavorites (stored : StoredFavorites) : list FavoriteId :=
  match stored with
  | StoredUnreadable => []
  | StoredNotArray => dedup sameValue (map normalizeFavoriteId [])
  | StoredArray parsed => dedup sameValue (map normalizeFavoriteId parsed)
  end.

(** the updater that [handleToggleFavorite] passes to [setFavorites] *)
Definition toggleFavorites (id : FavoriteId) (current : list FavoriteId) : list FavoriteId :=
  let idValue := normalizeFavoriteId id in
  let normalizedCurrent := map normalizeFavoriteId current in
  let isFavorited := existsb (sameValue idValue) normalizedCurrent in
  let next :=
    if isFavorited
    then filter (fun fav => negb (sameValue fav idValue)) normalizedCurrent
    else (normalizedCurrent ++ [idValue])%list in
  dedup sameValue next.

(** [handleToggleFavorite]: the next favourites and the notification shown
    (its 2.5 s timer is not modelled) *)
Definition handleToggleFavorite (id : FavoriteId) (current : list FavoriteId)
  : list FavoriteId * Snackbar :=
  let isFavorited :=
    existsb (sameValue (normalizeFavoriteId id)) (map normalizeFavoriteId current) in
  (toggleFavorites id current,
   {| snackbarMessage :=
        if isFavorited then "Removed from favourites" else "Added to favourites";
      snackbarVisible := true |}).

(** [isFavorite={favorites.includes(opportunity.id)}] *)
Definition isFavorite (favorites : list FavoriteId) (id : FavoriteId) : bool :=
  existsb (sameValue id) favorites.

(** [a || b] on possibly absent strings *)
Definition orElse (a b : option string) : option string :=
  match a with
  | Some s => if nonEmpty s then a else b
  | None => b
  end.

(** [new Date(s)] followed by [setHours(0, 0, 0, 0)]; [None] is the invalid
    date *)
Definition dayOf (s : string) : option Z :=
  option_map setHours0 (Date_getTime s).

(** [oppDate < bound]: false when the bound is the invalid date *)
Definition before (oppDate : Z) (bound : option Z) : bool :=
  match bound with
  | Some b => oppDate <? b
  | None => false
  end.

Definition after (oppDate : Z) (bound : option Z) : bool :=
  match bound with
  | Some b => b <? oppDate
  | None => false
  end.

Definition matchesDate (c : Criteria) (o : Opportunity) : bool :=
  match orElse (date o) (startDate o) with
  | None => true
  | Some oppDateString =>
      if nonEmpty oppDateString then
        match dayOf oppDateString with
        | None => true
        | Some oppDate =>
            let afterStart :=
              if nonEmpty (dateRange_start c)
              then negb (before oppDate (dayOf (dateRange_start c)))
              else true in
            if afterStart && nonEmpty (dateRange_end c)
            then negb (after oppDate (dayOf (dateRange_end c)))
            else afterStart
        end
      else true
  end.

(** the callback of [.filter] in [filteredOpportunities] *)
Definition keeps (c : Criteria) (o : Opportunity) : bool :=
  let normalizedSearch := toLowerCase (trim (searchTerm c)) in
  let matchesSearch :=
    negb (nonEmpty normalizedSearch)
    || includes (toLowerCase (title o)) normalizedSearch
    || includes (toLowerCase (description o)) normalizedSearch
    || existsb (fun skill => includes (toLowerCase skill) normalizedSearch) (skills o) in
  if negb matchesSearch then false
  else
    let matchesLocation :=
      (locationFilter c =? "all")%string || (location o =? locationFilter c)%string in
    let matchesSkill :=
      (skillFilter c =? "all")%string
      || existsb (fun skill => (toLowerCase skill =? skillFilter c)%string) (skills o) in
    let matchesInterestFilter :=
      (interestFilter c =? "all")%string
      || existsb (fun i => (toLowerCase i =? toLowerCase (interestFilter c))%string)
           (interests o) in
    matchesLocation && matchesSkill && matchesInterestFilter && matchesDate c o.

(** [list.filter(x => set.has(x)).length] after lower-casing *)
Definition overlap (labels userSet : list string) : Z :=
  Z.of_nat
    (List.length
       (filter (fun label => existsb (String.eqb label) userSet)
          (map toLowerCase labels))).

(** the comparator of [scored.sort] *)
Definition compareScored (a b : Scored) : Z :=
  if negb (interestOverlap b =? interestOverlap a)
  then interestOverlap b - interestOverlap a
  else if negb (skillOverlap b =? skillOverlap a)
  then skillOverlap b - skillOverlap a
  else index a - index b.

(** [scored] after [scored.sort] *)
Definition scoredOpportunities (c : Criteria) (profile : UserProfile) : list Scored :=
  let userInterestSet := map toLowerCase (orEmpty (user_interests profile)) in
  let userSkillSet := map toLowerCase (orEmpty (user_skills profile)) in
  sort compareScored
    (map (fun '(o, i) =>
            {| opportunity := o;
               index := i;
               interestOverlap := overlap (interests o) userInterestSet;
               skillOverlap := overlap (skills o) userSkillSet |})
       (filter (fun '(o, _) => keeps c o)
          (mapi (fun o i => (o, i)) allOpportunities))).

Definition filteredOpportunities (c : Criteria) (profile : UserProfile) : list Opportunity :=
  map opportunity (scoredOpportunities c profile).

End Page.

End Opportunities.

(** * The profile page with interest and skill tags *)

Module Profile.

(** the state of the form *)
Record Form : Type := {
  name : string;
  email : string;
  password : string;
  story : string;
  interests : list string;
  skills : list string;
}.

Definition fallbackProfile_name : string := "Guest User".
Definition fallbackProfile_email : string := "volunteer@example.com".

(** the form as [useState] and the effect on [profile] fill it *)
Definition formOf (profile : UserProfile) : Form :=
  {| name := match user_name profile with Some s => s | None => "" end;
     email := match user_email profile with Some s => s | None => "" end;
     password := match user_password profile with Some s => s | None => "" end;
     story := match user_story profile with Some s => s | None => "" end;
     interests := orEmpty (user_interests profile);
     skills := orEmpty (user_skills profile) |}.

Definition handleRemoveInterest (interestToRemove : string) (f : Form) : Form :=
  {| name := name f; email := email f; password := password f; story := story f;
     interests := filter (fun interest => negb (interest =? interestToRemove)%string)
                    (interests f);
     skills := skills f |}.

Definition handleRemoveSkill (skillToRemove : string) (f : Form) : Form :=
  {| name := name f; email := email f; password := password f; story := story f;
     interests := interests f;
     skills := filter (fun skill => negb (skill =? skillToRemove)%string) (skills f) |}.

Section Submit.

Context {RT : JsRuntime}.

(** [handleSubmit]: the profile handed to [onSave], which stores it *)
Definition handleSubmit (f : Form) : UserProfile :=
  {| user_name :=
       Some (if nonEmpty (trim (name f)) then trim (name f) else fallbackProfile_name);
     user_email :=
       Some (if nonEmpty (trim (email f)) then trim (email f) else fallbackProfile_email);
     user_password := Some (password f);
     user_story := Some (trim (story f));
     user_interests := Some (interests f);
     user_skills := Some (skills f) |}.

End Submit.

End Profile.

(** * The application shell: routes and the stored profile *)

Module AppShell.

Record NavItem : Type := {
  route : string;
  label : string;
}.

Definition NAV_ITEMS : list NavItem :=
  [ {| route := "home"; label := "Home" |};
    {| route := "opportunities"; label := "Opportunities" |};
    {| route := "profile"; label := "Profile" |} ].

(** [s.replace(/^c/, '')]: one leading [c] is removed *)
Definition dropLeading (c : ascii) (s : string) : string :=
  match s with
  | EmptyString => EmptyString
  | String c' s' => if Ascii.eqb c' c then s' else s
  end.

Definition hashForRoute (route : string) : string :=
  if (route =? "home")%string then "#/" else "#/" ++ route.

(** what [localStorage.getItem('userProfile')] gives *)
Inductive StoredItem : Type :=
| NoWindow
    (* [typeof window === 'undefined'] *)
| StorageThrows
    (* reading the storage throws *)
| Item (stored : option string).
    (* the stored text, [None] when there is none *)

(** A profile object: its own properties, the latest definition of a key
    first, read with [lookup]. *)
Definition DEFAULT_PROFILE : list (string * json) :=
  [("name", JStr "Guest User"); ("interests", JArr [JStr "environment"])].

Fixpoint indexedItems (items : list json) (i : Z) : list (string * json) :=
  match items with
  | [] => []
  | v :: items' => (Number_toString i, v) :: indexedItems items' (i + 1)
  end.

Fixpoint indexedChars (s : string) (i : Z) : list (string * json) :=
  match s with
  | EmptyString => []
  | String c s' =>
      (Number_toString i, JStr (String c EmptyString)) :: indexedChars s' (i + 1)
  end.

(** the own enumerable properties that [...v] copies *)
Definition spread (v : json) : list (string * json) :=
  match v with
  | JObj fields => fields
  | JArr items => indexedItems items 0
  | JStr s => indexedChars s 0
  | _ => []
  end.

(** [parsed?.interests] *)
Definition interestsOf (parsed : json) : option json :=
  match parsed with
  | JObj fields => lookup "interests" fields
  | _ => None
  end.

(** [Array.isArray(v) ? v : fallback] *)
Definition arrayOr (v : option json) (fallback : json) : json :=
  match v with
  | Some (JArr items) => JArr items
  | _ => fallback
  end.

Section Shell.

Context {RT : JsRuntime}.

(** [hash] is [window.location.hash], [None] when there is no window *)
Definition parseHashRoute (hash : option string) : string :=
  match hash with
  | None => "home"
  | Some h =>
      let raw := dropLeading "#" h in
      let normalized := toLowerCase (dropLeading "/" raw) in
      if negb (nonEmpty normalized) || (normalized =? "home")%string then "home"
      else if (normalized =? "opportunities")%string then "opportunities"
      else if (normalized =? "profile")%string then "profile"
      else "home"
  end.

Definition readProfileFromStorage (item : StoredItem) : list (string * json) :=
  match item with
  | NoWindow => DEFAULT_PROFILE
  | StorageThrows => DEFAULT_PROFILE
  | Item None => DEFAULT_PROFILE
  | Item (Some stored) =>
      if nonEmpty stored then
        match JSON_parse stored with
        | None => DEFAULT_PROFILE
        | Some parsed =>
            ("interests",
             arrayOr (interestsOf parsed) (JArr [JStr "environment"]))
            :: (spread parsed ++ DEFAULT_PROFILE)%list
        end
      else DEFAULT_PROFILE
  end.

End Shell.

End AppShell.

(** * The quiz modal *)

Module QuizModal.

Record QuizState : Type := {
  isLoading : bool;
  apiResponse : option json;
  apiError : option string;
}.

Section Modal.

(** the messages of the errors that the engine raises *)
Variable networkErrorMessage : string.
Variable jsonErrorMessage : string.
Variable typeErrorMessage : string.

(** [response.ok] *)
Definition ok (status : Z) : bool := (200 <=? status) && (status <=? 299).

(** the [try] block of [handleSubmit]: the value handed to
    [setApiResponse], or the message of the error thrown *)
Definition requestTags (outcome : FetchOutcome) : option json + string :=
  match outcome with
  | FetchRejected => inr networkErrorMessage
  | FetchResponse status body =>
      if ok status then
        match body with
        | None => inr jsonErrorMessage
        | Some data =>
            match getProp (Some data) "tags" with
            | Normal tags => inl tags
            | Throw => inr typeErrorMessage
            end
        end
      else inr "Failed to get a response."
  end.

(** the state once [handleSubmit] has settled *)
Definition handleSubmit (outcome : FetchOutcome) : QuizState :=
  match requestTags outcome with
  | inl tags => {| isLoading := false; apiResponse := tags; apiError := None |}
  | inr message => {| isLoading := false; apiResponse := None; apiError := Some message |}
  end.

(** [handleCloseAndSave]: the tags passed to [onComplete], if it is called *)
Definition handleCloseAndSave (st : QuizState) : option json :=
  if truthy (apiResponse st) then apiResponse st else None.

End Modal.

(** the screens that [renderContent] returns; the feedback screen carries
    the tags that it lists *)
Inductive Screen : Type :=
| Processing
| ErrorScreen (message : string)
| FeedbackScreen (interestTags skillTags : list json)
| QuizForm.

(** [if (apiError)]: an error with a message that is not empty *)
Definition errorShown (st : QuizState) : option string :=
  match apiError st with
  | Some message => if nonEmpty message then Some message else None
  | None => None
  end.

(** [v.map(tag => ...)] on a value of the parsed response: the items of an
    array, a [TypeError] on everything else *)
Definition itemsOf (v : option json) : Completion (list json) :=
  match v with
  | Some (JArr items) => Normal items
  | _ => Throw
  end.

(** [renderContent]: the screen returned, or [Throw] when building the
    feedback screen throws.  What React makes of the tags afterwards is not
    part of it. *)
Definition renderContent (st : QuizState) : Completion Screen :=
  if isLoading st then Normal Processing
  else
    match errorShown st with
    | Some message => Normal (ErrorScreen message)
    | None =>
        if truthy (apiResponse st) then
          let! interests := getProp (apiResponse st) "interests" in
          let! interestTags := itemsOf interests in
          let! skills := getProp (apiResponse st) "skills" in
          let! skillTags := itemsOf skills in
          Normal (FeedbackScreen interestTags skillTags)
        else Normal QuizForm
    end.

(** the three controls that close the modal *)
Inductive CloseControl : Type :=
| Overlay
| CloseButton
| SeeMyMatches.

(** The controls rendered with a screen: the overlay and the button [x]
    with every screen, the button "Great! See My Matches" with the feedback
    screen only. *)
Definition rendered (screen : Screen) (control : CloseControl) : bool :=
  match control, screen with
  | SeeMyMatches, FeedbackScreen _ _ => true
  | SeeMyMatches, _ => false
  | _, _ => true
  end.

(** The tags that a click on the control passes to [onComplete], if it
    calls it: the overlay and the button [x] call [onClose] alone, the
    button of the feedback screen calls [handleCloseAndSave]. *)
Definition handedOver (control : CloseControl) (st : QuizState) : option json :=
  match control with
  | SeeMyMatches => handleCloseAndSave st
  | _ => None
  end.

End QuizModal.

(** * The opportunities page: what it offers and what it shows *)

Module OpportunitiesView.

(** the memo of the skill and interest drop-downs *)
Record Options : Type := {
  labelMap : list (string * string);   (* a [Map], in insertion order *)
  interestSet : list string;           (* a [Set], in insertion order *)
}.

(** [opportunity.spotsLeft] *)
Inductive SpotsLeft : Type :=
| SpotsNumber (n : Z)
| SpotsText (text : string)
| SpotsMissing.

(** the default comparison of [sort()]: strings by their code units *)
Definition defaultCompare (a b : string) : Z :=
  match String.compare a b with
  | Lt => -1
  | Eq => 0
  | Gt => 1
  end.

(** [set.add(x)] *)
Definition Set_add (x : string) (set : list string) : list string :=
  if existsb (String.eqb x) set then set else (set ++ [x])%list.

(** [map.has(k)] and [map.get(k)] *)
Definition Map_has (k : string) (m : list (string * string)) : bool :=
  existsb (fun entry => (fst entry =? k)%string) m.

Fixpoint Map_get (k : string) (m : list (string * string)) : option string :=
  match m with
  | [] => None
  | (k', v) :: m' => if (k' =? k)%string then Some v else Map_get k m'
  end.

(** [String(n)] for an integer *)
Definition Z_toString (n : Z) : string :=
  if n <? 0 then "-" ++ Number_toString (- n) else Number_toString n.

(** the count shown when [spotsLeft] is missing:
    [Math.max(2, 8 - (opportunity.id % 4))] *)
Definition defaultSpots (id : Z) : Z := Z.max 2 (8 - Z.rem id 4).

(** the badge of [OpportunityCard] *)
Definition spotsLabel (id : Z) (resolvedSpots : SpotsLeft) : string :=
  match resolvedSpots with
  | SpotsNumber n => Z_toString n ++ " spots left"
  | SpotsText text =>
      if nonEmpty text then text else Z_toString (defaultSpots id) ++ " spots left"
  | SpotsMissing => Z_toString (defaultSpots id) ++ " spots left"
  end.

(** [!!(profile.skills?.length > 0 || profile.interests?.length > 0)] *)
Definition hasCompletedQuiz (profile : UserProfile) : bool :=
  (0 <? Z.of_nat (List.length (orEmpty (user_skills profile))))
  || (0 <? Z.of_nat (List.length (orEmpty (user_interests profile)))).

(** the cards rendered: all of them, or [slice(0, 6)] *)
Definition displayed (showAllOpportunities : bool) (profile : UserProfile)
  (filteredOpportunities : list Opportunity) : list Opportunity :=
  if showAllOpportunities || negb (hasCompletedQuiz profile) then filteredOpportunities
  else firstn 6 filteredOpportunities.

(** the button "See all opportunities" is rendered *)
Definition seeAllButton (showAllOpportunities : bool) (profile : UserProfile)
  (filteredOpportunities : list Opportunity) : bool :=
  negb (List.length filteredOpportunities =? 0)%nat
  && (negb showAllOpportunities && hasCompletedQuiz profile
      && (6 <? List.length filteredOpportunities)%nat).

(** the button "Show top 6 recommendations" is rendered *)
Definition showTopButton (showAllOpportunities : bool) (profile : UserProfile)
  (filteredOpportunities : list Opportunity) : bool :=
  negb (List.length filteredOpportunities =? 0)%nat
  && (showAllOpportunities && hasCompletedQuiz profile
      && (6 <? List.length filteredOpportunities)%nat).

(** the criteria after [handleClearFilters] *)
Definition handleClearFilters : Opportunities.Criteria :=
  Opportunities.Build_Criteria "" "all" "all" "all" "" "".

Section View.

Context {RT : JsRuntime}.
Variable allOpportunities : list Opportunity.
(** [a.localeCompare(b)] *)
Variable localeCompare : string -> string -> Z.

Definition locations : list string :=
  sort defaultCompare (dedup String.eqb (map location allOpportunities)).

(** the callback of the inner [forEach] over the skills of an item *)
Definition addSkill (m : list (string * string)) (skill : string) : list (string * string) :=
  let normalized := toLowerCase skill in
  if Map_has normalized m then m else (m ++ [(normalized, skill)])%list.

(** the callback of [allOpportunities.forEach] *)
Definition addItem (acc : Options) (item : Opportunity) : Options :=
  {| labelMap := fold_left addSkill (skills item) (labelMap acc);
     interestSet := fold_left (fun set int => Set_add int set) (interests item)
                      (interestSet acc) |}.

Definition collected : Options :=
  fold_left addItem allOpportunities {| labelMap := []; interestSet := [] |}.

Definition skillLabelMap : list (string * string) := labelMap collected.

Definition skills : list string := sort defaultCompare (map fst skillLabelMap).

Definition uniqueInterests : list string := sort localeCompare (interestSet collected).

(** the label of a skill option when the map has one; the source has a
    fallback for a key without entry *)
Definition skillLabel (skill : string) : option string := Map_get skill skillLabelMap.

End View.

End OpportunitiesView.

(** * The calendar of the profile page *)

Module ProfileCalendar.

Record Cell : Type := {
  key : string;
  label : Z;
  isSelected : bool;
}.

(** year, month and day of the month of a date *)
Record Day : Type := {
  fullYear : Z;
  month : Z;
  dayOfMonth : Z;
}.

(** [upcomingDateObj && cellDate.getFullYear() === ... && ...] *)
Definition selects (upcoming : option Day) (cellDate : Day) : bool :=
  match upcoming with
  | None => false
  | Some d =>
      (fullYear cellDate =? fullYear d) && (month cellDate =? month d)
      && (dayOfMonth cellDate =? dayOfMonth d)
  end.

(** the year of [new Date(year, month, day)]: a year from 0 to 99 is read
    as 1900 + year *)
Definition Date_year (year : Z) : Z :=
  if (0 <=? year) && (year <=? 99) then 1900 + year else year.

(** the second loop: [for (let day = first; day <= daysInMonth; day += 1)],
    with [count] days left to push; [cellDate] is a day of the displayed
    month, so its month and day are the ones given to [new Date] *)
Fixpoint dayCells (displayYear displayMonth : Z) (upcoming : option Day)
  (first : Z) (count : nat) : list (option Cell) :=
  match count with
  | O => []
  | S count' =>
      Some {| key := "day-" ++ Number_toString first;
              label := first;
              isSelected :=
                selects upcoming
                  {| fullYear := Date_year displayYear; month := displayMonth;
                     dayOfMonth := first |} |}
      :: dayCells displayYear displayMonth upcoming (first + 1) count'
  end.

(** the third loop: [while (cells.length % 7 !== 0) cells.push(null)], run
    for at most [fuel] rounds *)
Fixpoint padToWeek (fuel : nat) (cells : list (option Cell)) : list (option Cell) :=
  match fuel with
  | O => cells
  | S fuel' =>
      if (List.length cells mod 7 =? 0)%nat then cells
      else padToWeek fuel' (cells ++ [None])
  end.

(** [calendarCells]: [firstDayOfMonth] is the week day of the first of the
    displayed month, [daysInMonth] its number of days, both read from
    [Date]. *)
Definition calendarCells (fuel : nat) (displayYear displayMonth : Z)
  (firstDayOfMonth daysInMonth : nat) (upcoming : option Day) : list (option Cell) :=
  padToWeek fuel
    (repeat None firstDayOfMonth
     ++ dayCells displayYear displayMonth upcoming 1 daysInMonth).

End ProfileCalendar.

(** * The earlier opportunities page *)

Module OpportunitiesLegacy.

Section Page.

Context {RT : JsRuntime}.
Variable allOpportunities : list Opportunity.

Definition locations : list string :=
  dedup String.eqb (map location allOpportunities).

(** the options of the skill drop-down *)
Definition skillOptions : list string :=
  sort OpportunitiesView.defaultCompare
    (dedup String.eqb (map toLowerCase (flat_map skills allOpportunities))).

(** the effect that selects a skill of the profile in the drop-down: the
    skill filter once it has run *)
Definition syncSkillFilter (profile : UserProfile) (skillFilter : string) : string :=
  let profileSkills := orEmpty (user_skills profile) in
  if (0 <? List.length profileSkills)%nat then
    match find (fun ps => existsb (String.eqb (toLowerCase ps)) skillOptions) profileSkills with
    | Some topSkill => if nonEmpty topSkill then toLowerCase topSkill else skillFilter
    | None => skillFilter
    end
  else skillFilter.

Definition filteredOpportunities (searchTerm locationFilter skillFilter : string)
  (profile : UserProfile) : list Opportunity :=
  let normalizedSearch := toLowerCase (trim searchTerm) in
  let userInterests := orEmpty (user_interests profile) in
  filter
    (fun opportunity =>
       let matchesSearch :=
         negb (nonEmpty normalizedSearch)
         || includes (toLowerCase (title opportunity)) normalizedSearch
         || includes (toLowerCase (description opportunity)) normalizedSearch
         || existsb (fun skill => includes (toLowerCase skill) normalizedSearch)
              (skills opportunity) in
       let matchesLocation :=
         (locationFilter =? "all")%string
         || (location opportunity =? locationFilter)%string in
       let matchesSkill :=
         (skillFilter =? "all")%string
         || existsb (fun skill => (toLowerCase skill =? skillFilter)%string)
              (skills opportunity) in
       let matchesAiInterests :=
         (List.length userInterests =? 0)%nat
         || existsb
              (fun interest => existsb (String.eqb (toLowerCase interest)) userInterests)
              (interests opportunity) in
       matchesAiInterests && matchesSearch && matchesLocation && matchesSkill)
    allOpportunities.

End Page.

End OpportunitiesLegacy.

(** * A runtime for the examples

    Text is ASCII, numbers are decimal integers, JSON texts are arrays of
    array positions, dates are [YYYY-MM-DD] and the time zone is UTC.  On
    the inputs of the examples below these functions agree with the
    JavaScript ones. *)

Module Sample.

Definition lowerChar (c : ascii) : ascii :=
  let n := nat_of_ascii c in
  if (65 <=? n)%nat && (n <=? 90)%nat then ascii_of_nat (n + 32) else c.

Fixpoint toLowerCase (s : string) : string :=
  match s with
  | EmptyString => EmptyString
  | String c s' => String (lowerChar c) (toLowerCase s')
  end.

Definition isSpace (c : ascii) : bool :=
  let n := nat_of_ascii c in
  ((9 <=? n)%nat && (n <=? 13)%nat) || (n =? 32)%nat.

Fixpoint trimStart (s : string) : string :=
  match s with
  | EmptyString => EmptyString
  | String c s' => if isSpace c then trimStart s' else s
  end.

Fixpoint trimEnd (s : string) : string :=
  match s with
  | EmptyString => EmptyString
  | String c s' =>
      match trimEnd s' with
      | EmptyString => if isSpace c then EmptyString else String c EmptyString
      | t => String c t
      end
  end.

Definition trim (s : string) : string := trimEnd (trimStart s).

Definition digit (c : ascii) : option Z :=
  let n := nat_of_ascii c in
  if (48 <=? n)%nat && (n <=? 57)%nat then Some (Z.of_nat (n - 48)) else None.

Fixpoint digitsValue (s : string) (acc : Z) : option Z :=
  match s with
  | EmptyString => Some acc
  | String c s' =>
      match digit c with
      | Some d => digitsValue s' (10 * acc + d)
      | None => None
      end
  end.

(** a non-empty run of decimal digits *)
Definition natural (s : string) : option Z :=
  match s with
  | EmptyString => None
  | String _ _ => digitsValue s 0
  end.

Definition Number_string (s : string) : option Z :=
  match trim s with
  | EmptyString => Some 0
  | String "-" t => option_map Z.opp (natural t)
  | String "+" t => natural t
  | t => natural t
  end.

(** a JSON numeral without sign, fraction or exponent *)
Definition numeral (s : string) : option Z :=
  match s with
  | String "0" (String _ _) => None
  | _ => natural s
  end.

Fixpoint naturals (l : list string) : option (list json) :=
  match l with
  | [] => Some []
  | s :: l' =>
      match numeral (trim s), naturals l' with
      | Some n, Some ns => Some (JNum n :: ns)
      | _, _ => None
      end
  end.

(** the text between the brackets of [[ ... ]] *)
Definition betweenBrackets (s : string) : option string :=
  match s with
  | String "[" t =>
      let n := String.length t in
      if (String.substring (n - 1) 1 t =? "]")%string
      then Some (String.substring 0 (n - 1) t)
      else None
  | _ => None
  end.

Definition JSON_parse (s : string) : option json :=
  match betweenBrackets (trim s) with
  | None => None
  | Some inner =>
      match trim inner with
      | EmptyString => Some (JArr [])
      | _ => option_map JArr (naturals (split "," inner))
      end
  end.

(** days from 1970-01-01 to the given civil date *)
Definition daysFromCivil (y m d : Z) : Z :=
  let y' := if m <=? 2 then y - 1 else y in
  let era := y' / 400 in
  let yoe := y' - era * 400 in
  let doy := (153 * (if 2 <? m then m - 3 else m + 9) + 2) / 5 + d - 1 in
  let doe := yoe * 365 + yoe / 4 - yoe / 100 + doy in
  era * 146097 + doe - 719468.

Definition msPerDay : Z := 86400000.

Definition Date_getTime (s : string) : option Z :=
  if ((String.length s =? 10)%nat
      && (String.substring 4 1 s =? "-")%string
      && (String.substring 7 1 s =? "-")%string)%bool
  then
    match natural (String.substring 0 4 s),
          natural (String.substring 5 2 s),
          natural (String.substring 8 2 s) with
    | Some y, Some m, Some d =>
        if ((1 <=? m) && (m <=? 12) && (1 <=? d) && (d <=? 31))%bool
        then Some (daysFromCivil y m d * msPerDay)
        else None
    | _, _, _ => None
    end
  else None.

Definition setHours0 (t : Z) : Z := t - t mod msPerDay.

Definition runtime : JsRuntime :=
  Build_JsRuntime toLowerCase trim Number_string JSON_parse Date_getTime setHours0
    eq_refl eq_refl eq_refl.

End Sample.

(** * The words of the specification *)

Section Specification.

Context {RT : JsRuntime}.

(** [score]: the count of the opportunity's interests that match a profile
    interest, compared case-insensitively *)
Definition matchCount (profileInterests : list string) (o : Opportunity) : Z :=
  Z.of_nat
    (List.length
       (filter
          (fun interest =>
             existsb (fun p => (toLowerCase interest =? toLowerCase p)%string)
               profileInterests)
          (interests o))).

(** the path [choices[0].message.content] of a well-shaped response *)
Definition hasContent (data : json) (content : string) : Prop :=
  exists fields first rest messageFields,
    data = JObj fields /\
    lookup "choices" fields = Some (JArr (JObj first :: rest)) /\
    lookup "message" first = Some (JObj messageFields) /\
    lookup "content" messageFields = Some (JStr content).

(** a parsed content that is neither a list nor a string: [null], a
    boolean, a number, an object.  These have no [indexOf]; a string has
    one, so a content that parses to a string is searched and is no
    failure. *)
Definition neitherListNorString (v : json) : Prop :=
  match v with
  | JArr _ => False
  | JStr _ => False
  | _ => True
  end.

(** The failures of the remote ranking call: the network fails, the body is
    not JSON, the response has no choices, its content is absent, empty,
    does not parse, or parses to a value that is neither a list nor a
    string. *)
Inductive remoteFailure : FetchOutcome -> Prop :=
| network_error :
    remoteFailure FetchRejected
| malformed_body status :
    remoteFailure (FetchResponse status None)
| missing_choices status fields :
    lookup "choices" fields = None ->
    remoteFailure (FetchResponse status (Some (JObj fields)))
| empty_choices status fields :
    lookup "choices" fields = Some (JArr []) ->
    remoteFailure (FetchResponse status (Some (JObj fields)))
| absent_content status fields first rest messageFields :
    lookup "choices" fields = Some (JArr (JObj first :: rest)) ->
    lookup "message" first = Some (JObj messageFields) ->
    lookup "content" messageFields = None ->
    remoteFailure (FetchResponse status (Some (JObj fields)))
| empty_content status data content :
    hasContent data content -> trim content = "" ->
    remoteFailure (FetchResponse status (Some data))
| unparsable_content status data content :
    hasContent data content -> JSON_parse (trim content) = None ->
    remoteFailure (FetchResponse status (Some data))
| content_without_indexOf status data content v :
    hasContent data content -> JSON_parse (trim content) = Some v ->
    neitherListNorString v ->
    remoteFailure (FetchResponse status (Some data)).

(** a response outside the 2xx range *)
Definition non2xx (outcome : FetchOutcome) : Prop :=
  match outcome with
  | FetchRejected => False
  | FetchResponse status _ => status < 200 \/ 299 < status
  end.

(** [rank(interests, skills, catalog)]: what [recommendOpportunities]
    resolves to against the answers [remote] of the service.  The function
    takes no skills. *)
Definition rankResult (catalog : list Opportunity) (opportunitiesList : string)
  (remote : Request -> FetchOutcome) (profileInterests : list string) : list Opportunity :=
  fst (App.recommendOpportunities catalog opportunitiesList profileInterests remote).

(** the requests that the call sent to the service *)
Definition rankRequests (catalog : list Opportunity) (opportunitiesList : string)
  (remote : Request -> FetchOutcome) (profileInterests : list string) : list Request :=
  snd (App.recommendOpportunities catalog opportunitiesList profileInterests remote).

(** The local-scoring result: the whole catalog, sorted descending by
    [matchCount], opportunities of equal count in catalog order. *)
Definition localScoring (profileInterests : list string) (catalog result : list Opportunity)
  : Prop :=
  Permutation result catalog /\
  StronglySorted
    (fun a b => matchCount profileInterests b <= matchCount profileInterests a) result /\
  forall k,
    filter (fun o => matchCount profileInterests o =? k) result
    = filter (fun o => matchCount profileInterests o =? k) catalog.

(** a well-formed response: its content is the JSON text of [ranking] *)
Definition wellFormed (outcome : FetchOutcome) (ranking : json) : Prop :=
  exists status data content,
    outcome = FetchResponse status (Some data) /\
    hasContent data content /\
    JSON_parse (trim content) = Some ranking.

(** the opportunity at the 1-based catalog position [i], if there is one *)
Definition atPosition (catalog : list Opportunity) (i : Z) : option Opportunity :=
  if 1 <=? i then nth_error catalog (Z.to_nat (i - 1)) else None.

(** The catalog re-ordered by the returned index list: the entry at place
    [pos] of the response puts the opportunity it names at that rank; an
    index that names no catalog position is dropped, an index that occurs
    again is ignored, a catalog entry that is not named does not appear. *)
Fixpoint reorder_from (catalog : list Opportunity) (seen : list Z) (pos : Z)
  (indices : list Z) : list Opportunity :=
  match indices with
  | [] => []
  | i :: rest =>
      if existsb (Z.eqb i) seen then reorder_from catalog seen (pos + 1) rest
      else
        match atPosition catalog i with
        | Some o => withRank o pos :: reorder_from catalog (i :: seen) (pos + 1) rest
        | None => reorder_from catalog (i :: seen) (pos + 1) rest
        end
  end.

Definition reorder (catalog : list Opportunity) (indices : list Z) : list Opportunity :=
  reorder_from catalog [] 0 indices.

(** the first place of [k] in an index list *)
Fixpoint firstPlace (k : Z) (indices : list Z) : option nat :=
  match indices with
  | [] => None
  | i :: rest => if i =? k then Some O else option_map S (firstPlace k rest)
  end.

(** the rank an item carries *)
Definition rankOf (o : Opportunity) : Z :=
  match rank o with
  | Some r => r
  | None => 0
  end.

(** ** The facets of the filter *)

(** the search text occurs, case-insensitively, in the title, the
    description or a skill; the search text is trimmed first *)
Definition searchFacet (c : Opportunities.Criteria) (o : Opportunity) : Prop :=
  let q := toLowerCase (trim (Opportunities.searchTerm c)) in
  q = ""
  \/ includes (toLowerCase (title o)) q = true
  \/ includes (toLowerCase (description o)) q = true
  \/ exists skill, In skill (skills o) /\ includes (toLowerCase skill) q = true.

Definition locationFacet (c : Opportunities.Criteria) (o : Opportunity) : Prop :=
  Opportunities.locationFilter c = "all" \/ location o = Opportunities.locationFilter c.

(** The values that the skill filter of the page can hold: its initial
    value and the value after "Clear Filters", ["all"], or an option of the
    skill drop-down, which offers the lower-cased skills of the catalog. *)
Definition selectableSkill (catalog : list Opportunity) (skillFilter : string) : Prop :=
  skillFilter = "all" \/ In skillFilter (OpportunitiesView.skills catalog).

(** case-insensitive membership of the requested skill *)
Definition skillFacetInsensitive (c : Opportunities.Criteria) (o : Opportunity) : Prop :=
  Opportunities.skillFilter c = "all"
  \/ exists skill, In skill (skills o)
                   /\ toLowerCase skill = toLowerCase (Opportunities.skillFilter c).

(** membership of the requested skill among the lower-cased skills *)
Definition skillFacet (c : Opportunities.Criteria) (o : Opportunity) : Prop :=
  Opportunities.skillFilter c = "all"
  \/ exists skill, In skill (skills o) /\ toLowerCase skill = Opportunities.skillFilter c.

Definition interestFacet (c : Opportunities.Criteria) (o : Opportunity) : Prop :=
  Opportunities.interestFilter c = "all"
  \/ exists interest, In interest (interests o)
                      /\ toLowerCase interest
                         = toLowerCase (Opportunities.interestFilter c).

(** the calendar day of a date text, time of day stripped, when the text is
    not empty and parses *)
Definition calendarDay (text : string) : option Z :=
  if (text =? "")%string then None
  else match Date_getTime text with
       | Some time => Some (setHours0 time)
       | None => None
       end.

(** the date text of the opportunity: its [date], or else its [startDate] *)
Definition statedDate (o : Opportunity) : option string :=
  match date o with
  | Some text => if (text =? "")%string then startDate o else Some text
  | None => startDate o
  end.

(** the calendar day of the opportunity, when it has a date that parses *)
Definition opportunityDay (o : Opportunity) : option Z :=
  match statedDate o with
  | Some text => calendarDay text
  | None => None
  end.

(** the calendar day of a bound of the range, when the bound is present *)
Definition boundDay (bound : string) : option Z := calendarDay bound.

(** an opportunity with a day lies within the bounds that are present; one
    without a day passes *)
Definition dateFacet (c : Opportunities.Criteria) (o : Opportunity) : Prop :=
  match opportunityDay o with
  | None => True
  | Some day =>
      match boundDay (Opportunities.dateRange_start c) with
      | Some first => first <= day
      | None => True
      end
      /\ match boundDay (Opportunities.dateRange_end c) with
         | Some last => day <= last
         | None => True
         end
  end.

(** the count of the labels that match a label of the user,
    case-insensitively *)
Definition overlapCount (labels userLabels : list string) : Z :=
  Z.of_nat
    (List.length
       (filter
          (fun label =>
             existsb (fun u => (toLowerCase label =? toLowerCase u)%string) userLabels)
          labels)).

(** the order of the filtered list: more interests in common first, then
    more skills in common, then the earlier catalog position *)
Definition rankedBefore (a b : Opportunities.Scored) : Prop :=
  Opportunities.interestOverlap b < Opportunities.interestOverlap a
  \/ (Opportunities.interestOverlap a = Opportunities.interestOverlap b
      /\ (Opportunities.skillOverlap b < Opportunities.skillOverlap a
          \/ (Opportunities.skillOverlap a = Opportunities.skillOverlap b
              /\ Opportunities.index a <= Opportunities.index b))).

(** a scored entry describes the catalog entry at its index *)
Definition describes (catalog : list Opportunity) (profile : UserProfile)
  (s : Opportunities.Scored) : Prop :=
  0 <= Opportunities.index s
  /\ nth_error catalog (Z.to_nat (Opportunities.index s))
     = Some (Opportunities.opportunity s)
  /\ Opportunities.interestOverlap s
     = overlapCount (interests (Opportunities.opportunity s))
         (orEmpty (user_interests profile))
  /\ Opportunities.skillOverlap s
     = overlapCount (skills (Opportunities.opportunity s))
         (orEmpty (user_skills profile)).

(** ** Favourites *)

(** [toggleFavorite(id)]: the favourites after the toggle *)
Definition toggleFavorite (id : Opportunities.FavoriteId)
  (favorites : list Opportunities.FavoriteId) : list Opportunities.FavoriteId :=
  fst (Opportunities.handleToggleFavorite id favorites).

(** membership of an id in the favourites, under id normalization *)
Definition favorited (id : Opportunities.FavoriteId)
  (favorites : list Opportunities.FavoriteId) : Prop :=
  In (Opportunities.normalizeFavoriteId id)
    (map Opportunities.normalizeFavoriteId favorites).

(** each normalized id appears at most once *)
Definition noDuplicateIds (favorites : list Opportunities.FavoriteId) : Prop :=
  NoDup (map Opportunities.normalizeFavoriteId favorites).

(** every id is in normal form *)
Definition normalized (l : list Opportunities.FavoriteId) : Prop :=
  Forall (fun v => Opportunities.normalizeFavoriteId v = v) l.

(** the list that the toggle hands to [new Set] *)
Definition nextFavorites (id : Opportunities.FavoriteId)
  (current : list Opportunities.FavoriteId) : list Opportunities.FavoriteId :=
  let idValue := Opportunities.normalizeFavoriteId id in
  let normalizedCurrent := map Opportunities.normalizeFavoriteId current in
  if existsb (Opportunities.sameValue idValue) normalizedCurrent
  then filter (fun fav => negb (Opportunities.sameValue fav idValue)) normalizedCurrent
  else (normalizedCurrent ++ [idValue])%list.

(** ** Profiles *)

(** no two entries are equal under case-insensitive comparison *)
Definition caseInsensitiveDistinct (labels : list string) : Prop :=
  NoDup (map toLowerCase labels).

(** a text without a comma *)
Definition commaFree (piece : string) : Prop :=
  forall c, In c (list_ascii_of_string piece) -> c <> ","%char.

(** The entries that the comma-separated field holds, read off its pieces:
    every piece trimmed, in the order of the text and as it is written,
    unless trimming leaves nothing of it.  A piece that occurs again gives
    an entry again. *)
Fixpoint entriesOf (pieces : list string) : list string :=
  match pieces with
  | [] => []
  | piece :: rest =>
      if (trim piece =? "")%string then entriesOf rest
      else trim piece :: entriesOf rest
  end.

(** the tags left once the tags in [removals] have been clicked away *)
Definition remaining (removals labels : list string) : list string :=
  filter (fun label => negb (existsb (String.eqb label) removals)) labels.

(** the form of the profile page after the user removed these tags *)
Definition afterRemovals (removals : list string) (f : Profile.Form) : Profile.Form :=
  fold_left (fun form tag => Profile.handleRemoveInterest tag form) removals f.

End Specification.

(** a response body whose [choices[0].message.content] is [content] *)
Definition completion (content : string) : json :=
  JObj [("choices", JArr [JObj [("message", JObj [("content", JStr content)])]])].

(** * Example data *)

Module Example.

Definition opportunity (i : Z) (name place : string) (itsSkills itsInterests : list string)
  (day : option string) : Opportunity :=
  {| id := i; title := name; description := name ++ " with the community";
     location := place; skills := itsSkills; interests := itsInterests;
     date := day; startDate := None; rank := None |}.

Definition cleanup : Opportunity :=
  opportunity 1 "Beach Cleanup" "East Coast" ["Teamwork"] ["Environment"] (Some "2025-01-15").
Definition tutoring : Opportunity :=
  opportunity 2 "Tutoring" "Bedok" ["Teaching"; "Patience"] ["education"] None.
Definition gardening : Opportunity :=
  opportunity 3 "Community Garden" "Bedok" ["Gardening"] ["environment"; "community"]
    (Some "2025-03-01").
Definition kitchen : Opportunity :=
  opportunity 4 "Soup Kitchen" "Jurong" ["Cooking"] ["community"] (Some "soon").
Definition coding : Opportunity :=
  opportunity 5 "Coding Club" "Jurong" ["Teaching"; "Coding"] ["education"; "technology"]
    (Some "2025-02-10").

Definition catalog : list Opportunity := [cleanup; tutoring; gardening; kitchen; coding].

Definition opportunitiesList : string := "1. Beach Cleanup 2. Tutoring".

(** the remote service answers every request with this outcome *)
Definition always (outcome : FetchOutcome) : Request -> FetchOutcome := fun _ => outcome.

Definition noCriteria : Opportunities.Criteria :=
  Opportunities.Build_Criteria "" "all" "all" "all" "" "".

Definition guest : UserProfile :=
  {| user_name := None; user_email := None; user_password := None; user_story := None;
     user_interests := None; user_skills := None |}.

Definition volunteer : UserProfile :=
  {| user_name := Some "Ann"; user_email := None; user_password := None;
     user_story := None;
     user_interests := Some ["Education"; "community"];
     user_skills := Some ["teaching"] |}.

(** the option "cooking" chosen in the skill drop-down *)
Definition cookingOption : Opportunities.Criteria :=
  Opportunities.Build_Criteria "" "all" "cooking" "all" "" "".

Definition februaryInBedok : Opportunities.Criteria :=
  Opportunities.Build_Criteria "" "Bedok" "all" "all" "2025-02-01" "2025-02-28".

Definition artist : UserProfile :=
  {| user_name := Some "Ann"; user_email := None; user_password := None;
     user_story := None;
     user_interests := Some ["Art"; "music"; "art"];
     user_skills := None |}.

Definition formal : UserProfile :=
  {| user_name := Some "Bo"; user_email := None; user_password := None;
     user_story := None;
     user_interests := Some ["Education"; "Community"];
     user_skills := None |}.

(** the quote character *)
Definition quote : string := String (ascii_of_nat 34) EmptyString.

(** the stored text [{(q)name(q):(q)Ann(q),(q)interests(q):(q)not-an-array(q)}],
    where (q) is the quote character: a profile whose interests are not an
    array *)
Definition storedProfileText : string :=
  "{" ++ quote ++ "name" ++ quote ++ ":" ++ quote ++ "Ann" ++ quote ++ ","
  ++ quote ++ "interests" ++ quote ++ ":" ++ quote ++ "not-an-array" ++ quote ++ "}".

Definition storedProfile : json :=
  JObj [("name", JStr "Ann"); ("interests", JStr "not-an-array")].

(** the runtime of the examples, which in addition parses that text *)
Definition profileRuntime : JsRuntime :=
  Build_JsRuntime Sample.toLowerCase Sample.trim Sample.Number_string
    (fun s => if (s =? storedProfileText)%string then Some storedProfile
              else Sample.JSON_parse s)
    Sample.Date_getTime Sample.setHours0 eq_refl eq_refl eq_refl.

(** the content [(q)312(q)]: the JSON text of the string [312] *)
Definition quotedRanking : string := quote ++ "312" ++ quote.

(** the runtime of the examples, which in addition parses that content *)
Definition stringRuntime : JsRuntime :=
  Build_JsRuntime Sample.toLowerCase Sample.trim Sample.Number_string
    (fun s => if (s =? quotedRanking)%string then Some (JStr "312")
              else Sample.JSON_parse s)
    Sample.Date_getTime Sample.setHours0 eq_refl eq_refl eq_refl.

End Example.

(** the facets of the criteria, and a facet set to "no constraint" *)
Inductive Facet : Type :=
| SearchText
| Location
| Skill
| Interest
| DateStart
| DateEnd.

Definition unconstrained (f : Facet) (c : Opportunities.Criteria) : Opportunities.Criteria :=
  let 'Opportunities.Build_Criteria search loc skill interest first last := c in
  match f with
  | SearchText => Opportunities.Build_Criteria "" loc skill interest first last
  | Location => Opportunities.Build_Criteria search "all" skill interest first last
  | Skill => Opportunities.Build_Criteria search loc "all" interest first last
  | Interest => Opportunities.Build_Criteria search loc skill "all" first last
  | DateStart => Opportunities.Build_Criteria search loc skill interest "" last
  | DateEnd => Opportunities.Build_Criteria search loc skill interest first ""
  end.

(** * Further notions *)

Section FurtherNotions.

Context {RT : JsRuntime}.

(** favourites as the page keeps them: every id in normal form, none twice *)
Definition wellKept (favorites : list Opportunities.FavoriteId) : Prop :=
  normalized favorites /\ NoDup favorites.

(** the favourites after a sequence of toggles *)
Definition afterToggles (ids favorites : list Opportunities.FavoriteId)
  : list Opportunities.FavoriteId :=
  fold_left (fun favs id => toggleFavorite id favs) ids favorites.

(** what the pass over the items keeps true of the two collections *)
Definition collects (seen : list Opportunity) (acc : OpportunitiesView.Options) : Prop :=
  NoDup (map fst (OpportunitiesView.labelMap acc))
  /\ NoDup (OpportunitiesView.interestSet acc)
  /\ (forall k, In k (map fst (OpportunitiesView.labelMap acc))
                <-> exists o skill, In o seen /\ In skill (skills o)
                                    /\ toLowerCase skill = k)
  /\ (forall v, In v (OpportunitiesView.interestSet acc)
                <-> exists o, In o seen /\ In v (interests o))
  /\ Forall (fun e => toLowerCase (snd e) = fst e
                      /\ exists o, In o seen /\ In (snd e) (skills o))
       (OpportunitiesView.labelMap acc).

End FurtherNotions.

(** a label that the comma-separated field gives back as it is: not empty,
    without comma, and left alone by [trim], also behind the space that
    follows a comma *)
Definition plainLabel {RT : JsRuntime} (label : string) : Prop :=
  label <> ""
  /\ (forall c, In c (list_ascii_of_string label) -> c <> ","%char)
  /\ trim label = label
  /\ trim (" " ++ label) = label.

(** at most one run of the effect is live, the latest one *)
Definition oneLiveRun (runs : list App.EffectRun) : Prop :=
  runs = []
  \/ exists earlier latest,
       runs = (earlier ++ [latest])%list
       /\ Forall (fun r => App.ignore r = true) earlier
       /\ App.ignore latest = false.

(** the settlement of a run that is older than the runs of [st] *)
Definition settlesOlderRun (st : App.PageState) (e : App.PageEvent) : Prop :=
  match e with
  | App.ProfileChanged _ => False
  | App.Settled k _ => (k < List.length (App.runs st))%nat
  end.

(** * Facts about the array functions *)

Section SortFacts.

Variable A : Type.
Variable cmp : A -> A -> Z.

Lemma insertBy_Permutation (x : A) (l : list A) :
  Permutation (insertBy cmp x l) (x :: l).
Proof.
  induction l as [|y l IH]; simpl.
  - apply Permutation_refl.
  - destruct (cmp x y <=? 0).
    + apply Permutation_refl.
    + apply Permutation_trans with (y :: x :: l).
      * apply perm_skip, IH.
      * apply perm_swap.
Qed.

Lemma sort_Permutation (l : list A) : Permutation (sort cmp l) l.
Proof.
  induction l as [|x l IH]; simpl.
  - apply perm_nil.
  - apply Permutation_trans with (x :: sort cmp l).
    + apply insertBy_Permutation.
    + apply perm_skip, IH.
Qed.

Lemma sort_length (l : list A) : List.length (sort cmp l) = List.length l.
Proof. apply Permutation_length, sort_Permutation. Qed.

Lemma sort_In (l : list A) (x : A) : In x (sort cmp l) <-> In x l.
Proof.
  split; apply Permutation_in.
  - apply sort_Permutation.
  - apply Permutation_sym, sort_Permutation.
Qed.

(** Elements that the comparator ties keep their order: a stable sort. *)
Lemma insertBy_filter (p : A -> bool) (x : A) (l : list A) :
  (forall a b, p a = true -> p b = true -> cmp a b <= 0) ->
  filter p (insertBy cmp x l) = filter p (x :: l).
Proof.
  intros Htie. induction l as [|y l IH]; simpl.
  - reflexivity.
  - destruct (cmp x y <=? 0) eqn:E.
    + reflexivity.
    + simpl in *. destruct (p y) eqn:Py.
      * destruct (p x) eqn:Px.
        -- apply Z.leb_gt in E. specialize (Htie x y Px Py). lia.
        -- rewrite IH. reflexivity.
      * exact IH.
Qed.

Lemma sort_filter (p : A -> bool) (l : list A) :
  (forall a b, p a = true -> p b = true -> cmp a b <= 0) ->
  filter p (sort cmp l) = filter p l.
Proof.
  intros Htie. induction l as [|x l IH]; simpl.
  - reflexivity.
  - rewrite insertBy_filter by exact Htie. simpl. rewrite IH. reflexivity.
Qed.

(** For a comparator that is a total preorder on the elements (those with
    [P]) the result is sorted. *)
Variable P : A -> Prop.
Hypothesis cmp_total : forall x y, P x -> P y -> 0 < cmp x y -> cmp y x <= 0.
Hypothesis cmp_trans :
  forall x y z, P x -> P y -> P z -> cmp x y <= 0 -> cmp y z <= 0 -> cmp x z <= 0.

Lemma insertBy_sorted (x : A) (l : list A) :
  P x -> Forall P l ->
  StronglySorted (fun a b => cmp a b <= 0) l ->
  StronglySorted (fun a b => cmp a b <= 0) (insertBy cmp x l).
Proof.
  intros Px. induction l as [|y l IH]; simpl; intros HP Hs.
  - constructor; [constructor | constructor].
  - inversion Hs as [|? ? Hs' Hall]; subst.
    inversion HP as [|? ? Py HP']; subst.
    rewrite Forall_forall in Hall, HP'.
    destruct (cmp x y <=? 0) eqn:E.
    + apply Z.leb_le in E. constructor; [exact Hs|].
      constructor; [exact E|].
      apply Forall_forall. intros a Ha.
      apply cmp_trans with (y := y); auto.
    + apply Z.leb_gt in E. constructor.
      * apply IH; [apply Forall_forall; exact HP' | exact Hs'].
      * apply Forall_forall. intros a Ha.
        apply (Permutation_in _ (insertBy_Permutation x l)) in Ha.
        destruct Ha as [<-|Ha].
        -- apply cmp_total; assumption.
        -- apply Hall, Ha.
Qed.

Lemma sort_sorted (l : list A) :
  Forall P l -> StronglySorted (fun a b => cmp a b <= 0) (sort cmp l).
Proof.
  induction l as [|x l IH]; simpl; intros HP.
  - constructor.
  - inversion HP as [|? ? Px HP']; subst.
    apply insertBy_sorted; [exact Px | | apply IH, HP'].
    apply Forall_forall. intros a Ha. apply (proj1 (sort_In l a)) in Ha.
    rewrite Forall_forall in HP'. apply HP', Ha.
Qed.

End SortFacts.

Arguments sort_Permutation {A}.
Arguments sort_length {A}.
Arguments sort_In {A}.
Arguments sort_filter {A}.
Arguments sort_sorted {A}.

(** A list whose keys increase strictly is determined by its elements. *)
Lemma increasing_unique {A : Type} (key : A -> Z) (l1 l2 : list A) :
  StronglySorted (fun a b => key a < key b) l1 ->
  StronglySorted (fun a b => key a < key b) l2 ->
  (forall x, In x l1 <-> In x l2) ->
  l1 = l2.
Proof.
  revert l2. induction l1 as [|x l1 IH]; intros l2 H1 H2 Hin.
  - destruct l2 as [|y l2]; [reflexivity|].
    exfalso. apply (proj2 (Hin y)). left. reflexivity.
  - destruct l2 as [|y l2].
    + exfalso. apply (proj1 (Hin x)). left. reflexivity.
    + inversion H1 as [|? ? H1' A1]; subst.
      inversion H2 as [|? ? H2' A2]; subst.
      rewrite Forall_forall in A1, A2.
      assert (Hxy : x = y).
      { destruct (proj1 (Hin x) (or_introl eq_refl)) as [E|Hx]; [symmetry; exact E|].
        destruct (proj2 (Hin y) (or_introl eq_refl)) as [E|Hy]; [exact E|].
        specialize (A1 _ Hy). specialize (A2 _ Hx). lia. }
      subst y. f_equal. apply IH; try assumption.
      intros z. split; intros Hz.
      * destruct (proj1 (Hin z) (or_intror Hz)) as [E|Hz']; [|exact Hz'].
        subst z. specialize (A1 _ Hz). lia.
      * destruct (proj2 (Hin z) (or_intror Hz)) as [E|Hz']; [|exact Hz'].
        subst z. specialize (A2 _ Hz). lia.
Qed.

Lemma insertBy_map {A B : Type} (f : A -> B) (cmp : B -> B -> Z) (cmp' : A -> A -> Z)
  (x : A) (l : list A) :
  (forall a b, cmp (f a) (f b) = cmp' a b) ->
  insertBy cmp (f x) (map f l) = map f (insertBy cmp' x l).
Proof.
  intros Hcmp. induction l as [|y l IH]; simpl.
  - reflexivity.
  - rewrite Hcmp. destruct (cmp' x y <=? 0); simpl.
    + reflexivity.
    + rewrite IH. reflexivity.
Qed.

Lemma sort_map {A B : Type} (f : A -> B) (cmp : B -> B -> Z) (cmp' : A -> A -> Z)
  (l : list A) :
  (forall a b, cmp (f a) (f b) = cmp' a b) ->
  sort cmp (map f l) = map f (sort cmp' l).
Proof.
  intros Hcmp. induction l as [|x l IH]; simpl.
  - reflexivity.
  - rewrite IH. apply insertBy_map, Hcmp.
Qed.

Lemma StronglySorted_weaken {A : Type} (R R' : A -> A -> Prop) (l : list A) :
  (forall a b, R a b -> R' a b) -> StronglySorted R l -> StronglySorted R' l.
Proof.
  intros Himp Hs. induction Hs as [|x l Hs IH Hall]; constructor.
  - exact IH.
  - eapply Forall_impl; [|exact Hall]. intros b. apply Himp.
Qed.

(** Sorting by a key, largest first *)
Lemma sort_descending {A : Type} (key : A -> Z) (l : list A) :
  StronglySorted (fun a b => key b <= key a) (sort (fun a b => key b - key a) l).
Proof.
  apply StronglySorted_weaken with (R := fun a b => key b - key a <= 0).
  - intros a b Hab. lia.
  - apply sort_sorted with (P := fun _ => True); intros; try lia.
    apply Forall_forall. intros; exact I.
Qed.

Lemma sort_descending_stable {A : Type} (key : A -> Z) (k : Z) (l : list A) :
  filter (fun a => key a =? k) (sort (fun a b => key b - key a) l)
  = filter (fun a => key a =? k) l.
Proof.
  apply sort_filter. intros a b Ha Hb.
  apply Z.eqb_eq in Ha, Hb. lia.
Qed.

(** * The ranking engine *)

Section RankingFacts.

Context {RT : JsRuntime}.
Variable allOpportunities : list Opportunity.
Variable opportunitiesList : string.

Lemma count_fold (A : Type) (p : A -> bool) (l : list A) (acc : Z) :
  fold_left (fun acc x => if p x then acc + 1 else acc) l acc
  = acc + Z.of_nat (List.length (filter p l)).
Proof.
  revert acc. induction l as [|x l IH]; intros acc; simpl.
  - lia.
  - rewrite IH. destruct (p x); simpl List.length; lia.
Qed.

Lemma existsb_map (A B : Type) (f : A -> B) (p : B -> bool) (l : list A) :
  existsb p (map f l) = existsb (fun x => p (f x)) l.
Proof.
  induction l as [|x l IH]; simpl; [reflexivity|]. rewrite IH. reflexivity.
Qed.

Lemma score_matchCount (profileInterests : list string) (o : Opportunity) :
  App.score (map toLowerCase profileInterests) o = matchCount profileInterests o.
Proof.
  unfold App.score, matchCount. rewrite count_fold. simpl.
  f_equal. f_equal. apply filter_ext. intros interest. apply existsb_map.
Qed.

Lemma simpleRecommendations_sort (profileInterests : list string) :
  profileInterests <> [] ->
  App.simpleRecommendations allOpportunities profileInterests
  = sort (fun a b => matchCount profileInterests b - matchCount profileInterests a)
      allOpportunities.
Proof.
  intros Hne. unfold App.simpleRecommendations.
  destruct profileInterests as [|i rest]; [contradiction|].
  set (ps := i :: rest).
  rewrite sort_map
    with (cmp' := fun a b => matchCount ps b - matchCount ps a).
  - rewrite map_map. cbn [snd]. apply map_id.
  - intros a b. cbn [fst]. rewrite !score_matchCount. reflexivity.
Qed.

Lemma rankAll_without_indexOf (v : json) :
  neitherListNorString v ->
  App.rankAll allOpportunities v = Throw
  \/ (App.rankAll allOpportunities v = Normal [] /\ allOpportunities = []).
Proof.
  intros Hv. unfold App.rankAll.
  destruct allOpportunities as [|o l]; [right; split; reflexivity|].
  left. destruct v; try contradiction; reflexivity.
Qed.

Lemma tryRanking_failure (outcome : FetchOutcome) :
  remoteFailure outcome ->
  App.tryRanking allOpportunities outcome = Throw
  \/ App.tryRanking allOpportunities outcome = Normal None
  \/ (App.tryRanking allOpportunities outcome = Normal (Some [])
      /\ allOpportunities = []).
Proof.
  intros Hfail.
  destruct Hfail as [ | status | status fields Hc | status fields Hc
                    | status fields first rest mf Hc Hm Hk
                    | status data content Hd Ht | status data content Hd Hp
                    | status data content v Hd Hp Hv ].
  - left. reflexivity.
  - left. reflexivity.
  - right. left. simpl. rewrite Hc. reflexivity.
  - right. left. simpl. rewrite Hc. reflexivity.
  - left. simpl. rewrite Hc. simpl. rewrite Hm. simpl. rewrite Hk. reflexivity.
  - left. destruct Hd as (fields & first & rest & mf & -> & Hc & Hm & Hk).
    simpl. rewrite Hc. simpl. rewrite Hm. simpl. rewrite Hk. simpl.
    rewrite Ht. reflexivity.
  - left. destruct Hd as (fields & first & rest & mf & -> & Hc & Hm & Hk).
    simpl. rewrite Hc. simpl. rewrite Hm. simpl. rewrite Hk. simpl.
    rewrite Hp. destruct (nonEmpty (trim content)); reflexivity.
  - destruct Hd as (fields & first & rest & mf & -> & Hc & Hm & Hk).
    simpl. rewrite Hc. simpl. rewrite Hm. simpl. rewrite Hk. simpl.
    rewrite Hp. destruct (nonEmpty (trim content)); [|left; reflexivity].
    destruct (rankAll_without_indexOf v Hv) as [-> | [-> Hnil]].
    + left. reflexivity.
    + right. right. split; [reflexivity | exact Hnil].
Qed.

Lemma getAIRecommendations_result (profileInterests : list string)
  (remote : Request -> FetchOutcome) :
  fst (App.getAIRecommendations allOpportunities opportunitiesList profileInterests remote)
  = match App.tryRanking allOpportunities
            (remote (App.rankingRequest opportunitiesList profileInterests)) with
    | Normal (Some ranked) => ranked
    | _ => App.simpleRecommendations allOpportunities profileInterests
    end.
Proof.
  unfold App.getAIRecommendations, bind, fetch, ret.
  destruct (App.tryRanking _ _) as [[ranked|]|]; reflexivity.
Qed.

Lemma getAIRecommendations_sent (profileInterests : list string)
  (remote : Request -> FetchOutcome) :
  snd (App.getAIRecommendations allOpportunities opportunitiesList profileInterests remote)
  = [App.rankingRequest opportunitiesList profileInterests].
Proof.
  unfold App.getAIRecommendations, bind, fetch, ret.
  destruct (App.tryRanking _ _) as [[ranked|]|]; reflexivity.
Qed.

Lemma recommendOpportunities_result (profileInterests : list string)
  (remote : Request -> FetchOutcome) :
  profileInterests <> [] ->
  fst (App.recommendOpportunities allOpportunities opportunitiesList profileInterests remote)
  = match fst (App.getAIRecommendations allOpportunities opportunitiesList
                 profileInterests remote) with
    | [] => allOpportunities
    | recommended => recommended
    end.
Proof.
  intros Hne. destruct profileInterests as [|i rest]; [contradiction|].
  unfold App.recommendOpportunities, bind, ret.
  destruct (App.getAIRecommendations _ _ _ remote) as [recommended sent].
  destruct recommended; reflexivity.
Qed.

Lemma recommend_fallback (profileInterests : list string) (remote : Request -> FetchOutcome) :
  profileInterests <> [] ->
  remoteFailure (remote (App.rankingRequest opportunitiesList profileInterests)) ->
  fst (App.recommendOpportunities allOpportunities opportunitiesList profileInterests remote)
  = App.simpleRecommendations allOpportunities profileInterests.
Proof.
  intros Hne Hfail.
  assert (Hlen : List.length (App.simpleRecommendations allOpportunities profileInterests)
                 = List.length allOpportunities).
  { rewrite simpleRecommendations_sort by exact Hne. apply sort_length. }
  rewrite recommendOpportunities_result by exact Hne.
  rewrite getAIRecommendations_result.
  destruct (tryRanking_failure _ Hfail) as [-> | [-> | [-> Hnil]]];
    destruct (App.simpleRecommendations allOpportunities profileInterests) eqn:E;
    try reflexivity;
    destruct allOpportunities; try reflexivity; discriminate.
Qed.

End RankingFacts.

(** C4.  With an empty interests list [rank] returns the catalog itself, in
    the same order, and sends no request to the remote service, whatever
    the catalog and whatever the service would have answered.  (The ranking
    function has no skills parameter, so this holds for every skills list.) *)
Theorem rank_empty_interests_passthrough {RT : JsRuntime}
  (catalog : list Opportunity) (opportunitiesList : string)
  (remote : Request -> FetchOutcome) :
  rankResult catalog opportunitiesList remote [] = catalog
  /\ rankRequests catalog opportunitiesList remote [] = [].
Proof.
  split; reflexivity.
Qed.

(** C1, as amended.  For every non-empty interests list and every catalog,
    if the remote ranking call fails (the network fails or [fetch] throws,
    the body is not JSON, the choices are missing or empty, the content is
    absent, empty, does not parse, or parses to a value that is neither a
    list nor a string: [null], a boolean, a number, an object), [rank]
    returns the result of [simpleRecommendations], which is the
    local-scoring result: the whole catalog, not truncated, sorted
    descending by the count of case-insensitive matches between the
    opportunity's interests and the profile interests, ties in catalog
    order.  The status of the response plays no part. *)
Theorem rank_falls_back_on_failure {RT : JsRuntime}
  (catalog : list Opportunity) (opportunitiesList : string)
  (remote : Request -> FetchOutcome) (profileInterests : list string) :
  profileInterests <> [] ->
  remoteFailure (remote (App.rankingRequest opportunitiesList profileInterests)) ->
  rankResult catalog opportunitiesList remote profileInterests
  = App.simpleRecommendations catalog profileInterests
  /\ localScoring profileInterests catalog
       (rankResult catalog opportunitiesList remote profileInterests).
Proof.
  intros Hne Hfail. unfold rankResult.
  rewrite (recommend_fallback catalog opportunitiesList profileInterests remote Hne Hfail).
  split; [reflexivity|].
  rewrite simpleRecommendations_sort by exact Hne.
  repeat split.
  - apply sort_Permutation.
  - apply sort_descending with (key := matchCount profileInterests).
  - intros k. apply sort_descending_stable with (key := matchCount profileInterests).
Qed.

(** On the example catalog, with the network down, the two opportunities
    tagged with the interest come first and the rest keep their order. *)
Lemma rank_falls_back_on_failure_witness :
  ["environment"] <> []
  /\ remoteFailure (RT := Sample.runtime)
       (Example.always FetchRejected
          (App.rankingRequest Example.opportunitiesList ["environment"]))
  /\ rankResult (RT := Sample.runtime) Example.catalog Example.opportunitiesList
       (Example.always FetchRejected) ["environment"]
     = [Example.cleanup; Example.gardening; Example.tutoring; Example.kitchen;
        Example.coding].
Proof.
  assert (Hne : ["environment"] <> []) by discriminate.
  assert (Hfail : remoteFailure (RT := Sample.runtime)
                    (Example.always FetchRejected
                       (App.rankingRequest Example.opportunitiesList ["environment"])))
    by apply network_error.
  split; [exact Hne|]. split; [exact Hfail|].
  rewrite (proj1 (rank_falls_back_on_failure (RT := Sample.runtime)
                    Example.catalog Example.opportunitiesList
                    (Example.always FetchRejected) ["environment"] Hne Hfail)).
  vm_compute. reflexivity.
Defined.

(** C1, as stated, fails: a response with status 500 whose body carries a
    ranking is taken as a ranking, not as a failure. *)
Lemma rank_non2xx_not_fallback :
  non2xx (FetchResponse 500 (Some (completion "[2, 1]")))
  /\ rankResult (RT := Sample.runtime) Example.catalog Example.opportunitiesList
       (Example.always (FetchResponse 500 (Some (completion "[2, 1]"))))
       ["environment"]
     = [withRank Example.tutoring 0; withRank Example.cleanup 1]
  /\ App.simpleRecommendations (RT := Sample.runtime) Example.catalog ["environment"]
     = [Example.cleanup; Example.gardening; Example.tutoring; Example.kitchen;
        Example.coding]
  /\ ~ localScoring (RT := Sample.runtime) ["environment"] Example.catalog
         (rankResult (RT := Sample.runtime) Example.catalog Example.opportunitiesList
            (Example.always (FetchResponse 500 (Some (completion "[2, 1]"))))
            ["environment"]).
Proof.
  split; [right; reflexivity|].
  split; [vm_compute; reflexivity|].
  split; [vm_compute; reflexivity|].
  intros (Hperm & _).
  apply Permutation_length in Hperm. vm_compute in Hperm. discriminate.
Qed.

Section RemoteSuccess.

Context {RT : JsRuntime}.
Variable allOpportunities : list Opportunity.
Variable opportunitiesList : string.

Lemma tryRanking_wellFormed (outcome : FetchOutcome) (ranking : json) :
  wellFormed outcome ranking ->
  App.tryRanking allOpportunities outcome
  = (let! items := App.rankAll allOpportunities ranking in
     Normal (Some (App.topRanked items))).
Proof.
  intros (status & data & content & -> & Hd & Hp).
  destruct Hd as (fields & first & rest & mf & -> & Hc & Hm & Hk).
  simpl. rewrite Hc. simpl. rewrite Hm. simpl. rewrite Hk. simpl.
  destruct (trim content) as [|c raw] eqn:Et.
  - rewrite JSON_parse_empty in Hp. discriminate.
  - rewrite Hp. reflexivity.
Qed.

Lemma rankAll_from_array (items : list json) (i : Z) (l : list Opportunity) :
  App.rankAll_from (JArr items) i l
  = Normal (mapi_from (fun o j => withRank o (Array_indexOf items (j + 1))) i l).
Proof.
  revert i. induction l as [|o l IH]; intros i; simpl.
  - reflexivity.
  - rewrite IH. reflexivity.
Qed.

Lemma rankAll_from_string (text : string) (i : Z) (l : list Opportunity) :
  App.rankAll_from (JStr text) i l
  = Normal
      (mapi_from (fun o j => withRank o (String_indexOf text (Number_toString (j + 1))))
         i l).
Proof.
  revert i. induction l as [|o l IH]; intros i; simpl.
  - reflexivity.
  - rewrite IH. reflexivity.
Qed.

(** A content that parses to a string is no failure: [indexOf] searches the
    string for the digits of each position, and the positions found are
    the ranking. *)
Lemma string_content_is_a_ranking (profileInterests : list string)
  (remote : Request -> FetchOutcome) (text : string) :
  wellFormed (remote (App.rankingRequest opportunitiesList profileInterests)) (JStr text) ->
  fst (App.getAIRecommendations allOpportunities opportunitiesList profileInterests remote)
  = App.topRanked
      (mapi (fun o j => withRank o (String_indexOf text (Number_toString (j + 1))))
         allOpportunities).
Proof.
  intros Hwf.
  rewrite getAIRecommendations_result, (tryRanking_wellFormed _ _ Hwf).
  unfold App.rankAll. rewrite rankAll_from_string. reflexivity.
Qed.

Lemma Array_indexOf_from_none (items : list json) (k i : Z) :
  (forall v, In v items -> v <> JNum k) ->
  Array_indexOf_from items k i = -1.
Proof.
  revert i. induction items as [|v items IH]; intros i Hno; simpl.
  - reflexivity.
  - destruct (strictEqualsNumber v k) eqn:E.
    + exfalso. destruct v; try discriminate. simpl in E. apply Z.eqb_eq in E.
      subst. apply (Hno (JNum k)); [left|]; reflexivity.
    + apply IH. intros w Hw. apply Hno. right. exact Hw.
Qed.

Lemma nothing_usable (items : list json) (i : Z) (l : list Opportunity) :
  0 <= i ->
  (forall v k, In v items -> i + 1 <= k <= i + Z.of_nat (List.length l) -> v <> JNum k) ->
  filter (fun item => isNonNegative (rank item))
    (mapi_from (fun o j => withRank o (Array_indexOf items (j + 1))) i l) = [].
Proof.
  revert i. induction l as [|o l IH]; intros i Hi Hno; simpl.
  - reflexivity.
  - unfold Array_indexOf at 1.
    rewrite Array_indexOf_from_none.
    + simpl. apply IH; [lia|]. intros v k Hv Hk. apply Hno; [exact Hv|].
      simpl List.length in *. lia.
    + intros v Hv. apply Hno; [exact Hv|]. simpl List.length. lia.
Qed.

Lemma recommend_nothing_usable (profileInterests : list string)
  (remote : Request -> FetchOutcome) (items : list json) :
  profileInterests <> [] ->
  wellFormed (remote (App.rankingRequest opportunitiesList profileInterests)) (JArr items) ->
  (forall v k, In v items -> 1 <= k <= Z.of_nat (List.length allOpportunities) ->
               v <> JNum k) ->
  fst (App.recommendOpportunities allOpportunities opportunitiesList profileInterests remote)
  = allOpportunities.
Proof.
  intros Hne Hwf Hno.
  rewrite recommendOpportunities_result by exact Hne.
  rewrite getAIRecommendations_result.
  rewrite (tryRanking_wellFormed _ _ Hwf).
  unfold App.rankAll. rewrite rankAll_from_array. simpl.
  unfold App.topRanked. rewrite nothing_usable; [reflexivity | lia |].
  intros v k Hv Hk. apply Hno; [exact Hv | lia].
Qed.

End RemoteSuccess.

(** On the example catalog a content that is the JSON text of the string
    [312] ranks the third opportunity first, then the first and the second;
    the local scoring would have returned all five. *)
Lemma string_content_example :
  rankResult (RT := Example.stringRuntime) Example.catalog Example.opportunitiesList
    (Example.always (FetchResponse 200 (Some (completion Example.quotedRanking))))
    ["environment"]
  = [withRank Example.gardening 0; withRank Example.cleanup 1;
     withRank Example.tutoring 2].
Proof.
  vm_compute. reflexivity.
Qed.

(** C5.  For every non-empty interests list and every catalog, when the
    remote call succeeds with a well-formed response whose index list has no
    usable entry (the list is empty, or none of its entries is a catalog
    position), [rank] returns the full catalog in its original order. *)
Theorem rank_empty_success_full_catalog {RT : JsRuntime}
  (catalog : list Opportunity) (opportunitiesList : string)
  (remote : Request -> FetchOutcome) (profileInterests : list string)
  (items : list json) :
  profileInterests <> [] ->
  wellFormed (remote (App.rankingRequest opportunitiesList profileInterests)) (JArr items) ->
  (forall v k, In v items -> 1 <= k <= Z.of_nat (List.length catalog) -> v <> JNum k) ->
  rankResult catalog opportunitiesList remote profileInterests = catalog.
Proof.
  intros Hne Hwf Hno. unfold rankResult.
  apply recommend_nothing_usable with (items := items); assumption.
Qed.

(** ** The response's order *)

Lemma In_mapi_from {A B : Type} (f : A -> Z -> B) (i : Z) (l : list A) (y : B) :
  In y (mapi_from f i l)
  <-> exists j a, nth_error l j = Some a /\ y = f a (i + Z.of_nat j).
Proof.
  revert i. induction l as [|x l IH]; intros i; simpl.
  - split; [contradiction|]. intros (j & a & Hj & _). destruct j; discriminate.
  - rewrite IH. split.
    + intros [<- | (j & a & Hj & ->)].
      * exists O, x. split; [reflexivity|]. f_equal. simpl. lia.
      * exists (S j), a. split; [exact Hj|]. f_equal. lia.
    + intros (j & a & Hj & ->). destruct j as [|j]; simpl in Hj.
      * left. injection Hj as ->. f_equal. simpl. lia.
      * right. exists j, a. split; [exact Hj|]. f_equal. lia.
Qed.

Lemma mapi_from_length {A B : Type} (f : A -> Z -> B) (i : Z) (l : list A) :
  List.length (mapi_from f i l) = List.length l.
Proof.
  revert i. induction l as [|x l IH]; intros i; simpl; [reflexivity|].
  rewrite IH. reflexivity.
Qed.

Lemma Array_indexOf_from_firstPlace (indices : list Z) (k i : Z) :
  Array_indexOf_from (map JNum indices) k i
  = match firstPlace k indices with
    | Some n => i + Z.of_nat n
    | None => -1
    end.
Proof.
  revert i. induction indices as [|a indices IH]; intros i; simpl.
  - reflexivity.
  - destruct (a =? k).
    + simpl. lia.
    + rewrite IH. destruct (firstPlace k indices); simpl; lia.
Qed.

Lemma Array_indexOf_firstPlace (indices : list Z) (k : Z) :
  Array_indexOf (map JNum indices) k
  = match firstPlace k indices with
    | Some n => Z.of_nat n
    | None => -1
    end.
Proof.
  unfold Array_indexOf. rewrite Array_indexOf_from_firstPlace.
  destruct (firstPlace k indices); reflexivity.
Qed.

Lemma firstPlace_nth (k : Z) (indices : list Z) (n : nat) :
  firstPlace k indices = Some n -> nth_error indices n = Some k.
Proof.
  revert n. induction indices as [|a indices IH]; intros n; simpl.
  - discriminate.
  - destruct (a =? k) eqn:E.
    + intros [= <-]. apply Z.eqb_eq in E. subst. reflexivity.
    + destruct (firstPlace k indices) as [m|]; [|discriminate].
      intros [= <-]. simpl. apply IH. reflexivity.
Qed.

Lemma firstPlace_In (k : Z) (indices : list Z) :
  In k indices -> exists n, firstPlace k indices = Some n.
Proof.
  induction indices as [|a indices IH]; simpl; [contradiction|].
  intros Hin. destruct (a =? k) eqn:E.
  - exists O. reflexivity.
  - destruct Hin as [-> | Hin]; [rewrite Z.eqb_refl in E; discriminate|].
    destruct (IH Hin) as (n & ->). exists (S n). reflexivity.
Qed.

(** the items that the response places: the opportunity at position [i],
    ranked by the first place of [i] in the response *)
Lemma In_ranked (catalog : list Opportunity) (indices : list Z) (x : Opportunity) :
  In x (filter (fun item => isNonNegative (rank item))
          (mapi_from (fun o j => withRank o (Array_indexOf (map JNum indices) (j + 1)))
             0 catalog))
  <-> exists n i o,
        firstPlace i indices = Some n /\ atPosition catalog i = Some o
        /\ x = withRank o (Z.of_nat n).
Proof.
  rewrite filter_In, In_mapi_from. split.
  - intros [(j & o & Hj & ->) Hnn].
    remember (0 + Z.of_nat j + 1) as k eqn:Ek.
    cbn [rank withRank] in Hnn. rewrite Array_indexOf_firstPlace in *.
    destruct (firstPlace k indices) as [n|] eqn:E; [|discriminate].
    exists n, k, o. repeat split; [exact E|].
    unfold atPosition. replace (1 <=? k) with true
      by (symmetry; apply Z.leb_le; lia).
    replace (Z.to_nat (k - 1)) with j by lia. exact Hj.
  - intros (n & i & o & Hn & Hat & ->). unfold atPosition in Hat.
    destruct (1 <=? i) eqn:Hi; [|discriminate]. apply Z.leb_le in Hi.
    assert (Ei : 0 + Z.of_nat (Z.to_nat (i - 1)) + 1 = i) by lia.
    split.
    + exists (Z.to_nat (i - 1)), o. split; [exact Hat|].
      rewrite Ei, Array_indexOf_firstPlace, Hn. reflexivity.
    + cbn [rank withRank isNonNegative]. apply Z.leb_le. lia.
Qed.

Lemma firstPlace_cons_other (a i : Z) (indices : list Z) (n : nat) :
  (a =? i) = false ->
  firstPlace i (a :: indices) = Some n
  <-> exists m, n = S m /\ firstPlace i indices = Some m.
Proof.
  intros Hai. simpl. rewrite Hai. destruct (firstPlace i indices) as [m|]; simpl.
  - split.
    + intros [= <-]. exists m. split; reflexivity.
    + intros (m' & -> & [= ->]). reflexivity.
  - split; [discriminate|]. intros (m' & _ & Hm). discriminate.
Qed.

Lemma seen_other (a i : Z) (seen : list Z) :
  existsb (Z.eqb a) seen = true -> existsb (Z.eqb i) seen = false -> (a =? i) = false.
Proof.
  intros Ha Hi. destruct (a =? i) eqn:E; [|reflexivity].
  apply Z.eqb_eq in E. subst. congruence.
Qed.

Lemma In_reorder_from (catalog : list Opportunity) (indices : list Z) :
  forall (seen : list Z) (pos : Z) (x : Opportunity),
    In x (reorder_from catalog seen pos indices)
    <-> exists n i o,
          firstPlace i indices = Some n /\ existsb (Z.eqb i) seen = false
          /\ atPosition catalog i = Some o /\ x = withRank o (pos + Z.of_nat n).
Proof.
  induction indices as [|a indices IH]; intros seen pos x.
  - simpl. split; [contradiction|]. intros (n & i & o & Hn & _). discriminate.
  - cbn [reorder_from].
    destruct (existsb (Z.eqb a) seen) eqn:Ea.
    + rewrite IH. split.
      * intros (n & i & o & Hn & Hs & Hat & ->).
        exists (S n), i, o. repeat split; try assumption.
        -- apply firstPlace_cons_other; [eapply seen_other; eassumption|].
           exists n. split; [reflexivity | exact Hn].
        -- f_equal. lia.
      * intros (n & i & o & Hn & Hs & Hat & ->).
        apply firstPlace_cons_other in Hn; [|eapply seen_other; eassumption].
        destruct Hn as (m & -> & Hm).
        exists m, i, o. repeat split; try assumption. f_equal. lia.
    + assert (Hright :
               In x (reorder_from catalog (a :: seen) (pos + 1) indices)
               <-> exists n i o,
                     firstPlace i (a :: indices) = Some n
                     /\ existsb (Z.eqb i) seen = false /\ (a =? i) = false
                     /\ atPosition catalog i = Some o
                     /\ x = withRank o (pos + Z.of_nat n)).
      { rewrite IH. split.
        - intros (n & i & o & Hn & Hs & Hat & ->).
          simpl in Hs. apply orb_false_iff in Hs. destruct Hs as [Hia Hs].
          rewrite Z.eqb_sym in Hia.
          exists (S n), i, o. repeat split; try assumption.
          + apply firstPlace_cons_other; [exact Hia|].
            exists n. split; [reflexivity | exact Hn].
          + f_equal. lia.
        - intros (n & i & o & Hn & Hs & Hai & Hat & ->).
          apply firstPlace_cons_other in Hn; [|exact Hai].
          destruct Hn as (m & -> & Hm).
          exists m, i, o. repeat split; try assumption.
          + simpl. rewrite Z.eqb_sym, Hai, Hs. reflexivity.
          + f_equal. lia. }
      destruct (atPosition catalog a) as [oa|] eqn:Eat.
      * cbn [In]. rewrite Hright. split.
        -- intros [<- | (n & i & o & Hn & Hs & Hai & Hat & Hx)].
           ++ exists O, a, oa. repeat split; try assumption.
              ** simpl. rewrite Z.eqb_refl. reflexivity.
              ** f_equal. simpl. lia.
           ++ exists n, i, o. tauto.
        -- intros (n & i & o & Hn & Hs & Hat & Hx).
           destruct (a =? i) eqn:E.
           ++ left. apply Z.eqb_eq in E. subst i.
              simpl in Hn. rewrite Z.eqb_refl in Hn. injection Hn as <-.
              rewrite Eat in Hat. injection Hat as ->. subst x. f_equal. simpl. lia.
           ++ right. exists n, i, o. tauto.
      * rewrite Hright. split.
        -- intros (n & i & o & Hn & Hs & Hai & Hat & Hx). exists n, i, o. tauto.
        -- intros (n & i & o & Hn & Hs & Hat & Hx).
           destruct (a =? i) eqn:E.
           ++ apply Z.eqb_eq in E. subst i. congruence.
           ++ exists n, i, o. tauto.
Qed.

Lemma insertBy_ext_In {A : Type} (cmp cmp' : A -> A -> Z) (x : A) (l : list A) :
  (forall b, In b l -> cmp x b = cmp' x b) ->
  insertBy cmp x l = insertBy cmp' x l.
Proof.
  induction l as [|y l IH]; intros Heq; simpl.
  - reflexivity.
  - rewrite (Heq y (or_introl eq_refl)). rewrite IH; [reflexivity|].
    intros b Hb. apply Heq. right. exact Hb.
Qed.

(** Sorting depends on the comparator only through the elements sorted. *)
Lemma sort_ext_In {A : Type} (cmp cmp' : A -> A -> Z) (l : list A) :
  (forall a b, In a l -> In b l -> cmp a b = cmp' a b) ->
  sort cmp l = sort cmp' l.
Proof.
  induction l as [|x l IH]; intros Heq; simpl.
  - reflexivity.
  - rewrite IH by (intros a b Ha Hb; apply Heq; right; assumption).
    apply insertBy_ext_In. intros b Hb. apply sort_In in Hb.
    apply Heq; [left; reflexivity | right; exact Hb].
Qed.

(** Sorting by a key, smallest first *)
Lemma sort_ascending {A : Type} (key : A -> Z) (l : list A) :
  StronglySorted (fun a b => key a <= key b) (sort (fun a b => key a - key b) l).
Proof.
  apply StronglySorted_weaken with (R := fun a b => key a - key b <= 0).
  - intros a b Hab. lia.
  - apply sort_sorted with (P := fun _ => True); intros; try lia.
    apply Forall_forall. intros; exact I.
Qed.

Lemma sorted_distinct_increasing {A : Type} (key : A -> Z) (l : list A) :
  StronglySorted (fun a b => key a <= key b) l ->
  NoDup (map key l) ->
  StronglySorted (fun a b => key a < key b) l.
Proof.
  intros Hs. induction Hs as [|x l Hs IH Hall]; intros Hnd; constructor.
  - apply IH. inversion Hnd; assumption.
  - inversion Hnd as [|? ? Hnotin Hnd']; subst.
    rewrite Forall_forall in *. intros b Hb.
    specialize (Hall b Hb).
    assert (key x <> key b).
    { intros E. apply Hnotin. rewrite E. apply in_map, Hb. }
    lia.
Qed.

Lemma rankOf_withRank (o : Opportunity) (r : Z) : rankOf (withRank o r) = r.
Proof. reflexivity. Qed.

Lemma reorder_from_increasing (catalog : list Opportunity) (indices : list Z) :
  forall (seen : list Z) (pos : Z),
    StronglySorted (fun a b => rankOf a < rankOf b)
      (reorder_from catalog seen pos indices).
Proof.
  induction indices as [|a indices IH]; intros seen pos; cbn [reorder_from].
  - constructor.
  - destruct (existsb (Z.eqb a) seen); [apply IH|].
    destruct (atPosition catalog a) as [oa|]; [|apply IH].
    constructor; [apply IH|].
    apply Forall_forall. intros x Hx.
    apply In_reorder_from in Hx. destruct Hx as (n & i & o & _ & _ & _ & ->).
    rewrite !rankOf_withRank. lia.
Qed.

Lemma ranks_distinct (indices : list Z) (l : list Opportunity) :
  forall i : Z,
    NoDup (map rankOf
             (filter (fun item => isNonNegative (rank item))
                (mapi_from
                   (fun o j => withRank o (Array_indexOf (map JNum indices) (j + 1)))
                   i l))).
Proof.
  induction l as [|o l IH]; intros i; cbn [mapi_from filter].
  - constructor.
  - destruct (isNonNegative (rank (withRank o (Array_indexOf (map JNum indices) (i + 1)))))
      eqn:Hnn; [|apply IH].
    cbn [map]. constructor; [|apply IH].
    rewrite rankOf_withRank. intros Hin.
    apply in_map_iff in Hin. destruct Hin as (x & Hrank & Hx).
    apply filter_In in Hx. destruct Hx as [Hx Hxnn].
    apply In_mapi_from in Hx. destruct Hx as (j & o' & _ & ->).
    rewrite rankOf_withRank in Hrank.
    cbn [rank withRank isNonNegative] in Hnn, Hxnn.
    rewrite !Array_indexOf_firstPlace in *.
    destruct (firstPlace (i + 1) indices) as [n|] eqn:En; [|discriminate].
    destruct (firstPlace (i + 1 + Z.of_nat j + 1) indices) as [m|] eqn:Em; [|discriminate].
    apply firstPlace_nth in En, Em.
    assert (m = n) by lia. subst m. rewrite En in Em. injection Em as Em. lia.
Qed.

Lemma ranked_matches_reorder (catalog : list Opportunity) (indices : list Z) :
  sort (fun a b => comparatorDifference (rank a) (rank b))
    (filter (fun item => isNonNegative (rank item))
       (mapi_from (fun o j => withRank o (Array_indexOf (map JNum indices) (j + 1)))
          0 catalog))
  = reorder catalog indices.
Proof.
  set (ranked := filter _ _).
  assert (Hcmp : sort (fun a b => comparatorDifference (rank a) (rank b)) ranked
                 = sort (fun a b => rankOf a - rankOf b) ranked).
  { apply sort_ext_In. intros a b Ha Hb.
    apply In_ranked in Ha, Hb.
    destruct Ha as (? & ? & ? & _ & _ & ->). destruct Hb as (? & ? & ? & _ & _ & ->).
    reflexivity. }
  rewrite Hcmp.
  apply increasing_unique with (key := rankOf).
  - apply sorted_distinct_increasing; [apply sort_ascending|].
    apply (Permutation_NoDup (l := map rankOf ranked)).
    + apply Permutation_map, Permutation_sym, sort_Permutation.
    + apply ranks_distinct.
  - apply reorder_from_increasing.
  - intros x. rewrite sort_In. unfold ranked. rewrite In_ranked.
    unfold reorder. rewrite In_reorder_from. split.
    + intros (n & i & o & Hn & Hat & ->). exists n, i, o. repeat split; assumption.
    + intros (n & i & o & Hn & _ & Hat & ->). exists n, i, o. repeat split; assumption.
Qed.

Lemma covered_all_ranked (catalog : list Opportunity) (indices : list Z) :
  (forall k, 1 <= k <= Z.of_nat (List.length catalog) -> In k indices) ->
  filter (fun item => isNonNegative (rank item))
    (mapi_from (fun o j => withRank o (Array_indexOf (map JNum indices) (j + 1)))
       0 catalog)
  = mapi_from (fun o j => withRank o (Array_indexOf (map JNum indices) (j + 1)))
      0 catalog.
Proof.
  intros Hcover. apply forallb_filter_id. apply forallb_forall. intros x Hx.
  apply In_mapi_from in Hx. destruct Hx as (j & o & Hj & ->).
  cbn [rank withRank isNonNegative]. rewrite Array_indexOf_firstPlace.
  assert (Hlt : (j < List.length catalog)%nat).
  { apply nth_error_Some. congruence. }
  destruct (firstPlace_In (0 + Z.of_nat j + 1) indices) as (n & ->).
  - apply Hcover. lia.
  - apply Z.leb_le. lia.
Qed.

Lemma recommend_ranked {RT : JsRuntime} (catalog : list Opportunity)
  (opportunitiesList : string) (remote : Request -> FetchOutcome)
  (profileInterests : list string) (indices : list Z) :
  profileInterests <> [] ->
  wellFormed (remote (App.rankingRequest opportunitiesList profileInterests))
    (JArr (map JNum indices)) ->
  fst (App.getAIRecommendations catalog opportunitiesList profileInterests remote)
  = firstn 3 (reorder catalog indices).
Proof.
  intros Hne Hwf.
  rewrite getAIRecommendations_result, (tryRanking_wellFormed _ _ _ Hwf).
  unfold App.rankAll. rewrite rankAll_from_array. cbn [cbind].
  unfold App.topRanked. rewrite ranked_matches_reorder. reflexivity.
Qed.

(** C2.  For every catalog of N opportunities and every well-formed remote
    response whose content parses to a list of 1-based indices that covers
    all N catalog positions, [rank] returns exactly [min 3 N] opportunities:
    the first three of the catalog re-ordered by the response, where an
    index outside [1, N] is dropped and a catalog entry is placed by the
    first mention of its index.  (A response exists only when the interests
    list is not empty; each returned item is the copy of the catalog record
    that carries its rank.) *)
Theorem rank_remote_success_top3 {RT : JsRuntime}
  (catalog : list Opportunity) (opportunitiesList : string)
  (remote : Request -> FetchOutcome) (profileInterests : list string)
  (indices : list Z) :
  profileInterests <> [] ->
  wellFormed (remote (App.rankingRequest opportunitiesList profileInterests))
    (JArr (map JNum indices)) ->
  (forall k, 1 <= k <= Z.of_nat (List.length catalog) -> In k indices) ->
  rankResult catalog opportunitiesList remote profileInterests
  = firstn 3 (reorder catalog indices)
  /\ List.length (rankResult catalog opportunitiesList remote profileInterests)
     = Nat.min 3 (List.length catalog).
Proof.
  intros Hne Hwf Hcover.
  assert (Hlen : List.length (reorder catalog indices) = List.length catalog).
  { rewrite <- ranked_matches_reorder, sort_length, covered_all_ranked by exact Hcover.
    apply mapi_from_length. }
  assert (Hres : rankResult catalog opportunitiesList remote profileInterests
                 = firstn 3 (reorder catalog indices)).
  { unfold rankResult. rewrite recommendOpportunities_result by exact Hne.
    rewrite (recommend_ranked _ _ _ _ indices Hne Hwf).
    destruct (firstn 3 (reorder catalog indices)) eqn:E; [|reflexivity].
    apply (f_equal (@List.length Opportunity)) in E.
    rewrite length_firstn, Hlen in E. simpl in E.
    destruct catalog; [reflexivity|]. simpl in E. discriminate. }
  split; [exact Hres|].
  rewrite Hres, length_firstn, Hlen. reflexivity.
Qed.

(** On the example catalog: the response names position 4 first, then a
    position that does not exist, then 2, then 4 again, then 5, 1 and 3. *)
Lemma rank_remote_success_top3_witness :
  rankResult (RT := Sample.runtime) Example.catalog Example.opportunitiesList
    (Example.always (FetchResponse 200 (Some (completion "[4, 9, 2, 4, 5, 1, 3]"))))
    ["environment"]
  = [withRank Example.kitchen 0; withRank Example.tutoring 2; withRank Example.coding 4]
  /\ List.length
       (rankResult (RT := Sample.runtime) Example.catalog Example.opportunitiesList
          (Example.always (FetchResponse 200 (Some (completion "[4, 9, 2, 4, 5, 1, 3]"))))
          ["environment"])
     = 3%nat.
Proof.
  apply (rank_remote_success_top3 (RT := Sample.runtime) Example.catalog
           Example.opportunitiesList
           (Example.always (FetchResponse 200 (Some (completion "[4, 9, 2, 4, 5, 1, 3]"))))
           ["environment"] [4; 9; 2; 4; 5; 1; 3]).
  - discriminate.
  - exists 200, (completion "[4, 9, 2, 4, 5, 1, 3]"), "[4, 9, 2, 4, 5, 1, 3]".
    split; [reflexivity|]. split; [|vm_compute; reflexivity].
    eexists _, _, _, _. repeat split; reflexivity.
  - intros k Hk. simpl in Hk.
    assert (Hcases : k = 1 \/ k = 2 \/ k = 3 \/ k = 4 \/ k = 5) by lia.
    simpl. intuition.
Defined.

(** On the example catalog: a response that names no catalog position. *)
Lemma rank_empty_success_full_catalog_witness :
  rankResult (RT := Sample.runtime) Example.catalog Example.opportunitiesList
    (Example.always (FetchResponse 200 (Some (completion "[9, 0]"))))
    ["environment"]
  = Example.catalog.
Proof.
  apply (rank_empty_success_full_catalog (RT := Sample.runtime) Example.catalog
           Example.opportunitiesList
           (Example.always (FetchResponse 200 (Some (completion "[9, 0]"))))
           ["environment"] [JNum 9; JNum 0]).
  - discriminate.
  - exists 200, (completion "[9, 0]"), "[9, 0]".
    split; [reflexivity|]. split; [|vm_compute; reflexivity].
    eexists _, _, _, _. repeat split; reflexivity.
  - intros v k Hv Hk. simpl in Hk.
    destruct Hv as [<- | [<- | []]]; intros [= E]; lia.
Defined.

(** * The filter engine *)

Section FilterFacts.

Context {RT : JsRuntime}.
Variable allOpportunities : list Opportunity.

Lemma nonEmpty_false (s : string) : nonEmpty s = false <-> s = "".
Proof.
  unfold nonEmpty. rewrite negb_false_iff. apply String.eqb_eq.
Qed.

Lemma existsb_eqb (p : string -> string) (target : string) (l : list string) :
  existsb (fun x => (p x =? target)%string) l = true
  <-> exists x, In x l /\ p x = target.
Proof.
  rewrite existsb_exists. split; intros (x & Hx & E); exists x; split; try assumption;
    apply String.eqb_eq; exact E.
Qed.

Lemma matchesDate_facet (c : Opportunities.Criteria) (o : Opportunity) :
  Opportunities.matchesDate c o = true <-> dateFacet c o.
Proof.
  assert (Hday : forall text,
             calendarDay text
             = if nonEmpty text then Opportunities.dayOf text else None).
  { intros text. unfold calendarDay, nonEmpty, Opportunities.dayOf.
    destruct (text =? "")%string; [reflexivity|].
    destruct (Date_getTime text); reflexivity. }
  assert (Hstated : statedDate o = Opportunities.orElse (date o) (startDate o)).
  { unfold statedDate, Opportunities.orElse, nonEmpty.
    destruct (date o) as [text|]; [|reflexivity].
    destruct (text =? "")%string; reflexivity. }
  unfold Opportunities.matchesDate, dateFacet, opportunityDay, boundDay.
  rewrite Hstated, !Hday.
  destruct (Opportunities.orElse (date o) (startDate o)) as [s|]; [|tauto].
  rewrite Hday.
  destruct (nonEmpty s); [|tauto].
  destruct (Opportunities.dayOf s) as [day|]; [|tauto].
  destruct (nonEmpty (Opportunities.dateRange_start c));
    destruct (nonEmpty (Opportunities.dateRange_end c));
    destruct (Opportunities.dayOf (Opportunities.dateRange_start c)) as [first|];
    destruct (Opportunities.dayOf (Opportunities.dateRange_end c)) as [last|];
    unfold Opportunities.before, Opportunities.after;
    cbn [negb andb];
    repeat match goal with
           | |- context [?a <? ?b] => destruct (Z.ltb_spec a b)
           end;
    cbn [negb andb]; split; intros; try discriminate; try reflexivity;
    try tauto; try lia.
Qed.

Lemma keeps_facets (c : Opportunities.Criteria) (o : Opportunity) :
  Opportunities.keeps c o = true
  <-> searchFacet c o /\ locationFacet c o /\ skillFacet c o /\ interestFacet c o
      /\ dateFacet c o.
Proof.
  unfold Opportunities.keeps, searchFacet, locationFacet, skillFacet, interestFacet.
  rewrite <- matchesDate_facet.
  set (q := toLowerCase (trim (Opportunities.searchTerm c))).
  rewrite <- (nonEmpty_false q).
  rewrite <- (existsb_eqb toLowerCase (Opportunities.skillFilter c)).
  rewrite <- (existsb_eqb toLowerCase (toLowerCase (Opportunities.interestFilter c))).
  rewrite <- !String.eqb_eq.
  assert (Hskill : (exists skill, In skill (skills o)
                                  /\ includes (toLowerCase skill) q = true)
                   <-> existsb (fun skill => includes (toLowerCase skill) q) (skills o)
                       = true).
  { rewrite existsb_exists. reflexivity. }
  rewrite Hskill.
  destruct (nonEmpty q);
    destruct (includes (toLowerCase (title o)) q);
    destruct (includes (toLowerCase (description o)) q);
    destruct (existsb (fun skill => includes (toLowerCase skill) q) (skills o));
    cbn [negb orb];
    try (split; [discriminate | intros ([H0 | [H0 | [H0 | H0]]] & _); discriminate]);
    rewrite !andb_true_iff, !orb_true_iff; tauto.
Qed.

Lemma In_filtered_pairs (c : Opportunities.Criteria) (o : Opportunity) (i : Z) :
  In (o, i)
    (filter (fun '(o, _) => Opportunities.keeps c o)
       (mapi (fun o i => (o, i)) allOpportunities))
  <-> 0 <= i /\ nth_error allOpportunities (Z.to_nat i) = Some o
      /\ Opportunities.keeps c o = true.
Proof.
  rewrite filter_In. unfold mapi. rewrite In_mapi_from. split.
  - intros [(j & a & Hj & [= -> ->]) Hk].
    split; [lia|]. split; [|exact Hk].
    replace (Z.to_nat _) with j by lia. exact Hj.
  - intros (Hi & Hn & Hk). split; [|exact Hk].
    exists (Z.to_nat i), o. split; [exact Hn|]. f_equal. lia.
Qed.

Lemma In_scored (c : Opportunities.Criteria) (profile : UserProfile)
  (s : Opportunities.Scored) :
  In s (Opportunities.scoredOpportunities allOpportunities c profile)
  -> describes allOpportunities profile s
     /\ Opportunities.keeps c (Opportunities.opportunity s) = true.
Proof.
  unfold Opportunities.scoredOpportunities. rewrite sort_In, in_map_iff.
  intros ([o i] & <- & Hin). apply In_filtered_pairs in Hin.
  destruct Hin as (Hi & Hn & Hk). cbn [Opportunities.opportunity].
  split; [|exact Hk].
  unfold describes, Opportunities.overlap, overlapCount.
  cbn [Opportunities.opportunity Opportunities.index Opportunities.interestOverlap
       Opportunities.skillOverlap].
  repeat split; try assumption.
  - rewrite filter_map_swap, length_map. do 2 f_equal.
    apply filter_ext. intros label. apply existsb_map.
  - rewrite filter_map_swap, length_map. do 2 f_equal.
    apply filter_ext. intros label. apply existsb_map.
Qed.

Lemma map_fst_filtered (c : Opportunities.Criteria) (l : list Opportunity) (i : Z) :
  map fst (filter (fun '(o, _) => Opportunities.keeps c o)
             (mapi_from (fun o i => (o, i)) i l))
  = filter (Opportunities.keeps c) l.
Proof.
  revert i. induction l as [|o l IH]; intros i; simpl; [reflexivity|].
  destruct (Opportunities.keeps c o); simpl; rewrite IH; reflexivity.
Qed.

Lemma filtered_Permutation (c : Opportunities.Criteria) (profile : UserProfile) :
  Permutation (Opportunities.filteredOpportunities allOpportunities c profile)
    (filter (Opportunities.keeps c) allOpportunities).
Proof.
  unfold Opportunities.filteredOpportunities, Opportunities.scoredOpportunities.
  eapply Permutation_trans.
  - apply Permutation_map, sort_Permutation.
  - rewrite map_map. unfold mapi.
    rewrite <- (map_fst_filtered c allOpportunities 0).
    apply Permutation_refl'. apply map_ext. intros [o i]. reflexivity.
Qed.

Lemma In_filtered (c : Opportunities.Criteria) (profile : UserProfile) (o : Opportunity) :
  In o (Opportunities.filteredOpportunities allOpportunities c profile)
  <-> In o allOpportunities /\ Opportunities.keeps c o = true.
Proof.
  rewrite <- filter_In. split; apply Permutation_in.
  - apply filtered_Permutation.
  - apply Permutation_sym, filtered_Permutation.
Qed.

Lemma compareScored_le (a b : Opportunities.Scored) :
  Opportunities.compareScored a b <= 0 <-> rankedBefore a b.
Proof.
  unfold Opportunities.compareScored, rankedBefore.
  destruct (Z.eqb_spec (Opportunities.interestOverlap b) (Opportunities.interestOverlap a));
    destruct (Z.eqb_spec (Opportunities.skillOverlap b) (Opportunities.skillOverlap a));
    cbn [negb]; lia.
Qed.

Lemma scored_sorted (c : Opportunities.Criteria) (profile : UserProfile) :
  StronglySorted rankedBefore
    (Opportunities.scoredOpportunities allOpportunities c profile).
Proof.
  unfold Opportunities.scoredOpportunities.
  apply StronglySorted_weaken
    with (R := fun a b => Opportunities.compareScored a b <= 0).
  - intros a b. apply compareScored_le.
  - apply sort_sorted with (P := fun _ => True).
    + intros x y _ _ Hxy. apply compareScored_le.
      assert (Hn : ~ rankedBefore x y) by (rewrite <- compareScored_le; lia).
      unfold rankedBefore in *. lia.
    + intros x y z _ _ _ Hxy Hyz. apply compareScored_le.
      apply compareScored_le in Hxy, Hyz. unfold rankedBefore in *. lia.
    + apply Forall_forall. intros; exact I.
Qed.

Lemma unconstrained_keeps (f : Facet) (c : Opportunities.Criteria) (o : Opportunity) :
  Opportunities.keeps c o = true -> Opportunities.keeps (unconstrained f c) o = true.
Proof.
  rewrite !keeps_facets. intros (Hs & Hl & Hk & Hi & Hd).
  destruct c as [search loc skill interest first last].
  destruct f; cbn [unconstrained]; repeat split; try assumption.
  - left. cbn [Opportunities.searchTerm]. rewrite trim_empty. apply toLowerCase_empty.
  - left. reflexivity.
  - left. reflexivity.
  - left. reflexivity.
  - unfold dateFacet in *. destruct (opportunityDay o); [|exact I].
    cbn [Opportunities.dateRange_start Opportunities.dateRange_end] in *.
    split; [exact I | apply Hd].
  - unfold dateFacet in *. destruct (opportunityDay o); [|exact I].
    cbn [Opportunities.dateRange_start Opportunities.dateRange_end] in *.
    split; [apply Hd | exact I].
Qed.

End FilterFacts.

(** The filter as the code compares: for every criteria record, also one
    that the page cannot hold, an opportunity is in the result iff it is in
    the catalog and passes every facet, where the requested skill is
    compared as given with the lower-cased skills.  Setting any single facet
    to "no constraint" keeps every opportunity of the result in the
    result. *)
Lemma filter_facets_as_compared {RT : JsRuntime}
  (catalog : list Opportunity) (c : Opportunities.Criteria) (profile : UserProfile) :
  (forall o,
      In o (Opportunities.filteredOpportunities catalog c profile)
      <-> In o catalog /\ searchFacet c o /\ locationFacet c o /\ skillFacet c o
          /\ interestFacet c o /\ dateFacet c o)
  /\ (forall f o,
         In o (Opportunities.filteredOpportunities catalog c profile) ->
         In o (Opportunities.filteredOpportunities catalog (unconstrained f c) profile)).
Proof.
  split.
  - intros o. rewrite In_filtered, keeps_facets. reflexivity.
  - intros f o. rewrite !In_filtered. intros [Hin Hk].
    split; [exact Hin | apply unconstrained_keeps, Hk].
Qed.

(** C6.  For every catalog, criteria and profile, the filtered result lists
    the opportunities that survive the filter, each once per catalog entry,
    sorted descending by the count of case-insensitive matches between the
    opportunity's interests and the profile's interests, then descending by
    the same count for skills, then by catalog index. *)
Theorem filtered_order {RT : JsRuntime}
  (catalog : list Opportunity) (c : Opportunities.Criteria) (profile : UserProfile) :
  Opportunities.filteredOpportunities catalog c profile
  = map Opportunities.opportunity (Opportunities.scoredOpportunities catalog c profile)
  /\ Permutation (Opportunities.filteredOpportunities catalog c profile)
       (filter (Opportunities.keeps c) catalog)
  /\ Forall (describes catalog profile)
       (Opportunities.scoredOpportunities catalog c profile)
  /\ StronglySorted rankedBefore (Opportunities.scoredOpportunities catalog c profile).
Proof.
  split; [reflexivity|]. split; [apply filtered_Permutation|]. split.
  - apply Forall_forall. intros s Hs. apply (In_scored catalog c profile s Hs).
  - apply scored_sorted.
Qed.

(** * Favourites *)

Section SetFacts.

Variable A : Type.
Variable eqb : A -> A -> bool.
Hypothesis eqb_eq : forall a b, eqb a b = true <-> a = b.

Lemma existsb_eqb_In (x : A) (l : list A) : existsb (eqb x) l = true <-> In x l.
Proof.
  rewrite existsb_exists. split.
  - intros (y & Hy & E). apply eqb_eq in E. subst. exact Hy.
  - intros Hx. exists x. split; [exact Hx | apply eqb_eq; reflexivity].
Qed.

Lemma Set_add_all_In (l : list A) :
  forall (seen : list A) (x : A),
    In x (Set_add_all eqb seen l) <-> In x l /\ ~ In x seen.
Proof.
  induction l as [|y l IH]; intros seen x; simpl.
  - tauto.
  - destruct (existsb (eqb y) seen) eqn:E.
    + apply existsb_eqb_In in E. rewrite IH. split.
      * tauto.
      * intros [[-> | Hx] Hs]; [contradiction | tauto].
    + assert (Hy : ~ In y seen).
      { intros Hy. apply existsb_eqb_In in Hy. congruence. }
      simpl. rewrite IH. simpl. split.
      * intros [-> | [Hx Hs]]; [tauto|]. split; [tauto|]. intros Hx'. apply Hs. tauto.
      * intros [[-> | Hx] Hs]; [tauto|].
        destruct (eqb y x) eqn:Eyx.
        -- apply eqb_eq in Eyx. tauto.
        -- right. split; [exact Hx|]. intros [-> | Hx']; [|contradiction].
           assert (eqb x x = true) by (apply eqb_eq; reflexivity). congruence.
Qed.

Lemma Set_add_all_NoDup (l : list A) :
  forall seen : list A, NoDup (Set_add_all eqb seen l).
Proof.
  induction l as [|y l IH]; intros seen; simpl.
  - constructor.
  - destruct (existsb (eqb y) seen); [apply IH|].
    constructor; [|apply IH].
    rewrite Set_add_all_In. simpl. tauto.
Qed.

Lemma dedup_In (l : list A) (x : A) : In x (dedup eqb l) <-> In x l.
Proof.
  unfold dedup. rewrite Set_add_all_In. simpl. tauto.
Qed.

Lemma dedup_NoDup (l : list A) : NoDup (dedup eqb l).
Proof. apply Set_add_all_NoDup. Qed.

End SetFacts.

Section FavoriteFacts.

Context {RT : JsRuntime}.

Lemma sameValue_eq (a b : Opportunities.FavoriteId) :
  Opportunities.sameValue a b = true <-> a = b.
Proof.
  destruct a as [n|s], b as [m|t]; simpl.
  - rewrite Z.eqb_eq. split; [intros ->; reflexivity | intros [= ->]; reflexivity].
  - split; discriminate.
  - split; discriminate.
  - rewrite String.eqb_eq. split; [intros ->; reflexivity | intros [= ->]; reflexivity].
Qed.

Lemma normalize_idempotent (v : Opportunities.FavoriteId) :
  Opportunities.normalizeFavoriteId (Opportunities.normalizeFavoriteId v)
  = Opportunities.normalizeFavoriteId v.
Proof.
  destruct v as [n|s]; simpl; [reflexivity|].
  destruct (Number_string s) eqn:E; simpl; [reflexivity|].
  rewrite E. reflexivity.
Qed.

Lemma normalized_map (l : list Opportunities.FavoriteId) :
  normalized (map Opportunities.normalizeFavoriteId l).
Proof.
  apply Forall_forall. intros v Hv. apply in_map_iff in Hv.
  destruct Hv as (w & <- & _). apply normalize_idempotent.
Qed.

Lemma normalized_fixed (l : list Opportunities.FavoriteId) :
  normalized l -> map Opportunities.normalizeFavoriteId l = l.
Proof.
  intros Hn. induction Hn as [|v l Hv Hn IH]; simpl; [reflexivity|].
  rewrite Hv, IH. reflexivity.
Qed.

Lemma normalized_dedup (l : list Opportunities.FavoriteId) :
  normalized l -> normalized (dedup Opportunities.sameValue l).
Proof.
  unfold normalized. rewrite !Forall_forall. intros Hn v Hv.
  apply Hn. apply (proj1 (dedup_In _ _ sameValue_eq l v)). exact Hv.
Qed.

Lemma toggleFavorite_dedup (id : Opportunities.FavoriteId)
  (current : list Opportunities.FavoriteId) :
  toggleFavorite id current = dedup Opportunities.sameValue (nextFavorites id current).
Proof. reflexivity. Qed.

Lemma nextFavorites_normalized (id : Opportunities.FavoriteId)
  (current : list Opportunities.FavoriteId) :
  normalized (nextFavorites id current).
Proof.
  unfold nextFavorites, normalized.
  destruct (existsb _ _).
  - apply Forall_forall. intros v Hv. apply filter_In in Hv. destruct Hv as [Hv _].
    pose proof (normalized_map current) as Hn. unfold normalized in Hn.
    rewrite Forall_forall in Hn. apply Hn, Hv.
  - apply Forall_app. split; [apply normalized_map|].
    constructor; [apply normalize_idempotent | constructor].
Qed.

Lemma toggleFavorite_noDuplicateIds (id : Opportunities.FavoriteId)
  (current : list Opportunities.FavoriteId) :
  noDuplicateIds (toggleFavorite id current).
Proof.
  unfold noDuplicateIds. rewrite toggleFavorite_dedup.
  rewrite normalized_fixed by apply normalized_dedup, nextFavorites_normalized.
  apply dedup_NoDup, sameValue_eq.
Qed.

Lemma favorited_toggle (id : Opportunities.FavoriteId)
  (current : list Opportunities.FavoriteId) :
  favorited id (toggleFavorite id current) <-> ~ favorited id current.
Proof.
  unfold favorited. rewrite toggleFavorite_dedup.
  rewrite normalized_fixed by apply normalized_dedup, nextFavorites_normalized.
  rewrite (dedup_In _ _ sameValue_eq). unfold nextFavorites.
  destruct (existsb _ _) eqn:E.
  - apply (existsb_eqb_In _ _ sameValue_eq) in E. rewrite filter_In. split.
    + intros [_ Hneq]. apply negb_true_iff in Hneq.
      assert (Hrefl : Opportunities.sameValue (Opportunities.normalizeFavoriteId id)
                        (Opportunities.normalizeFavoriteId id) = true)
        by (apply sameValue_eq; reflexivity).
      congruence.
    + intros Hnot. contradiction.
  - assert (Hnot : ~ In (Opportunities.normalizeFavoriteId id)
                     (map Opportunities.normalizeFavoriteId current)).
    { intros Hin. apply (existsb_eqb_In _ _ sameValue_eq) in Hin. congruence. }
    split; [intros _; exact Hnot|]. intros _. apply in_or_app. right. left. reflexivity.
Qed.

Lemma favorited_dec (id : Opportunities.FavoriteId)
  (current : list Opportunities.FavoriteId) :
  favorited id current \/ ~ favorited id current.
Proof.
  unfold favorited.
  destruct (existsb (Opportunities.sameValue (Opportunities.normalizeFavoriteId id))
              (map Opportunities.normalizeFavoriteId current)) eqn:E.
  - left. apply (existsb_eqb_In _ _ sameValue_eq). exact E.
  - right. intros Hin. apply (existsb_eqb_In _ _ sameValue_eq) in Hin. congruence.
Qed.

End FavoriteFacts.

(** C7.  For every favourites state and every id, toggling the id twice in
    succession returns the favourites to their original membership for that
    id; and an id in string form that [Number] reads as [n] is the same
    favourite as the number [n]: the toggle and the membership are the
    same for both forms. *)
Theorem toggle_twice_restores_membership {RT : JsRuntime}
  (id : Opportunities.FavoriteId) (favorites : list Opportunities.FavoriteId) :
  (favorited id (toggleFavorite id (toggleFavorite id favorites))
   <-> favorited id favorites)
  /\ (forall s n,
         Number_string s = Some n ->
         toggleFavorite (Opportunities.IdString s) favorites
         = toggleFavorite (Opportunities.IdNumber n) favorites
         /\ (favorited (Opportunities.IdString s) favorites
             <-> favorited (Opportunities.IdNumber n) favorites)).
Proof.
  split.
  - rewrite !favorited_toggle.
    destruct (favorited_dec id favorites); tauto.
  - intros s n Hs.
    assert (Hnorm : Opportunities.normalizeFavoriteId (Opportunities.IdString s)
                    = Opportunities.normalizeFavoriteId (Opportunities.IdNumber n)).
    { simpl. rewrite Hs. reflexivity. }
    split.
    + unfold toggleFavorite, Opportunities.handleToggleFavorite,
        Opportunities.toggleFavorites. cbn [fst]. rewrite Hnorm. reflexivity.
    + unfold favorited. rewrite Hnorm. reflexivity.
Qed.

(** The stored favourite "3" is loaded as the number 3, the string and the
    number toggle alike, and toggling 3 then leaves no favourite. *)
Lemma toggle_twice_restores_membership_witness :
  Number_string (JsRuntime := Sample.runtime) "3" = Some 3
  /\ toggleFavorite (RT := Sample.runtime) (Opportunities.IdString "3")
       [Opportunities.IdNumber 3; Opportunities.IdNumber 7]
     = toggleFavorite (RT := Sample.runtime) (Opportunities.IdNumber 3)
         [Opportunities.IdNumber 3; Opportunities.IdNumber 7]
  /\ toggleFavorite (RT := Sample.runtime) (Opportunities.IdNumber 3)
       (Opportunities.initialFavorites (RT := Sample.runtime)
          (Opportunities.StoredArray [Opportunities.IdString "3"]))
     = [].
Proof.
  split; [reflexivity|]. split; [|reflexivity].
  exact (proj1 (proj2 (toggle_twice_restores_membership (RT := Sample.runtime)
                         (Opportunities.IdNumber 3)
                         [Opportunities.IdNumber 3; Opportunities.IdNumber 7])
                  "3" 3 eq_refl)).
Defined.

Lemma toggles_noDuplicateIds {RT : JsRuntime} (ids : list Opportunities.FavoriteId) :
  forall favorites,
    noDuplicateIds favorites ->
    noDuplicateIds (fold_left (fun favs id => toggleFavorite id favs) ids favorites).
Proof.
  induction ids as [|id ids IH]; intros favorites Hnd; simpl.
  - exact Hnd.
  - apply IH, toggleFavorite_noDuplicateIds.
Qed.

(** C10.  After loading the favourites from storage and after every toggle
    the favourites hold each normalized id at most once: for every stored
    value (nothing, an unreadable value, any array of ids in number or
    string form, with repetitions) and every sequence of toggles.  A toggle
    gives such a list from any list. *)
Theorem favorites_never_hold_duplicates {RT : JsRuntime}
  (stored : Opportunities.StoredFavorites) (ids : list Opportunities.FavoriteId) :
  noDuplicateIds (Opportunities.initialFavorites stored)
  /\ (forall id current, noDuplicateIds (toggleFavorite id current))
  /\ noDuplicateIds
       (fold_left (fun favs id => toggleFavorite id favs) ids
          (Opportunities.initialFavorites stored)).
Proof.
  assert (Hinit : noDuplicateIds (Opportunities.initialFavorites stored)).
  { unfold noDuplicateIds. destruct stored as [| |parsed]; simpl; try constructor.
    rewrite normalized_fixed by apply normalized_dedup, normalized_map.
    apply dedup_NoDup, sameValue_eq. }
  split; [exact Hinit|]. split.
  - intros id current. apply toggleFavorite_noDuplicateIds.
  - apply toggles_noDuplicateIds, Hinit.
Qed.

(** * The opportunities page: stale rankings *)

Section PageFacts.

Context {RT : JsRuntime}.
Variable allOpportunities : list Opportunity.
Variable opportunitiesList : string.

Lemma cleanupLast_length (l : list App.EffectRun) :
  List.length (App.cleanupLast l) = List.length l.
Proof.
  induction l as [|r l IH]; [reflexivity|].
  destruct l as [|r' l]; [reflexivity|].
  change (App.cleanupLast (r :: r' :: l)) with (r :: App.cleanupLast (r' :: l)).
  simpl List.length in *. rewrite IH. reflexivity.
Qed.

Lemma cleanupLast_snoc (l : list App.EffectRun) (r : App.EffectRun) :
  App.cleanupLast (l ++ [r])
  = (l ++ [{| App.ignore := true; App.requested := App.requested r |}])%list.
Proof.
  induction l as [|r0 l IH]; [reflexivity|].
  change ((r0 :: l) ++ [r])%list with (r0 :: (l ++ [r]))%list.
  destruct (l ++ [r])%list as [|r1 l1] eqn:E.
  - destruct l; discriminate.
  - change (App.cleanupLast (r0 :: r1 :: l1)) with (r0 :: App.cleanupLast (r1 :: l1)).
    rewrite IH. reflexivity.
Qed.

(** a run that is ignored stays ignored *)
Lemma cleanupLast_ignored (l : list App.EffectRun) (k : nat) (r : App.EffectRun) :
  nth_error l k = Some r -> App.ignore r = true ->
  exists r', nth_error (App.cleanupLast l) k = Some r' /\ App.ignore r' = true.
Proof.
  revert k. induction l as [|r0 l IH]; intros k Hk Hr.
  - destruct k; discriminate.
  - destruct l as [|r1 l].
    + destruct k as [|k]; [|destruct k; discriminate].
      eexists. split; [reflexivity|reflexivity].
    + change (App.cleanupLast (r0 :: r1 :: l)) with (r0 :: App.cleanupLast (r1 :: l)).
      destruct k as [|k].
      * exists r. split; [exact Hk | exact Hr].
      * simpl in Hk. simpl. apply IH; assumption.
Qed.

Lemma step_keeps_ignored (st : App.PageState) (e : App.PageEvent) (k : nat)
  (r : App.EffectRun) :
  nth_error (App.runs st) k = Some r -> App.ignore r = true ->
  exists r', nth_error (App.runs (App.step allOpportunities opportunitiesList st e)) k = Some r' /\ App.ignore r' = true.
Proof.
  intros Hk Hr. destruct e as [profile | j how]; simpl.
  - destruct (cleanupLast_ignored _ _ _ Hk Hr) as (r' & Hk' & Hr').
    exists r'. split; [|exact Hr'].
    rewrite nth_error_app1; [exact Hk'|].
    apply nth_error_Some. congruence.
  - exists r. split; [|exact Hr].
    destruct (nth_error (App.runs st) j) as [rj|]; [|exact Hk].
    destruct (App.ignore rj); [exact Hk|].
    destruct how; exact Hk.
Qed.

Lemma run_keeps_ignored (events : list App.PageEvent) :
  forall (st : App.PageState) (k : nat) (r : App.EffectRun),
    nth_error (App.runs st) k = Some r -> App.ignore r = true ->
    exists r', nth_error (App.runs (App.run allOpportunities opportunitiesList st events)) k = Some r' /\ App.ignore r' = true.
Proof.
  induction events as [|e events IH]; intros st k r Hk Hr.
  - exists r. split; assumption.
  - destruct (step_keeps_ignored st e k r Hk Hr) as (r' & Hk' & Hr').
    apply (IH (App.step allOpportunities opportunitiesList st e) k r' Hk' Hr').
Qed.

(** the continuation of an ignored run changes nothing *)
Lemma settle_ignored (st : App.PageState) (k : nat) (r : App.EffectRun)
  (how : App.Settlement) :
  nth_error (App.runs st) k = Some r -> App.ignore r = true ->
  App.step allOpportunities opportunitiesList st (App.Settled k how) = st.
Proof.
  intros Hk Hr. simpl. rewrite Hk, Hr. reflexivity.
Qed.

(** after two changes of the profile, the run of the first is ignored and
    the run of the second is the current one *)
Lemma superseded_runs (st0 : App.PageState) (p1 p2 : App.Profile) :
  App.runs (App.step allOpportunities opportunitiesList (App.step allOpportunities opportunitiesList st0 (App.ProfileChanged p1)) (App.ProfileChanged p2))
  = (App.cleanupLast (App.runs st0)
     ++ [{| App.ignore := true;
            App.requested := filter nonEmpty (App.profile_interests p1) |};
         {| App.ignore := false;
            App.requested := filter nonEmpty (App.profile_interests p2) |}])%list.
Proof.
  simpl. rewrite cleanupLast_snoc. rewrite <- app_assoc. reflexivity.
Qed.

Lemma superseded_first (st0 : App.PageState) (p1 p2 : App.Profile) :
  nth_error
    (App.runs (App.step allOpportunities opportunitiesList (App.step allOpportunities opportunitiesList st0 (App.ProfileChanged p1)) (App.ProfileChanged p2)))
    (List.length (App.runs st0))
  = Some {| App.ignore := true;
            App.requested := filter nonEmpty (App.profile_interests p1) |}.
Proof.
  rewrite superseded_runs, nth_error_app2; rewrite cleanupLast_length; [|lia].
  rewrite Nat.sub_diag. reflexivity.
Qed.

Lemma superseded_second (st0 : App.PageState) (p1 p2 : App.Profile) :
  nth_error
    (App.runs (App.step allOpportunities opportunitiesList (App.step allOpportunities opportunitiesList st0 (App.ProfileChanged p1)) (App.ProfileChanged p2)))
    (S (List.length (App.runs st0)))
  = Some {| App.ignore := false;
            App.requested := filter nonEmpty (App.profile_interests p2) |}.
Proof.
  rewrite superseded_runs, nth_error_app2; rewrite cleanupLast_length; [|lia].
  replace (S (List.length (App.runs st0)) - List.length (App.runs st0))%nat
    with 1%nat by lia.
  reflexivity.
Qed.

End PageFacts.

(** C8.  Ranking request R1 is issued, then the profile changes and request
    R2 is issued before R1 resolves.  From then on, whatever else happens on
    the page, the settlement of R1 leaves the page state as it is: R1's
    result never reaches the visible recommendations.  In both orders of
    arrival the recommendations shown at the end are those of R2. *)
Theorem stale_ranking_is_discarded {RT : JsRuntime}
  (catalog : list Opportunity) (opportunitiesList : string)
  (st0 : App.PageState) (p1 p2 : App.Profile) (events : list App.PageEvent)
  (how : App.Settlement) (remote2 : Request -> FetchOutcome) :
  App.step catalog opportunitiesList
    (App.run catalog opportunitiesList
       (App.step catalog opportunitiesList
          (App.step catalog opportunitiesList st0 (App.ProfileChanged p1))
          (App.ProfileChanged p2))
       events)
    (App.Settled (List.length (App.runs st0)) how)
  = App.run catalog opportunitiesList
      (App.step catalog opportunitiesList
         (App.step catalog opportunitiesList st0 (App.ProfileChanged p1))
         (App.ProfileChanged p2))
      events
  /\ App.recommended
       (App.run catalog opportunitiesList
          (App.step catalog opportunitiesList
             (App.step catalog opportunitiesList st0 (App.ProfileChanged p1))
             (App.ProfileChanged p2))
          [App.Settled (S (List.length (App.runs st0))) (App.Resolved remote2);
           App.Settled (List.length (App.runs st0)) how])
     = rankResult catalog opportunitiesList remote2
         (filter nonEmpty (App.profile_interests p2))
  /\ App.recommended
       (App.run catalog opportunitiesList
          (App.step catalog opportunitiesList
             (App.step catalog opportunitiesList st0 (App.ProfileChanged p1))
             (App.ProfileChanged p2))
          [App.Settled (List.length (App.runs st0)) how;
           App.Settled (S (List.length (App.runs st0))) (App.Resolved remote2)])
     = rankResult catalog opportunitiesList remote2
         (filter nonEmpty (App.profile_interests p2)).
Proof.
  set (st2 := App.step catalog opportunitiesList
                (App.step catalog opportunitiesList st0 (App.ProfileChanged p1))
                (App.ProfileChanged p2)).
  pose proof (superseded_first catalog opportunitiesList st0 p1 p2) as H1.
  pose proof (superseded_second catalog opportunitiesList st0 p1 p2) as H2.
  fold st2 in H1, H2.
  assert (Hstale : forall st k r h,
             nth_error (App.runs st) k = Some r -> App.ignore r = true ->
             App.step catalog opportunitiesList st (App.Settled k h) = st)
    by (intros; eapply settle_ignored; eassumption).
  split; [|split].
  - destruct (run_keeps_ignored catalog opportunitiesList events st2 _ _ H1 eq_refl)
      as (r' & Hk & Hr).
    apply (Hstale _ _ r' how Hk Hr).
  - unfold App.run. cbn [fold_left].
    assert (Hfresh : App.step catalog opportunitiesList st2
                       (App.Settled (S (List.length (App.runs st0)))
                          (App.Resolved remote2))
                     = {| App.recommended :=
                            rankResult catalog opportunitiesList remote2
                              (filter nonEmpty (App.profile_interests p2));
                          App.loading := false;
                          App.error := App.error st2;
                          App.runs := App.runs st2 |}).
    { cbn [App.step]. rewrite H2. reflexivity. }
    rewrite Hfresh.
    erewrite Hstale; [reflexivity | exact H1 | reflexivity].
  - unfold App.run. cbn [fold_left].
    rewrite (Hstale st2 (List.length (App.runs st0)) _ how H1 eq_refl).
    cbn [App.step]. rewrite H2. reflexivity.
Qed.

(** * Saving the profile *)

Lemma filter_filter {A : Type} (p q : A -> bool) (l : list A) :
  filter p (filter q l) = filter (fun x => q x && p x) l.
Proof.
  induction l as [|x l IH]; simpl; [reflexivity|].
  destruct (q x); simpl; [destruct (p x)|]; rewrite IH; reflexivity.
Qed.

(** Dropping entries cannot create a case-insensitive duplicate. *)
Lemma distinct_filter {RT : JsRuntime} (keep : string -> bool) (labels : list string) :
  caseInsensitiveDistinct labels -> caseInsensitiveDistinct (filter keep labels).
Proof.
  unfold caseInsensitiveDistinct.
  induction labels as [|label labels IH]; intros Hd; cbn [filter map] in *.
  - constructor.
  - apply NoDup_cons_iff in Hd. destruct Hd as [Hfresh Hd].
    destruct (keep label); cbn [map]; [|exact (IH Hd)].
    apply NoDup_cons; [|exact (IH Hd)].
    intros Hin. apply Hfresh.
    apply in_map_iff in Hin. destruct Hin as (other & Hlower & Hin).
    apply filter_In in Hin. destruct Hin as [Hin _].
    rewrite <- Hlower. apply in_map, Hin.
Qed.

Lemma afterRemovals_interests (removals : list string) :
  forall f : Profile.Form,
    Profile.interests (afterRemovals removals f)
    = remaining removals (Profile.interests f).
Proof.
  unfold afterRemovals, remaining.
  induction removals as [|tag removals IH]; intros f; simpl.
  - symmetry. apply forallb_filter_id. apply forallb_forall. reflexivity.
  - rewrite IH. cbn [Profile.handleRemoveInterest Profile.interests].
    rewrite filter_filter. apply filter_ext. intros label.
    rewrite negb_orb. reflexivity.
Qed.

Lemma split_not_empty (text : string) : split "," text <> [].
Proof.
  destruct text as [|c text]; cbn [split]; [discriminate|].
  destruct (Ascii.eqb c ","); [discriminate|].
  destruct (split "," text); discriminate.
Qed.

Lemma split_plain (label : string) :
  commaFree label ->
  forall rest, split "," (label ++ String "," rest) = label :: split "," rest.
Proof.
  induction label as [|c label IH]; intros Hplain rest.
  - simpl. reflexivity.
  - cbn [String.append split].
    assert (Hc : Ascii.eqb c "," = false).
    { apply Ascii.eqb_neq. apply Hplain. left. reflexivity. }
    rewrite Hc, IH; [reflexivity|].
    intros d Hd. apply Hplain. right. exact Hd.
Qed.

Lemma split_plain_last (label : string) :
  commaFree label ->
  split "," label = [label].
Proof.
  induction label as [|c label IH]; intros Hplain; [reflexivity|].
  cbn [split].
  assert (Hc : Ascii.eqb c "," = false).
  { apply Ascii.eqb_neq. apply Hplain. left. reflexivity. }
  rewrite Hc, IH; [reflexivity|].
  intros d Hd. apply Hplain. right. exact Hd.
Qed.

Lemma join_commas_cons (piece next : string) (rest : list string) :
  join "," (piece :: next :: rest) = piece ++ String "," (join "," (next :: rest)).
Proof.
  reflexivity.
Qed.

(** Splitting at the commas undoes joining by commas. *)
Lemma split_join_commas (pieces : list string) :
  forall piece,
    Forall commaFree (piece :: pieces) ->
    split "," (join "," (piece :: pieces)) = piece :: pieces.
Proof.
  induction pieces as [|next pieces IH]; intros piece Hfree.
  - apply split_plain_last, (Forall_inv Hfree).
  - rewrite join_commas_cons, split_plain by apply (Forall_inv Hfree).
    f_equal. apply IH, (Forall_inv_tail Hfree).
Qed.

(** Every text is its pieces joined by commas, and no piece holds a
    comma. *)
Lemma join_split_commas (text : string) :
  Forall commaFree (split "," text) /\ join "," (split "," text) = text.
Proof.
  induction text as [|c text [IHfree IHjoin]].
  - split; [|reflexivity]. constructor; [intros c []|constructor].
  - cbn [split]. destruct (Ascii.eqb_spec c ",") as [-> | Hc].
    + split.
      * constructor; [intros c []|exact IHfree].
      * pose proof (split_not_empty text) as Hne.
        destruct (split "," text) as [|piece rest]; [contradiction|].
        rewrite join_commas_cons, IHjoin. reflexivity.
    + pose proof (split_not_empty text) as Hne.
      destruct (split "," text) as [|piece rest]; [contradiction|].
      split.
      * constructor; [|exact (Forall_inv_tail IHfree)].
        intros d [<- | Hd]; [exact Hc | exact (Forall_inv IHfree d Hd)].
      * rewrite <- IHjoin. destruct rest; reflexivity.
Qed.

Lemma entriesOf_filter {RT : JsRuntime} (pieces : list string) :
  entriesOf pieces = filter nonEmpty (map trim pieces).
Proof.
  induction pieces as [|piece pieces IH]; cbn [entriesOf map filter]; [reflexivity|].
  unfold nonEmpty at 1. destruct (trim piece =? "")%string; cbn [negb]; now rewrite IH.
Qed.

(** C9, as amended.  A profile save stores the interests that the form
    holds, in order and with their casing, and removes no duplicate.  The
    form with the comma-separated field: whenever the text is pieces joined
    by commas, the stored sequence is those pieces, each trimmed, in the
    order of the text, the pieces that are empty after trimming left out and
    nothing else; every text is such a join.  The form with tags stores the
    interests of the profile without the tags that were removed, so its
    stored sequence has no two entries equal under case-insensitive
    comparison whenever the profile it started from had none. *)
Theorem profile_save_stores_entries {RT : JsRuntime} :
  (forall name pieces,
      Forall commaFree pieces ->
      App.profile_interests (App.handleSubmit name (join "," pieces))
      = entriesOf pieces)
  /\ (forall text, exists pieces, Forall commaFree pieces /\ join "," pieces = text)
  /\ (forall profile removals,
         user_interests
           (Profile.handleSubmit (afterRemovals removals (Profile.formOf profile)))
         = Some (remaining removals (orEmpty (user_interests profile))))
  /\ (forall profile removals,
         caseInsensitiveDistinct (orEmpty (user_interests profile)) ->
         caseInsensitiveDistinct
           (orEmpty
              (user_interests
                 (Profile.handleSubmit
                    (afterRemovals removals (Profile.formOf profile)))))).
Proof.
  assert (Hsaved : forall profile removals,
             user_interests
               (Profile.handleSubmit (afterRemovals removals (Profile.formOf profile)))
             = Some (remaining removals (orEmpty (user_interests profile)))).
  { intros profile removals. cbn [Profile.handleSubmit user_interests].
    rewrite afterRemovals_interests. reflexivity. }
  split; [|split; [|split]].
  - intros name pieces Hfree. cbn [App.handleSubmit App.profile_interests].
    unfold App.interestList. rewrite entriesOf_filter.
    destruct pieces as [|piece pieces].
    + cbn [join split map filter]. rewrite trim_empty. reflexivity.
    + rewrite split_join_commas by exact Hfree. reflexivity.
  - intros text. exists (split "," text). apply join_split_commas.
  - exact Hsaved.
  - intros profile removals Hd. rewrite Hsaved. cbn [orEmpty].
    apply distinct_filter, Hd.
Qed.

(** The text [tutoring, Music ,,art] is stored as three entries, in that
    order; and a profile with two distinct interests, one of them removed
    before the save, keeps the other. *)
Lemma profile_save_stores_entries_witness :
  Forall commaFree ["tutoring"; " Music "; ""; "art"]
  /\ App.profile_interests
       (App.handleSubmit (RT := Sample.runtime) "Ann"
          (join "," ["tutoring"; " Music "; ""; "art"]))
     = ["tutoring"; "Music"; "art"]
  /\ caseInsensitiveDistinct (RT := Sample.runtime)
       (orEmpty (user_interests Example.volunteer))
  /\ user_interests
       (Profile.handleSubmit (RT := Sample.runtime)
          (afterRemovals ["community"] (Profile.formOf Example.volunteer)))
     = Some ["Education"]
  /\ caseInsensitiveDistinct (RT := Sample.runtime)
       (orEmpty
          (user_interests
             (Profile.handleSubmit (RT := Sample.runtime)
                (afterRemovals ["community"] (Profile.formOf Example.volunteer))))).
Proof.
  assert (Hfree : Forall commaFree ["tutoring"; " Music "; ""; "art"]).
  { repeat constructor; intros c Hc; simpl in Hc;
      repeat (destruct Hc as [<- | Hc]; [discriminate|]); destruct Hc. }
  assert (Hd : caseInsensitiveDistinct (RT := Sample.runtime)
                 (orEmpty (user_interests Example.volunteer))).
  { unfold caseInsensitiveDistinct. simpl.
    constructor; [simpl; intros [E | []]; discriminate|].
    constructor; [simpl; tauto | constructor]. }
  split; [exact Hfree|].
  split.
  { rewrite (proj1 (profile_save_stores_entries (RT := Sample.runtime))
               "Ann" ["tutoring"; " Music "; ""; "art"] Hfree).
    vm_compute. reflexivity. }
  split; [exact Hd|]. split; [reflexivity|].
  exact (proj2 (proj2 (proj2 (profile_save_stores_entries (RT := Sample.runtime))))
           Example.volunteer ["community"] Hd).
Defined.

(** C9, as stated, fails: neither form removes duplicates.  The text
    "Art, music, art" is stored as three interests, two of which are equal
    under case-insensitive comparison; so are the tags of a profile that
    already holds both. *)
Lemma profile_save_keeps_duplicates :
  App.profile_interests
    (App.handleSubmit (RT := Sample.runtime) "Ann" "Art, music, art")
  = ["Art"; "music"; "art"]
  /\ ~ caseInsensitiveDistinct (RT := Sample.runtime)
         (App.profile_interests
            (App.handleSubmit (RT := Sample.runtime) "Ann" "Art, music, art"))
  /\ user_interests
       (Profile.handleSubmit (RT := Sample.runtime) (Profile.formOf Example.artist))
     = Some ["Art"; "music"; "art"]
  /\ ~ caseInsensitiveDistinct (RT := Sample.runtime)
         (orEmpty
            (user_interests
               (Profile.handleSubmit (RT := Sample.runtime)
                  (Profile.formOf Example.artist)))).
Proof.
  assert (Hdup : ~ caseInsensitiveDistinct (RT := Sample.runtime) ["Art"; "music"; "art"]).
  { unfold caseInsensitiveDistinct. simpl. intros Hnd.
    inversion Hnd as [|? ? Hnotin _]; subst. apply Hnotin. right. left. reflexivity. }
  split; [reflexivity|]. split; [exact Hdup|]. split; [reflexivity | exact Hdup].
Qed.

(** * Further properties of the favourites *)

Section KeptFavorites.

Context {RT : JsRuntime}.

Lemma Set_add_all_fresh {A : Type} (eqb : A -> A -> bool)
  (eqb_eq : forall a b, eqb a b = true <-> a = b) (l : list A) :
  forall seen : list A,
    NoDup l -> (forall x, In x l -> ~ In x seen) -> Set_add_all eqb seen l = l.
Proof.
  induction l as [|y l IH]; intros seen Hnd Hfresh; simpl; [reflexivity|].
  apply NoDup_cons_iff in Hnd. destruct Hnd as [Hy Hnd].
  destruct (existsb (eqb y) seen) eqn:E.
  - exfalso. apply (existsb_eqb_In _ _ eqb_eq) in E.
    apply (Hfresh y); [left; reflexivity | exact E].
  - f_equal. apply IH; [exact Hnd|].
    intros x Hx [-> | Hs]; [contradiction|].
    apply (Hfresh x); [right; exact Hx | exact Hs].
Qed.

Lemma dedup_fresh (l : list Opportunities.FavoriteId) :
  NoDup l -> dedup Opportunities.sameValue l = l.
Proof.
  intros Hnd. apply (Set_add_all_fresh _ sameValue_eq); [exact Hnd|].
  intros x _ [].
Qed.

Lemma wellKept_dedup (l : list Opportunities.FavoriteId) :
  normalized l -> wellKept (dedup Opportunities.sameValue l).
Proof.
  intros Hn. split; [apply normalized_dedup, Hn | apply dedup_NoDup, sameValue_eq].
Qed.

Lemma wellKept_initial (stored : Opportunities.StoredFavorites) :
  wellKept (Opportunities.initialFavorites stored).
Proof.
  destruct stored as [| |parsed]; simpl.
  - split; constructor.
  - split; constructor.
  - apply wellKept_dedup, normalized_map.
Qed.

Lemma wellKept_toggle (id : Opportunities.FavoriteId)
  (current : list Opportunities.FavoriteId) :
  wellKept (toggleFavorite id current).
Proof.
  rewrite toggleFavorite_dedup. apply wellKept_dedup, nextFavorites_normalized.
Qed.

Lemma wellKept_afterToggles (ids : list Opportunities.FavoriteId) :
  forall favorites, wellKept favorites -> wellKept (afterToggles ids favorites).
Proof.
  unfold afterToggles.
  induction ids as [|id ids IH]; intros favorites Hk; simpl; [exact Hk|].
  apply IH, wellKept_toggle.
Qed.

Lemma wellKept_reload (favorites : list Opportunities.FavoriteId) :
  wellKept favorites ->
  Opportunities.initialFavorites (Opportunities.StoredArray favorites) = favorites.
Proof.
  intros [Hn Hnd]. simpl. rewrite (normalized_fixed _ Hn). apply dedup_fresh, Hnd.
Qed.

Lemma toggle_of_kept (id : Opportunities.FavoriteId)
  (favorites : list Opportunities.FavoriteId) :
  wellKept favorites ->
  toggleFavorite id favorites
  = if Opportunities.isFavorite favorites (Opportunities.normalizeFavoriteId id)
    then filter
           (fun fav =>
              negb (Opportunities.sameValue fav (Opportunities.normalizeFavoriteId id)))
           favorites
    else (favorites ++ [Opportunities.normalizeFavoriteId id])%list.
Proof.
  intros [Hn Hnd]. rewrite toggleFavorite_dedup. unfold nextFavorites.
  rewrite (normalized_fixed _ Hn). unfold Opportunities.isFavorite.
  destruct (existsb _ favorites) eqn:E.
  - apply dedup_fresh, NoDup_filter, Hnd.
  - apply dedup_fresh. apply NoDup_app; [exact Hnd | repeat constructor; intros [] |].
    intros x Hx [<- | []].
    apply (existsb_eqb_In _ _ sameValue_eq) in Hx. congruence.
Qed.

End KeptFavorites.

(** X1.  On favourites as the page keeps them (every id in normal form, none
    twice), toggling an id that is not a favourite and toggling it again
    gives back the very same list; toggling a favourite twice moves it to
    the end of the list and changes nothing else. *)
Theorem toggle_twice_on_kept_favorites {RT : JsRuntime}
  (id : Opportunities.FavoriteId) (favorites : list Opportunities.FavoriteId) :
  wellKept favorites ->
  toggleFavorite id (toggleFavorite id favorites)
  = if Opportunities.isFavorite favorites (Opportunities.normalizeFavoriteId id)
    then (filter
            (fun fav =>
               negb (Opportunities.sameValue fav (Opportunities.normalizeFavoriteId id)))
            favorites
          ++ [Opportunities.normalizeFavoriteId id])%list
    else favorites.
Proof.
  intros Hk.
  set (nid := Opportunities.normalizeFavoriteId id).
  assert (Hrefl : Opportunities.sameValue nid nid = true)
    by (apply sameValue_eq; reflexivity).
  rewrite (toggle_of_kept id (toggleFavorite id favorites) (wellKept_toggle id favorites)).
  rewrite (toggle_of_kept id favorites Hk). fold nid.
  unfold Opportunities.isFavorite.
  destruct (existsb (Opportunities.sameValue nid) favorites) eqn:E.
  - assert (Hgone : existsb (Opportunities.sameValue nid)
                      (filter (fun fav => negb (Opportunities.sameValue fav nid)) favorites)
                    = false).
    { destruct (existsb _ (filter _ _)) eqn:E'; [|reflexivity].
      apply (existsb_eqb_In _ _ sameValue_eq) in E'. apply filter_In in E'.
      destruct E' as [_ E']. rewrite Hrefl in E'. discriminate. }
    rewrite Hgone. reflexivity.
  - rewrite existsb_app. simpl. rewrite Hrefl, orb_true_r.
    rewrite filter_app. simpl. rewrite Hrefl. simpl. rewrite app_nil_r.
    apply forallb_filter_id. apply forallb_forall. intros x Hx.
    apply negb_true_iff. destruct (Opportunities.sameValue x nid) eqn:Ex; [|reflexivity].
    apply sameValue_eq in Ex. subst x.
    apply (existsb_eqb_In _ _ sameValue_eq) in Hx. congruence.
Qed.

(** The favourites 3, 7: toggling 5 twice changes nothing, toggling 3 twice
    moves it behind 7. *)
Lemma toggle_twice_on_kept_favorites_witness :
  toggleFavorite (RT := Sample.runtime) (Opportunities.IdNumber 5)
    (toggleFavorite (RT := Sample.runtime) (Opportunities.IdNumber 5)
       [Opportunities.IdNumber 3; Opportunities.IdNumber 7])
  = [Opportunities.IdNumber 3; Opportunities.IdNumber 7]
  /\ toggleFavorite (RT := Sample.runtime) (Opportunities.IdString "3")
       (toggleFavorite (RT := Sample.runtime) (Opportunities.IdString "3")
          [Opportunities.IdNumber 3; Opportunities.IdNumber 7])
     = [Opportunities.IdNumber 7; Opportunities.IdNumber 3].
Proof.
  assert (Hk : wellKept (RT := Sample.runtime)
                 [Opportunities.IdNumber 3; Opportunities.IdNumber 7]).
  { split.
    - repeat constructor.
    - constructor; [simpl; intros [E | []]; discriminate|].
      constructor; [simpl; tauto | constructor]. }
  split.
  - exact (toggle_twice_on_kept_favorites (RT := Sample.runtime)
             (Opportunities.IdNumber 5) _ Hk).
  - exact (toggle_twice_on_kept_favorites (RT := Sample.runtime)
             (Opportunities.IdString "3") _ Hk).
Defined.

Lemma numbers_normalized {RT : JsRuntime} (favorites : list Opportunities.FavoriteId)
  (v : Opportunities.FavoriteId) :
  Forall (fun id => exists n, id = Opportunities.IdNumber n) favorites ->
  In v (map Opportunities.normalizeFavoriteId favorites) ->
  exists n, v = Opportunities.IdNumber n.
Proof.
  intros Hnumbers Hin. apply in_map_iff in Hin. destruct Hin as (id & <- & Hid).
  rewrite Forall_forall in Hnumbers. destruct (Hnumbers id Hid) as [n ->].
  exists n. reflexivity.
Qed.

Lemma numbers_after_toggle {RT : JsRuntime} (n : Z)
  (favorites : list Opportunities.FavoriteId) :
  Forall (fun id => exists m, id = Opportunities.IdNumber m) favorites ->
  Forall (fun id => exists m, id = Opportunities.IdNumber m)
    (toggleFavorite (Opportunities.IdNumber n) favorites).
Proof.
  intros Hnumbers. apply Forall_forall. intros v Hv.
  rewrite toggleFavorite_dedup in Hv.
  apply (proj1 (dedup_In _ _ sameValue_eq _ _)) in Hv.
  unfold nextFavorites in Hv. destruct (existsb _ _).
  - apply filter_In in Hv. apply (numbers_normalized favorites v Hnumbers), Hv.
  - apply in_app_or in Hv. destruct Hv as [Hv | [<- | []]].
    + apply (numbers_normalized favorites v Hnumbers Hv).
    + exists n. reflexivity.
Qed.

Lemma numbers_after_toggles {RT : JsRuntime} (ids : list Z) :
  forall favorites,
    Forall (fun id => exists m, id = Opportunities.IdNumber m) favorites ->
    Forall (fun id => exists m, id = Opportunities.IdNumber m)
      (afterToggles (map Opportunities.IdNumber ids) favorites).
Proof.
  unfold afterToggles.
  induction ids as [|n ids IH]; intros favorites Hnumbers; simpl; [exact Hnumbers|].
  apply IH, numbers_after_toggle, Hnumbers.
Qed.

(** X2.  With numeric ids, as the catalog has them, what the page writes to
    storage it reads back unchanged: after a stored array of integers and
    any sequence of toggles of integers the favourites are integers, which
    JSON writes and reads back as they are, and loading the favourites from
    the array that was written gives the same list, in the same order. *)
Theorem favorites_survive_reload {RT : JsRuntime} (stored ids : list Z) :
  Forall (fun id => exists n, id = Opportunities.IdNumber n)
    (afterToggles (map Opportunities.IdNumber ids)
       (Opportunities.initialFavorites
          (Opportunities.StoredArray (map Opportunities.IdNumber stored))))
  /\ Opportunities.initialFavorites
       (Opportunities.StoredArray
          (afterToggles (map Opportunities.IdNumber ids)
             (Opportunities.initialFavorites
                (Opportunities.StoredArray (map Opportunities.IdNumber stored)))))
     = afterToggles (map Opportunities.IdNumber ids)
         (Opportunities.initialFavorites
            (Opportunities.StoredArray (map Opportunities.IdNumber stored))).
Proof.
  split.
  - apply numbers_after_toggles. apply Forall_forall. intros v Hv.
    cbn [Opportunities.initialFavorites] in Hv.
    apply (proj1 (dedup_In _ _ sameValue_eq _ _)) in Hv.
    apply (numbers_normalized (map Opportunities.IdNumber stored) v); [|exact Hv].
    apply Forall_forall. intros id Hid. apply in_map_iff in Hid.
    destruct Hid as (n & <- & _). exists n. reflexivity.
  - apply wellKept_reload, wellKept_afterToggles, wellKept_initial.
Qed.

(** X3.  A toggle changes the membership of no other id: an id whose normal
    form differs from that of the toggled id is a favourite afterwards iff
    it was one before. *)
Theorem toggle_keeps_other_favorites {RT : JsRuntime}
  (id other : Opportunities.FavoriteId) (favorites : list Opportunities.FavoriteId) :
  Opportunities.normalizeFavoriteId other <> Opportunities.normalizeFavoriteId id ->
  (favorited other (toggleFavorite id favorites) <-> favorited other favorites).
Proof.
  intros Hother. unfold favorited. rewrite toggleFavorite_dedup.
  rewrite normalized_fixed by apply normalized_dedup, nextFavorites_normalized.
  rewrite (dedup_In _ _ sameValue_eq). unfold nextFavorites.
  destruct (existsb _ _).
  - rewrite filter_In. split; [tauto|]. intros Hin. split; [exact Hin|].
    apply negb_true_iff.
    destruct (Opportunities.sameValue _ _) eqn:E; [|reflexivity].
    apply sameValue_eq in E. contradiction.
  - rewrite in_app_iff. simpl. split; [|tauto].
    intros [Hin | [E | []]]; [exact Hin|]. symmetry in E. contradiction.
Qed.

Lemma toggle_keeps_other_favorites_witness :
  favorited (RT := Sample.runtime) (Opportunities.IdNumber 7)
    (toggleFavorite (RT := Sample.runtime) (Opportunities.IdString "3")
       [Opportunities.IdNumber 3; Opportunities.IdString "7"]).
Proof.
  apply (toggle_keeps_other_favorites (RT := Sample.runtime)
           (Opportunities.IdString "3") (Opportunities.IdNumber 7)
           [Opportunities.IdNumber 3; Opportunities.IdString "7"]).
  - vm_compute. discriminate.
  - vm_compute. tauto.
Defined.

(** X4.  The notification tells what the toggle did: the page shows "Added
    to favourites" exactly when the id is a favourite after the toggle, and
    "Removed from favourites" exactly when it was one before; either way
    the notification is visible. *)
Theorem toggle_notification_is_truthful {RT : JsRuntime}
  (id : Opportunities.FavoriteId) (favorites : list Opportunities.FavoriteId) :
  (Opportunities.snackbarMessage (snd (Opportunities.handleToggleFavorite id favorites))
   = "Added to favourites"
   <-> favorited id (toggleFavorite id favorites))
  /\ (Opportunities.snackbarMessage
        (snd (Opportunities.handleToggleFavorite id favorites))
      = "Removed from favourites"
      <-> favorited id favorites)
  /\ Opportunities.snackbarVisible (snd (Opportunities.handleToggleFavorite id favorites))
     = true.
Proof.
  rewrite favorited_toggle. unfold favorited.
  cbn [Opportunities.handleToggleFavorite snd Opportunities.snackbarMessage
       Opportunities.snackbarVisible].
  destruct (existsb _ _) eqn:E.
  - apply (existsb_eqb_In _ _ sameValue_eq) in E.
    split; [split; [discriminate | intros Hnot; contradiction]|].
    split; [split; [intros _; exact E | reflexivity] | reflexivity].
  - assert (Hnot : ~ In (Opportunities.normalizeFavoriteId id)
                     (map Opportunities.normalizeFavoriteId favorites)).
    { intros Hin. apply (existsb_eqb_In _ _ sameValue_eq) in Hin. congruence. }
    split; [split; [intros _; exact Hnot | reflexivity]|].
    split; [split; [discriminate | intros Hin; contradiction] | reflexivity].
Qed.

(** X5.  The heart of a card reads the favourites with [includes] on the id
    as it is.  For a numeric id it shows the outcome of the toggle: after
    toggling [n] the heart of [n] is active iff [n] was no favourite
    before.  For an id in numeric string form it is never active after a
    toggle, whichever id was toggled, because the list holds only normal
    forms. *)
Theorem heart_after_toggle {RT : JsRuntime}
  (favorites : list Opportunities.FavoriteId) :
  (forall n,
      Opportunities.isFavorite (toggleFavorite (Opportunities.IdNumber n) favorites)
        (Opportunities.IdNumber n) = true
      <-> ~ favorited (Opportunities.IdNumber n) favorites)
  /\ (forall id s n,
         Number_string s = Some n ->
         Opportunities.isFavorite (toggleFavorite id favorites)
           (Opportunities.IdString s) = false).
Proof.
  split.
  - intros n. rewrite <- favorited_toggle. unfold favorited, Opportunities.isFavorite.
    rewrite (existsb_eqb_In _ _ sameValue_eq).
    rewrite (normalized_fixed (toggleFavorite _ _))
      by apply (proj1 (wellKept_toggle _ _)).
    reflexivity.
  - intros id s n Hs. unfold Opportunities.isFavorite.
    destruct (existsb _ _) eqn:E; [|reflexivity].
    apply (existsb_eqb_In _ _ sameValue_eq) in E.
    pose proof (proj1 (wellKept_toggle id favorites)) as Hn.
    unfold normalized in Hn. rewrite Forall_forall in Hn.
    specialize (Hn _ E). simpl in Hn. rewrite Hs in Hn. discriminate.
Qed.

Lemma heart_after_toggle_witness :
  Number_string (JsRuntime := Sample.runtime) "3" = Some 3
  /\ Opportunities.isFavorite
       (toggleFavorite (RT := Sample.runtime) (Opportunities.IdString "3") [])
       (Opportunities.IdString "3") = false.
Proof.
  split; [reflexivity|].
  exact (proj2 (heart_after_toggle (RT := Sample.runtime) [])
           (Opportunities.IdString "3") "3" 3 eq_refl).
Defined.

(** * Further properties of the ranking *)

(** [slice(0, n)] keeps elements and their order *)
Lemma slice_In {A : Type} (n : nat) (l : list A) (x : A) :
  In x (firstn n l) -> In x l.
Proof.
  intros Hx. rewrite <- (firstn_skipn n l). apply in_or_app. left. exact Hx.
Qed.

Lemma slice_sorted {A : Type} (R : A -> A -> Prop) (n : nat) (l : list A) :
  StronglySorted R l -> StronglySorted R (firstn n l).
Proof.
  intros Hs. revert n. induction Hs as [|x l Hs IH Hall]; intros n.
  - rewrite firstn_nil. constructor.
  - destruct n as [|n]; [constructor|]. rewrite firstn_cons. constructor; [apply IH|].
    rewrite Forall_forall in *. intros y Hy. apply Hall. eapply slice_In, Hy.
Qed.

Section RankingShape.

Context {RT : JsRuntime}.
Variable allOpportunities : list Opportunity.
Variable opportunitiesList : string.

Lemma simpleRecommendations_Permutation (profileInterests : list string) :
  Permutation (App.simpleRecommendations allOpportunities profileInterests)
    allOpportunities.
Proof.
  destruct profileInterests as [|i rest] eqn:E; [apply Permutation_refl|].
  rewrite <- E. rewrite simpleRecommendations_sort by (subst; discriminate).
  apply sort_Permutation.
Qed.

Lemma rankAll_from_copies (ranking : json) (l : list Opportunity) :
  forall (i : Z) (items : list Opportunity),
    App.rankAll_from ranking i l = Normal items ->
    Forall (fun x => exists o r, In o l /\ x = withRank o r) items.
Proof.
  induction l as [|o l IH]; intros i items; simpl.
  - intros [= <-]. constructor.
  - destruct (indexOf ranking (i + 1)) as [r|]; [|discriminate]. simpl.
    destruct (App.rankAll_from ranking (i + 1) l) as [rest|] eqn:E; [|discriminate].
    simpl. intros [= <-]. constructor.
    + exists o, r. split; [left|]; reflexivity.
    + eapply Forall_impl; [|apply (IH _ _ E)].
      intros x (o' & r' & Hin & ->). exists o', r'. split; [right; exact Hin | reflexivity].
Qed.

Lemma cbind_Normal {A B : Type} (c : Completion A) (k : A -> Completion B) (b : B) :
  cbind c k = Normal b -> exists a, c = Normal a /\ k a = Normal b.
Proof.
  destruct c as [a|]; simpl; [|discriminate]. intros Hk. exists a. split; [reflexivity | exact Hk].
Qed.

Lemma tryRanking_returns (outcome : FetchOutcome) (ranked : list Opportunity) :
  App.tryRanking allOpportunities outcome = Normal (Some ranked) ->
  exists ranking items,
    App.rankAll allOpportunities ranking = Normal items
    /\ ranked = App.topRanked items.
Proof.
  unfold App.tryRanking. intros Hrun.
  destruct outcome as [|status [data|]]; try discriminate.
  apply cbind_Normal in Hrun. destruct Hrun as (choices & _ & Hrun).
  apply cbind_Normal in Hrun. destruct Hrun as (hasChoices & _ & Hrun).
  destruct hasChoices; [|discriminate].
  apply cbind_Normal in Hrun. destruct Hrun as (first & _ & Hrun).
  apply cbind_Normal in Hrun. destruct Hrun as (message & _ & Hrun).
  apply cbind_Normal in Hrun. destruct Hrun as (content & _ & Hrun).
  apply cbind_Normal in Hrun. destruct Hrun as (raw & _ & Hrun).
  destruct raw as [raw|]; [|discriminate].
  destruct (nonEmpty raw); [|discriminate].
  destruct (JSON_parse raw) as [ranking|]; [|discriminate].
  apply cbind_Normal in Hrun. destruct Hrun as (items & Hitems & Hrun).
  injection Hrun as <-. exists ranking, items. split; [exact Hitems | reflexivity].
Qed.

Lemma topRanked_shape (items : list Opportunity) :
  Forall (fun x => exists o r, In o allOpportunities /\ x = withRank o r) items ->
  (List.length (App.topRanked items) <= 3)%nat
  /\ Forall (fun x => exists o r, In o allOpportunities /\ 0 <= r /\ x = withRank o r)
       (App.topRanked items)
  /\ StronglySorted (fun a b => rankOf a <= rankOf b) (App.topRanked items).
Proof.
  intros Hitems. unfold App.topRanked.
  set (kept := filter (fun item => isNonNegative (rank item)) items).
  assert (Hkept : forall x, In x kept ->
                            exists o r, In o allOpportunities /\ 0 <= r /\ x = withRank o r).
  { intros x Hx. apply filter_In in Hx. destruct Hx as [Hx Hnn].
    rewrite Forall_forall in Hitems. destruct (Hitems x Hx) as (o & r & Ho & ->).
    exists o, r. repeat split; try assumption.
    cbn [rank withRank isNonNegative] in Hnn. apply Z.leb_le, Hnn. }
  assert (Hcmp : sort (fun a b => comparatorDifference (rank a) (rank b)) kept
                 = sort (fun a b => rankOf a - rankOf b) kept).
  { apply sort_ext_In. intros a b Ha Hb.
    destruct (Hkept a Ha) as (? & ? & _ & _ & ->).
    destruct (Hkept b Hb) as (? & ? & _ & _ & ->). reflexivity. }
  rewrite Hcmp. split; [|split].
  - rewrite length_firstn. apply Nat.le_min_l.
  - apply Forall_forall. intros x Hx. apply Hkept.
    apply (sort_In (fun a b => rankOf a - rankOf b)).
    eapply slice_In; exact Hx.
  - apply slice_sorted, sort_ascending.
Qed.

End RankingShape.

(** X6.  Whatever the interests and whatever the remote service answers,
    [rank] returns either a re-ordering of the whole catalog, or at most
    three copies of catalog records, each carrying a rank that is not
    negative, in ascending order of rank.  It never returns a record that is
    not in the catalog. *)
Theorem rank_is_catalog_or_top_three {RT : JsRuntime}
  (catalog : list Opportunity) (opportunitiesList : string)
  (remote : Request -> FetchOutcome) (profileInterests : list string) :
  Permutation (rankResult catalog opportunitiesList remote profileInterests) catalog
  \/ ((List.length (rankResult catalog opportunitiesList remote profileInterests) <= 3)%nat
      /\ Forall (fun x => exists o r, In o catalog /\ 0 <= r /\ x = withRank o r)
           (rankResult catalog opportunitiesList remote profileInterests)
      /\ StronglySorted (fun a b => rankOf a <= rankOf b)
           (rankResult catalog opportunitiesList remote profileInterests)).
Proof.
  unfold rankResult.
  destruct profileInterests as [|i rest] eqn:E; [left; apply Permutation_refl|].
  rewrite <- E.
  assert (Hne : profileInterests <> []) by (subst; discriminate).
  rewrite recommendOpportunities_result by exact Hne.
  rewrite getAIRecommendations_result.
  destruct (App.tryRanking catalog _) as [[ranked|]|] eqn:Htry.
  - destruct (tryRanking_returns _ _ _ Htry) as (ranking & items & Hitems & ->).
    destruct (App.topRanked items) as [|x ranked'] eqn:Etop;
      [left; apply Permutation_refl|].
    right. rewrite <- Etop. apply topRanked_shape.
    apply (rankAll_from_copies ranking catalog 0 items Hitems).
  - left.
    pose proof (simpleRecommendations_Permutation catalog profileInterests) as Hp.
    destruct (App.simpleRecommendations catalog profileInterests) eqn:Es; [|exact Hp].
    apply Permutation_nil in Hp. subst. apply Permutation_refl.
  - left.
    pose proof (simpleRecommendations_Permutation catalog profileInterests) as Hp.
    destruct (App.simpleRecommendations catalog profileInterests) eqn:Es; [|exact Hp].
    apply Permutation_nil in Hp. subst. apply Permutation_refl.
Qed.

(** X7.  The caller always receives a usable list: for a catalog that is
    not empty, [rank] never returns the empty list, whatever the interests
    and whatever the remote service answers. *)
Theorem rank_never_empty {RT : JsRuntime}
  (catalog : list Opportunity) (opportunitiesList : string)
  (remote : Request -> FetchOutcome) (profileInterests : list string) :
  catalog <> [] ->
  rankResult catalog opportunitiesList remote profileInterests <> [].
Proof.
  intros Hcat. unfold rankResult.
  destruct profileInterests as [|i rest] eqn:E; [exact Hcat|].
  rewrite <- E.
  rewrite recommendOpportunities_result by (subst; discriminate).
  destruct (fst (App.getAIRecommendations catalog opportunitiesList profileInterests remote));
    [exact Hcat | discriminate].
Qed.

Lemma rank_never_empty_witness :
  rankResult (RT := Sample.runtime) Example.catalog Example.opportunitiesList
    (Example.always (FetchResponse 200 (Some (completion "[]")))) ["environment"]
  <> [].
Proof.
  apply (rank_never_empty (RT := Sample.runtime) Example.catalog).
  discriminate.
Defined.

(** X8.  A call of [rank] sends no request when the interests list is empty
    and exactly one request otherwise, the same whatever the service
    answers: a failure is never retried. *)
Theorem rank_sends_one_request {RT : JsRuntime}
  (catalog : list Opportunity) (opportunitiesList : string)
  (remote : Request -> FetchOutcome) (profileInterests : list string) :
  rankRequests catalog opportunitiesList remote profileInterests
  = match profileInterests with
    | [] => []
    | _ :: _ => [App.rankingRequest opportunitiesList profileInterests]
    end.
Proof.
  unfold rankRequests. destruct profileInterests as [|i rest]; [reflexivity|].
  unfold App.recommendOpportunities, bind, ret.
  pose proof (getAIRecommendations_sent catalog opportunitiesList (i :: rest) remote)
    as Hsent.
  destruct (App.getAIRecommendations catalog opportunitiesList (i :: rest) remote)
    as [recommended sent].
  cbn [snd] in *. rewrite Hsent. reflexivity.
Qed.

(** A list that is in order already is left as it is. *)
Lemma sort_in_order {A : Type} (cmp : A -> A -> Z) (l : list A) :
  StronglySorted (fun a b => cmp a b <= 0) l -> sort cmp l = l.
Proof.
  intros Hs. induction Hs as [|x l Hs IH Hall]; simpl; [reflexivity|].
  rewrite IH. destruct l as [|y l]; [reflexivity|]. simpl.
  apply Forall_inv in Hall. apply Z.leb_le in Hall. rewrite Hall. reflexivity.
Qed.

Lemma matchCount_set {RT : JsRuntime} (first second : list string) (o : Opportunity) :
  (forall x, In x (map toLowerCase first) <-> In x (map toLowerCase second)) ->
  matchCount first o = matchCount second o.
Proof.
  intros Hset. unfold matchCount. do 2 f_equal. apply filter_ext. intros interest.
  assert (Hin : forall l,
             existsb (fun p => (toLowerCase interest =? toLowerCase p)%string) l = true
             <-> In (toLowerCase interest) (map toLowerCase l)).
  { intros l. rewrite existsb_exists, in_map_iff. split.
    - intros (p & Hp & E). apply String.eqb_eq in E. exists p. split; [symmetry|]; assumption.
    - intros (p & E & Hp). exists p. split; [exact Hp|]. apply String.eqb_eq. symmetry. exact E. }
  apply eq_true_iff_eq. rewrite !Hin. apply Hset.
Qed.

(** X9.  The local ranking reads the profile interests as a set of
    lower-case labels: two interests lists with the same lower-case forms,
    in any order and with any repetitions, rank every catalog alike. *)
Theorem local_ranking_reads_interests_as_a_set {RT : JsRuntime}
  (catalog : list Opportunity) (first second : list string) :
  (forall x, In x (map toLowerCase first) <-> In x (map toLowerCase second)) ->
  App.simpleRecommendations catalog first = App.simpleRecommendations catalog second.
Proof.
  intros Hset.
  destruct first as [|a first'] eqn:E1.
  - destruct second as [|b second']; [reflexivity|].
    exfalso. apply (proj2 (Hset (toLowerCase b))). left. reflexivity.
  - destruct second as [|b second'] eqn:E2.
    + exfalso. apply (proj1 (Hset (toLowerCase a))). left. reflexivity.
    + rewrite <- E1, <- E2 in *.
      rewrite !simpleRecommendations_sort by (subst; discriminate).
      apply sort_ext_In. intros x y _ _.
      rewrite (matchCount_set first second x Hset), (matchCount_set first second y Hset).
      reflexivity.
Qed.

Lemma local_ranking_reads_interests_as_a_set_witness :
  App.simpleRecommendations (RT := Sample.runtime) Example.catalog
    ["Education"; "COMMUNITY"; "education"]
  = App.simpleRecommendations (RT := Sample.runtime) Example.catalog
      ["community"; "EDUCATION"].
Proof.
  apply (local_ranking_reads_interests_as_a_set (RT := Sample.runtime)).
  intros x. simpl. intuition.
Defined.

(** X10.  The local ranking leaves alone a catalog that is already in
    descending order of match count: it returns it as it is, in particular
    when no opportunity matches any interest.  So ranking a ranked catalog
    again changes nothing. *)
Theorem local_ranking_keeps_ranked_catalog {RT : JsRuntime}
  (catalog : list Opportunity) (profileInterests : list string) :
  (StronglySorted
     (fun a b => matchCount profileInterests b <= matchCount profileInterests a) catalog ->
   App.simpleRecommendations catalog profileInterests = catalog)
  /\ App.simpleRecommendations
       (App.simpleRecommendations catalog profileInterests) profileInterests
     = App.simpleRecommendations catalog profileInterests.
Proof.
  assert (Hkeep : forall l,
             StronglySorted
               (fun a b => matchCount profileInterests b <= matchCount profileInterests a) l ->
             App.simpleRecommendations l profileInterests = l).
  { intros l Hs. destruct profileInterests as [|i rest] eqn:E; [reflexivity|].
    rewrite <- E in *. rewrite simpleRecommendations_sort by (subst; discriminate).
    apply sort_in_order. eapply StronglySorted_weaken; [|exact Hs].
    intros a b Hab. simpl in Hab. lia. }
  split; [apply Hkeep|].
  destruct profileInterests as [|i rest] eqn:E; [reflexivity|].
  rewrite <- E in *. apply Hkeep.
  rewrite simpleRecommendations_sort by (subst; discriminate).
  apply sort_descending with (key := matchCount profileInterests).
Qed.

Lemma local_ranking_keeps_ranked_catalog_witness :
  App.simpleRecommendations (RT := Sample.runtime) Example.catalog ["music"]
  = Example.catalog.
Proof.
  apply (proj1 (local_ranking_keeps_ranked_catalog (RT := Sample.runtime)
                  Example.catalog ["music"])).
  repeat (constructor; [| repeat (constructor; [vm_compute; discriminate|]);
                          constructor ]).
  constructor.
Defined.

(** * Further properties of the filter and of what the page shows *)

Section ViewFacts.

Context {RT : JsRuntime}.
Variable allOpportunities : list Opportunity.

Lemma cleared_keeps_all (o : Opportunity) :
  Opportunities.keeps OpportunitiesView.handleClearFilters o = true.
Proof.
  apply keeps_facets. repeat split.
  - left. cbn [OpportunitiesView.handleClearFilters Opportunities.searchTerm].
    rewrite trim_empty. apply toLowerCase_empty.
  - left. reflexivity.
  - left. reflexivity.
  - left. reflexivity.
  - unfold dateFacet. destruct (opportunityDay o); [|exact I]. split; exact I.
Qed.

Lemma overlap_nobody (labels : list string) : Opportunities.overlap labels [] = 0.
Proof.
  unfold Opportunities.overlap.
  induction (map toLowerCase labels) as [|x l IH]; [reflexivity | exact IH].
Qed.

Lemma not_completed (profile : UserProfile) :
  OpportunitiesView.hasCompletedQuiz profile = false ->
  orEmpty (user_interests profile) = [] /\ orEmpty (user_skills profile) = [].
Proof.
  unfold OpportunitiesView.hasCompletedQuiz. intros Hq.
  apply orb_false_iff in Hq. destruct Hq as [Hs Hi].
  split.
  - destruct (orEmpty (user_interests profile)); [reflexivity | discriminate].
  - destruct (orEmpty (user_skills profile)); [reflexivity | discriminate].
Qed.

(** survivors scored against nobody, in catalog order from index [i] on *)
Lemma unscored_in_order (c : Opportunities.Criteria) (l : list Opportunity) :
  forall i : Z,
    StronglySorted (fun a b => Opportunities.compareScored a b <= 0)
      (map (fun '(o, i) =>
              {| Opportunities.opportunity := o;
                 Opportunities.index := i;
                 Opportunities.interestOverlap := Opportunities.overlap (interests o) [];
                 Opportunities.skillOverlap := Opportunities.overlap (skills o) [] |})
         (filter (fun '(o, _) => Opportunities.keeps c o)
            (mapi_from (fun o i => (o, i)) i l))).
Proof.
  induction l as [|o l IH]; intros i; cbn [mapi_from filter map]; [constructor|].
  destruct (Opportunities.keeps c o); [|apply IH].
  cbn [map]. constructor; [apply IH|].
  apply Forall_forall. intros s Hs. apply in_map_iff in Hs.
  destruct Hs as ([o' j] & <- & Hin). apply filter_In in Hin. destruct Hin as [Hin _].
  apply In_mapi_from in Hin. destruct Hin as (k & a & _ & [= -> ->]).
  apply compareScored_le. unfold rankedBefore.
  cbn [Opportunities.interestOverlap Opportunities.skillOverlap Opportunities.index].
  rewrite !overlap_nobody. lia.
Qed.

Lemma filtered_without_profile (c : Opportunities.Criteria) (profile : UserProfile) :
  OpportunitiesView.hasCompletedQuiz profile = false ->
  Opportunities.filteredOpportunities allOpportunities c profile
  = filter (Opportunities.keeps c) allOpportunities.
Proof.
  intros Hq. destruct (not_completed profile Hq) as [Hi Hs].
  unfold Opportunities.filteredOpportunities, Opportunities.scoredOpportunities.
  rewrite Hi, Hs. cbn [map]. unfold mapi.
  rewrite sort_in_order by apply unscored_in_order.
  rewrite map_map. rewrite <- (map_fst_filtered c allOpportunities 0).
  apply map_ext. intros [o i]. reflexivity.
Qed.

End ViewFacts.

(** X11.  After "Clear Filters" no opportunity is filtered out: the
    filtered list holds every entry of the catalog, each once, for every
    profile.  Clearing does not switch "See all" on: the page shows the
    whole catalog when "See all" is on, when the profile has neither
    interests nor skills, or when the catalog has at most six entries;
    otherwise it shows six cards and the button "See all opportunities". *)
Theorem clear_filters_lists_whole_catalog {RT : JsRuntime}
  (catalog : list Opportunity) (profile : UserProfile) (showAllOpportunities : bool) :
  Permutation
    (Opportunities.filteredOpportunities catalog OpportunitiesView.handleClearFilters
       profile)
    catalog
  /\ (showAllOpportunities = true
      \/ OpportunitiesView.hasCompletedQuiz profile = false
      \/ (List.length catalog <= 6)%nat ->
      Permutation
        (OpportunitiesView.displayed showAllOpportunities profile
           (Opportunities.filteredOpportunities catalog
              OpportunitiesView.handleClearFilters profile))
        catalog)
  /\ (showAllOpportunities = false ->
      OpportunitiesView.hasCompletedQuiz profile = true ->
      (6 < List.length catalog)%nat ->
      List.length
        (OpportunitiesView.displayed showAllOpportunities profile
           (Opportunities.filteredOpportunities catalog
              OpportunitiesView.handleClearFilters profile)) = 6%nat
      /\ OpportunitiesView.seeAllButton showAllOpportunities profile
           (Opportunities.filteredOpportunities catalog
              OpportunitiesView.handleClearFilters profile) = true).
Proof.
  assert (Hall : Permutation
                   (Opportunities.filteredOpportunities catalog
                      OpportunitiesView.handleClearFilters profile)
                   catalog).
  { eapply Permutation_trans; [apply filtered_Permutation|].
    rewrite forallb_filter_id; [apply Permutation_refl|].
    apply forallb_forall. intros o _. apply cleared_keeps_all. }
  pose proof (Permutation_length Hall) as Hlen.
  split; [exact Hall|]. split.
  - intros Hshown. unfold OpportunitiesView.displayed.
    destruct Hshown as [-> | [-> | Hfew]].
    + exact Hall.
    + rewrite orb_true_r. exact Hall.
    + destruct (showAllOpportunities || negb (OpportunitiesView.hasCompletedQuiz profile));
        [exact Hall|].
      rewrite firstn_all2 by lia. exact Hall.
  - intros -> Hquiz Hmany.
    unfold OpportunitiesView.displayed, OpportunitiesView.seeAllButton.
    rewrite Hquiz. cbn [orb negb andb]. rewrite length_firstn, Hlen.
    split; [lia|].
    destruct (Nat.eqb_spec (List.length catalog) 0); [lia|].
    destruct (Nat.ltb_spec 6 (List.length catalog)); [reflexivity | lia].
Qed.

(** The example catalog has five entries: a volunteer with interests sees
    all of them after clearing, also while "See all" is off. *)
Lemma clear_filters_lists_whole_catalog_witness :
  Permutation
    (OpportunitiesView.displayed false Example.volunteer
       (Opportunities.filteredOpportunities (RT := Sample.runtime) Example.catalog
          OpportunitiesView.handleClearFilters Example.volunteer))
    Example.catalog.
Proof.
  apply (proj1 (proj2 (clear_filters_lists_whole_catalog (RT := Sample.runtime)
                         Example.catalog Example.volunteer false))).
  right. right. simpl. lia.
Defined.

(** X12.  For a visitor who has not completed the quiz (a profile without
    interests and skills) the filter does not re-order: the result is the
    surviving opportunities in catalog order, and the page renders all of
    them, never only the first six. *)
Theorem visitor_sees_catalog_order {RT : JsRuntime}
  (catalog : list Opportunity) (c : Opportunities.Criteria) (profile : UserProfile)
  (showAllOpportunities : bool) :
  OpportunitiesView.hasCompletedQuiz profile = false ->
  Opportunities.filteredOpportunities catalog c profile
  = filter (Opportunities.keeps c) catalog
  /\ OpportunitiesView.displayed showAllOpportunities profile
       (Opportunities.filteredOpportunities catalog c profile)
     = filter (Opportunities.keeps c) catalog.
Proof.
  intros Hq. rewrite (filtered_without_profile catalog c profile Hq).
  split; [reflexivity|].
  unfold OpportunitiesView.displayed. rewrite Hq, orb_true_r. reflexivity.
Qed.

Lemma visitor_sees_catalog_order_witness :
  Opportunities.filteredOpportunities (RT := Sample.runtime) Example.catalog
    Example.februaryInBedok Example.guest
  = [Example.tutoring].
Proof.
  exact (proj1 (visitor_sees_catalog_order (RT := Sample.runtime) Example.catalog
                  Example.februaryInBedok Example.guest false eq_refl)).
Defined.

(** X13.  The page renders a prefix of the filtered list, and the button
    "See all opportunities" is there exactly when that prefix leaves
    something out.  A filtered list that is not empty is never rendered
    empty, and the buttons "See all" and "Show top 6" never appear
    together. *)
Theorem see_all_button_iff_hidden (showAllOpportunities : bool) (profile : UserProfile)
  (filtered : list Opportunity) :
  (OpportunitiesView.seeAllButton showAllOpportunities profile filtered = true
   <-> OpportunitiesView.displayed showAllOpportunities profile filtered <> filtered)
  /\ OpportunitiesView.displayed showAllOpportunities profile filtered
     = firstn
         (List.length (OpportunitiesView.displayed showAllOpportunities profile filtered))
         filtered
  /\ (filtered <> [] ->
      OpportunitiesView.displayed showAllOpportunities profile filtered <> [])
  /\ OpportunitiesView.seeAllButton showAllOpportunities profile filtered
     && OpportunitiesView.showTopButton showAllOpportunities profile filtered = false.
Proof.
  unfold OpportunitiesView.seeAllButton, OpportunitiesView.showTopButton,
    OpportunitiesView.displayed.
  assert (Hshort : (6 <? List.length filtered)%nat = true
                   <-> firstn 6 filtered <> filtered).
  { rewrite Nat.ltb_lt. split.
    - intros Hlt E. apply (f_equal (@List.length Opportunity)) in E.
      rewrite length_firstn in E. lia.
    - intros Hne. destruct (Nat.ltb_spec 6 (List.length filtered)) as [Hlt|Hle];
        [exact Hlt|].
      exfalso. apply Hne. apply firstn_all2. exact Hle. }
  assert (Hzero : (List.length filtered =? 0)%nat = true -> (6 <? List.length filtered)%nat = false).
  { intros Hz. apply Nat.eqb_eq in Hz. rewrite Hz. reflexivity. }
  destruct showAllOpportunities; destruct (OpportunitiesView.hasCompletedQuiz profile);
    cbn [orb andb negb].
  - repeat split; try (intros; congruence); try (rewrite firstn_all; reflexivity).
    + rewrite andb_false_r. discriminate.
    + rewrite andb_false_r. reflexivity.
  - repeat split; try (intros; congruence); try (rewrite firstn_all; reflexivity).
    + rewrite andb_false_r. discriminate.
    + rewrite andb_false_r. reflexivity.
  - split; [|split; [|split]].
    + rewrite <- Hshort. destruct (List.length filtered =? 0)%nat eqn:Ez; cbn [negb andb].
      * rewrite (Hzero eq_refl). split; discriminate.
      * reflexivity.
    + rewrite length_firstn.
      destruct (Nat.le_ge_cases 6 (List.length filtered)) as [Hle|Hge].
      * rewrite Nat.min_l by exact Hle. reflexivity.
      * rewrite Nat.min_r by exact Hge. rewrite firstn_all. apply firstn_all2, Hge.
    + destruct filtered; [congruence | discriminate].
    + rewrite andb_false_r. apply andb_false_r.
  - repeat split; try (intros; congruence); try (rewrite firstn_all; reflexivity).
    + rewrite andb_false_r. discriminate.
    + rewrite andb_false_r. reflexivity.
Qed.

(** * The options of the drop-downs *)

Section OptionFacts.

Context {RT : JsRuntime}.

Lemma Map_has_In (k : string) (m : list (string * string)) :
  OpportunitiesView.Map_has k m = true <-> In k (map fst m).
Proof.
  unfold OpportunitiesView.Map_has. rewrite existsb_exists, in_map_iff. split.
  - intros (e & He & E). apply String.eqb_eq in E. exists e. split; assumption.
  - intros (e & E & He). exists e. split; [exact He | apply String.eqb_eq, E].
Qed.

Lemma addSkill_keys (m : list (string * string)) (skill k : string) :
  In k (map fst (OpportunitiesView.addSkill m skill))
  <-> In k (map fst m) \/ toLowerCase skill = k.
Proof.
  unfold OpportunitiesView.addSkill.
  destruct (OpportunitiesView.Map_has (toLowerCase skill) m) eqn:E.
  - apply Map_has_In in E. split; [tauto|]. intros [Hin | <-]; assumption.
  - rewrite map_app, in_app_iff. simpl. tauto.
Qed.

Lemma addSkill_distinct (m : list (string * string)) (skill : string) :
  NoDup (map fst m) -> NoDup (map fst (OpportunitiesView.addSkill m skill)).
Proof.
  intros Hnd. unfold OpportunitiesView.addSkill.
  destruct (OpportunitiesView.Map_has (toLowerCase skill) m) eqn:E; [exact Hnd|].
  rewrite map_app. simpl. apply NoDup_app; [exact Hnd | repeat constructor; intros [] |].
  intros x Hx [<- | []]. apply Map_has_In in Hx. congruence.
Qed.

(** an entry of the map pairs a skill of the items seen with its lower-case
    form *)
Lemma addSkill_entries (P : string -> Prop) (m : list (string * string)) (skill : string) :
  P skill ->
  Forall (fun e => toLowerCase (snd e) = fst e /\ P (snd e)) m ->
  Forall (fun e => toLowerCase (snd e) = fst e /\ P (snd e))
    (OpportunitiesView.addSkill m skill).
Proof.
  intros Hp Hm. unfold OpportunitiesView.addSkill.
  destruct (OpportunitiesView.Map_has (toLowerCase skill) m); [exact Hm|].
  apply Forall_app. split; [exact Hm|]. constructor; [|constructor].
  split; [reflexivity | exact Hp].
Qed.

Lemma Set_add_In (x y : string) (set : list string) :
  In y (OpportunitiesView.Set_add x set) <-> In y set \/ x = y.
Proof.
  unfold OpportunitiesView.Set_add. destruct (existsb (String.eqb x) set) eqn:E.
  - apply (existsb_eqb_In _ _ String.eqb_eq) in E. split; [tauto|].
    intros [Hin | <-]; assumption.
  - rewrite in_app_iff. simpl. tauto.
Qed.

Lemma Set_add_distinct (x : string) (set : list string) :
  NoDup set -> NoDup (OpportunitiesView.Set_add x set).
Proof.
  intros Hnd. unfold OpportunitiesView.Set_add.
  destruct (existsb (String.eqb x) set) eqn:E; [exact Hnd|].
  apply NoDup_app; [exact Hnd | repeat constructor; intros [] |].
  intros y Hy [<- | []]. apply (existsb_eqb_In _ _ String.eqb_eq) in Hy. congruence.
Qed.

Lemma fold_addSkill_keys (done : list string) :
  forall (m : list (string * string)) (k : string),
    In k (map fst (fold_left OpportunitiesView.addSkill done m))
    <-> In k (map fst m) \/ exists skill, In skill done /\ toLowerCase skill = k.
Proof.
  induction done as [|skill done IH]; intros m k; simpl.
  - split; [tauto|]. intros [Hin | (skill & [] & _)]. exact Hin.
  - rewrite IH, addSkill_keys. split.
    + intros [[Hin | E] | (s' & Hs & E)].
      * left. exact Hin.
      * right. exists skill. split; [left; reflexivity | exact E].
      * right. exists s'. split; [right; exact Hs | exact E].
    + intros [Hin | (s' & [<- | Hs] & E)].
      * left. left. exact Hin.
      * left. right. exact E.
      * right. exists s'. split; assumption.
Qed.

Lemma fold_addSkill_distinct (done : list string) :
  forall m : list (string * string),
    NoDup (map fst m) -> NoDup (map fst (fold_left OpportunitiesView.addSkill done m)).
Proof.
  induction done as [|skill done IH]; intros m Hnd; simpl; [exact Hnd|].
  apply IH, addSkill_distinct, Hnd.
Qed.

Lemma fold_addSkill_entries (P : string -> Prop) (done : list string) :
  forall m : list (string * string),
    (forall skill, In skill done -> P skill) ->
    Forall (fun e => toLowerCase (snd e) = fst e /\ P (snd e)) m ->
    Forall (fun e => toLowerCase (snd e) = fst e /\ P (snd e))
      (fold_left OpportunitiesView.addSkill done m).
Proof.
  induction done as [|skill done IH]; intros m Hp Hm; simpl; [exact Hm|].
  apply IH.
  - intros s' Hs. apply Hp. right. exact Hs.
  - apply addSkill_entries; [apply Hp; left; reflexivity | exact Hm].
Qed.

Lemma fold_Set_add_In (done : list string) :
  forall (set : list string) (v : string),
    In v (fold_left (fun set int => OpportunitiesView.Set_add int set) done set)
    <-> In v set \/ In v done.
Proof.
  induction done as [|x done IH]; intros set v; simpl; [tauto|].
  rewrite IH, Set_add_In. tauto.
Qed.

Lemma fold_Set_add_distinct (done : list string) :
  forall set : list string,
    NoDup set ->
    NoDup (fold_left (fun set int => OpportunitiesView.Set_add int set) done set).
Proof.
  induction done as [|x done IH]; intros set Hnd; simpl; [exact Hnd|].
  apply IH, Set_add_distinct, Hnd.
Qed.

Lemma addItem_collects (seen : list Opportunity) (acc : OpportunitiesView.Options)
  (item : Opportunity) :
  collects seen acc -> collects (seen ++ [item]) (OpportunitiesView.addItem acc item).
Proof.
  intros (Hk & Hi & Hkeys & Hints & Hentries).
  unfold collects, OpportunitiesView.addItem.
  cbn [OpportunitiesView.labelMap OpportunitiesView.interestSet].
  split; [apply fold_addSkill_distinct, Hk|].
  split; [apply fold_Set_add_distinct, Hi|].
  split; [|split].
  - intros k. rewrite fold_addSkill_keys, Hkeys. split.
    + intros [(o & skill & Ho & Hs & E) | (skill & Hs & E)].
      * exists o, skill. rewrite in_app_iff. tauto.
      * exists item, skill. rewrite in_app_iff. simpl. tauto.
    + intros (o & skill & Ho & Hs & E). apply in_app_iff in Ho.
      destruct Ho as [Ho | [<- | []]].
      * left. exists o, skill. tauto.
      * right. exists skill. tauto.
  - intros v. rewrite fold_Set_add_In, Hints. split.
    + intros [(o & Ho & Hv) | Hv].
      * exists o. rewrite in_app_iff. tauto.
      * exists item. rewrite in_app_iff. simpl. tauto.
    + intros (o & Ho & Hv). apply in_app_iff in Ho.
      destruct Ho as [Ho | [<- | []]].
      * left. exists o. tauto.
      * right. exact Hv.
  - apply fold_addSkill_entries
      with (P := fun label => exists o, In o (seen ++ [item]) /\ In label (skills o)).
    + intros skill Hs. exists item. rewrite in_app_iff. simpl. tauto.
    + eapply Forall_impl; [|exact Hentries].
      intros e [E (o & Ho & Hs)]. split; [exact E|].
      exists o. rewrite in_app_iff. tauto.
Qed.

Lemma fold_addItem_collects (l : list Opportunity) :
  forall (seen : list Opportunity) (acc : OpportunitiesView.Options),
    collects seen acc ->
    collects (seen ++ l) (fold_left OpportunitiesView.addItem l acc).
Proof.
  induction l as [|item l IH]; intros seen acc Hc; simpl.
  - rewrite app_nil_r. exact Hc.
  - replace (seen ++ item :: l)%list with ((seen ++ [item]) ++ l)%list
      by (rewrite <- app_assoc; reflexivity).
    apply IH, addItem_collects, Hc.
Qed.

Lemma collected_collects (catalog : list Opportunity) :
  collects catalog (OpportunitiesView.collected catalog).
Proof.
  unfold OpportunitiesView.collected.
  apply (fold_addItem_collects catalog []).
  unfold collects. cbn [OpportunitiesView.labelMap OpportunitiesView.interestSet map].
  split; [constructor|]. split; [constructor|]. split; [|split].
  - intros k. split; [intros [] | intros (o & _ & [] & _)].
  - intros v. split; [intros [] | intros (o & [] & _)].
  - constructor.
Qed.

Lemma Map_get_In (k : string) (m : list (string * string)) :
  In k (map fst m) -> exists v, OpportunitiesView.Map_get k m = Some v /\ In (k, v) m.
Proof.
  induction m as [|[k' v'] m IH]; simpl; [intros []|].
  intros Hin. destruct (k' =? k)%string eqn:E.
  - apply String.eqb_eq in E. subst. exists v'. split; [reflexivity | left; reflexivity].
  - destruct Hin as [-> | Hin]; [rewrite String.eqb_refl in E; discriminate|].
    destruct (IH Hin) as (v & Hget & Hv). exists v. split; [exact Hget | right; exact Hv].
Qed.

End OptionFacts.

Lemma sorted_distinct {A : Type} (cmp : A -> A -> Z) (l : list A) :
  NoDup l -> NoDup (sort cmp l).
Proof.
  apply Permutation_NoDup, Permutation_sym, sort_Permutation.
Qed.

Lemma options_membership {RT : JsRuntime}
  (catalog : list Opportunity) (localeCompare : string -> string -> Z) :
  (forall v, In v (OpportunitiesView.locations catalog)
             <-> exists o, In o catalog /\ location o = v)
  /\ (forall v, In v (OpportunitiesView.skills catalog)
                <-> exists o skill, In o catalog /\ In skill (skills o)
                                    /\ toLowerCase skill = v)
  /\ (forall v, In v (OpportunitiesView.uniqueInterests catalog localeCompare)
                <-> exists o, In o catalog /\ In v (interests o)).
Proof.
  destruct (collected_collects catalog) as (_ & _ & Hkeys & Hints & _).
  unfold OpportunitiesView.locations, OpportunitiesView.skills,
    OpportunitiesView.uniqueInterests, OpportunitiesView.skillLabelMap.
  split; [|split].
  - intros v. rewrite sort_In, (dedup_In _ _ String.eqb_eq), in_map_iff.
    split; intros (o & H1 & H2); exists o; tauto.
  - intros v. rewrite sort_In. apply Hkeys.
  - intros v. rewrite sort_In. apply Hints.
Qed.

(** X14.  The three drop-downs offer each value once, and they offer exactly
    what the catalog holds: the locations of the opportunities, the
    lower-case forms of their skills, and their interests as written. *)
Theorem drop_downs_offer_the_catalog {RT : JsRuntime}
  (catalog : list Opportunity) (localeCompare : string -> string -> Z) :
  NoDup (OpportunitiesView.locations catalog)
  /\ NoDup (OpportunitiesView.skills catalog)
  /\ NoDup (OpportunitiesView.uniqueInterests catalog localeCompare)
  /\ (forall v, In v (OpportunitiesView.locations catalog)
                <-> exists o, In o catalog /\ location o = v)
  /\ (forall v, In v (OpportunitiesView.skills catalog)
                <-> exists o skill, In o catalog /\ In skill (skills o)
                                    /\ toLowerCase skill = v)
  /\ (forall v, In v (OpportunitiesView.uniqueInterests catalog localeCompare)
                <-> exists o, In o catalog /\ In v (interests o)).
Proof.
  destruct (collected_collects catalog) as (Hk & Hi & _).
  split; [apply sorted_distinct, dedup_NoDup, String.eqb_eq|].
  split; [apply sorted_distinct, Hk|].
  split; [apply sorted_distinct, Hi|].
  apply options_membership.
Qed.

(** X15.  Every option of a drop-down selects something: with the other
    facets free, the location, the skill or the interest chosen from its
    drop-down leaves at least one opportunity in the filtered list. *)
Theorem every_option_selects_something {RT : JsRuntime}
  (catalog : list Opportunity) (localeCompare : string -> string -> Z)
  (profile : UserProfile) :
  (forall v, In v (OpportunitiesView.locations catalog) ->
             Opportunities.filteredOpportunities catalog
               (Opportunities.Build_Criteria "" v "all" "all" "" "") profile <> [])
  /\ (forall v, In v (OpportunitiesView.skills catalog) ->
                Opportunities.filteredOpportunities catalog
                  (Opportunities.Build_Criteria "" "all" v "all" "" "") profile <> [])
  /\ (forall v, In v (OpportunitiesView.uniqueInterests catalog localeCompare) ->
                Opportunities.filteredOpportunities catalog
                  (Opportunities.Build_Criteria "" "all" "all" v "" "") profile <> []).
Proof.
  destruct (options_membership catalog localeCompare) as (Hloc & Hskill & Hint).
  assert (Hlisted : forall c o,
             In o catalog ->
             Opportunities.searchTerm c = "" ->
             locationFacet c o -> skillFacet c o -> interestFacet c o ->
             Opportunities.dateRange_start c = "" -> Opportunities.dateRange_end c = "" ->
             Opportunities.filteredOpportunities catalog c profile <> []).
  { intros c o Ho Hsearch Hl Hs Hi Hfirst Hlast Hnil.
    assert (Hin : In o (Opportunities.filteredOpportunities catalog c profile)).
    { apply In_filtered. split; [exact Ho|]. apply keeps_facets.
      repeat split; try assumption.
      - left. rewrite Hsearch, trim_empty. apply toLowerCase_empty.
      - unfold dateFacet. destruct (opportunityDay o); [|exact I].
        rewrite Hfirst, Hlast. split; exact I. }
    rewrite Hnil in Hin. exact Hin. }
  split; [|split].
  - intros v Hv. apply Hloc in Hv. destruct Hv as (o & Ho & E).
    apply (Hlisted _ o Ho); try reflexivity; [right; exact E | left | left]; reflexivity.
  - intros v Hv. apply Hskill in Hv. destruct Hv as (o & skill & Ho & Hs & E).
    apply (Hlisted _ o Ho); try reflexivity; [left; reflexivity | | left; reflexivity].
    right. exists skill. split; assumption.
  - intros v Hv. apply Hint in Hv. destruct Hv as (o & Ho & Hi).
    apply (Hlisted _ o Ho); try reflexivity; [left; reflexivity | left; reflexivity |].
    right. exists v. split; [exact Hi | reflexivity].
Qed.

Lemma every_option_selects_something_witness :
  In "cooking" (OpportunitiesView.skills (RT := Sample.runtime) Example.catalog)
  /\ Opportunities.filteredOpportunities (RT := Sample.runtime) Example.catalog
       (Opportunities.Build_Criteria "" "all" "cooking" "all" "" "") Example.volunteer
     <> [].
Proof.
  assert (Hin : In "cooking"
                  (OpportunitiesView.skills (RT := Sample.runtime) Example.catalog)).
  { vm_compute. tauto. }
  split; [exact Hin|].
  exact (proj1 (proj2 (every_option_selects_something (RT := Sample.runtime)
                         Example.catalog (fun _ _ => 0) Example.volunteer))
           "cooking" Hin).
Defined.

(** X16.  Every option of the skill drop-down has a label in the label map:
    a skill of some opportunity, as written there, whose lower-case form is
    the option.  The label computed from the option itself is never
    needed. *)
Theorem skill_option_has_label {RT : JsRuntime} (catalog : list Opportunity) (v : string) :
  In v (OpportunitiesView.skills catalog) ->
  exists label,
    OpportunitiesView.skillLabel catalog v = Some label
    /\ toLowerCase label = v
    /\ exists o, In o catalog /\ In label (skills o).
Proof.
  intros Hv. destruct (collected_collects catalog) as (_ & _ & _ & _ & Hentries).
  unfold OpportunitiesView.skills in Hv. apply sort_In in Hv.
  destruct (Map_get_In _ _ Hv) as (label & Hget & Hin).
  exists label. split; [exact Hget|].
  unfold OpportunitiesView.skillLabelMap in Hin.
  rewrite Forall_forall in Hentries. destruct (Hentries _ Hin) as [E Ho].
  split; [exact E | exact Ho].
Qed.

Lemma skill_option_has_label_witness :
  exists label,
    OpportunitiesView.skillLabel (RT := Sample.runtime) Example.catalog "teaching"
    = Some label
    /\ Sample.toLowerCase label = "teaching"
    /\ exists o, In o Example.catalog /\ In label (skills o).
Proof.
  apply (skill_option_has_label (RT := Sample.runtime) Example.catalog "teaching").
  vm_compute. tauto.
Defined.

(** X17.  When an opportunity has no [spotsLeft], the badge shows
    [8 - (id % 4)] spots: between 5 and 11 for every integer id, between 5
    and 8 for an id that is not negative.  The lower bound 2 of the formula
    is never what is shown. *)
Theorem default_spots_bounds (id : Z) :
  OpportunitiesView.defaultSpots id = 8 - Z.rem id 4
  /\ 5 <= OpportunitiesView.defaultSpots id <= 11
  /\ (0 <= id -> OpportunitiesView.defaultSpots id <= 8)
  /\ OpportunitiesView.spotsLabel id OpportunitiesView.SpotsMissing
     = OpportunitiesView.Z_toString (8 - Z.rem id 4) ++ " spots left".
Proof.
  unfold OpportunitiesView.spotsLabel, OpportunitiesView.defaultSpots.
  assert (Hrem : - 3 <= Z.rem id 4 <= 3).
  { pose proof (Z.rem_bound_abs id 4 ltac:(lia)). lia. }
  assert (Hmax : Z.max 2 (8 - Z.rem id 4) = 8 - Z.rem id 4) by lia.
  rewrite Hmax. repeat split; try lia.
  intros Hid. pose proof (Z.rem_nonneg id 4 ltac:(lia) Hid). lia.
Qed.

Lemma default_spots_bounds_witness :
  0 <= 7
  /\ OpportunitiesView.spotsLabel 7 OpportunitiesView.SpotsMissing = "5 spots left"
  /\ OpportunitiesView.defaultSpots 7 <= 8.
Proof.
  split; [lia|]. split; [reflexivity|].
  apply (proj1 (proj2 (proj2 (default_spots_bounds 7)))). lia.
Defined.

(** * The filter on the criteria of the page *)

Lemma sample_lowerChar_twice (c : ascii) :
  Sample.lowerChar (Sample.lowerChar c) = Sample.lowerChar c.
Proof.
  destruct c as [[] [] [] [] [] [] [] []]; reflexivity.
Qed.

Lemma sample_toLowerCase_twice (s : string) :
  Sample.toLowerCase (Sample.toLowerCase s) = Sample.toLowerCase s.
Proof.
  induction s as [|c s IH]; simpl; [reflexivity|].
  rewrite sample_lowerChar_twice, IH. reflexivity.
Qed.

(** On a skill that the page can hold, comparing it as given with the
    lower-cased skills is comparing case-insensitively. *)
Lemma selectable_skill_facet {RT : JsRuntime}
  (catalog : list Opportunity) (c : Opportunities.Criteria) (o : Opportunity) :
  (forall label, toLowerCase (toLowerCase label) = toLowerCase label) ->
  selectableSkill catalog (Opportunities.skillFilter c) ->
  (skillFacet c o <-> skillFacetInsensitive c o).
Proof.
  intros Hstable [Hall | Hoption]; unfold skillFacet, skillFacetInsensitive.
  - split; intros _; left; exact Hall.
  - assert (Hlower : toLowerCase (Opportunities.skillFilter c)
                     = Opportunities.skillFilter c).
    { destruct (options_membership catalog (fun _ _ => 0)) as (_ & Hskills & _).
      apply (proj1 (Hskills _)) in Hoption.
      destruct Hoption as (o' & skill' & _ & _ & <-). apply Hstable. }
    rewrite Hlower. reflexivity.
Qed.

(** C3.  For every catalog, every criteria record that the page can hold
    (search text, location, skill, interest, first and last day; the skill
    is "all" or an option of the skill drop-down) and every opportunity, the
    opportunity appears in the filter result iff it is in the catalog and
    satisfies every facet: the search text, trimmed, occurs
    case-insensitively in the title, the description or a skill; the
    location is the requested one;
    the requested skill is among the skills, case-insensitively; the
    requested interest is among the interests, case-insensitively; the day
    of a parseable date lies within the bounds that are present, and an
    opportunity without a parseable date passes.  Setting any single facet
    to "no constraint" keeps every opportunity of the result in the result.
    Lower-casing is taken to leave a lower-cased text alone. *)
Theorem filter_conjunction_of_facets {RT : JsRuntime}
  (catalog : list Opportunity) (c : Opportunities.Criteria) (profile : UserProfile) :
  (forall label, toLowerCase (toLowerCase label) = toLowerCase label) ->
  selectableSkill catalog (Opportunities.skillFilter c) ->
  (forall o,
      In o (Opportunities.filteredOpportunities catalog c profile)
      <-> In o catalog /\ searchFacet c o /\ locationFacet c o
          /\ skillFacetInsensitive c o /\ interestFacet c o /\ dateFacet c o)
  /\ (forall f o,
         In o (Opportunities.filteredOpportunities catalog c profile) ->
         In o (Opportunities.filteredOpportunities catalog (unconstrained f c) profile)).
Proof.
  intros Hstable Hselectable.
  destruct (filter_facets_as_compared catalog c profile) as [Hiff Hgrows].
  split; [|exact Hgrows].
  intros o. rewrite Hiff.
  rewrite (selectable_skill_facet catalog c o Hstable Hselectable). reflexivity.
Qed.

(** On the example catalog: with the option "cooking" chosen, the soup
    kitchen, whose skill is written "Cooking", is in the result, and it
    stays there once the skill is free. *)
Lemma filter_conjunction_of_facets_witness :
  selectableSkill (RT := Sample.runtime) Example.catalog
    (Opportunities.skillFilter Example.cookingOption)
  /\ In Example.kitchen
       (Opportunities.filteredOpportunities (RT := Sample.runtime) Example.catalog
          Example.cookingOption Example.guest)
  /\ In Example.kitchen
       (Opportunities.filteredOpportunities (RT := Sample.runtime) Example.catalog
          (unconstrained Skill Example.cookingOption) Example.guest).
Proof.
  assert (Hselectable : selectableSkill (RT := Sample.runtime) Example.catalog
                          (Opportunities.skillFilter Example.cookingOption)).
  { right. vm_compute. tauto. }
  destruct (filter_conjunction_of_facets (RT := Sample.runtime) Example.catalog
              Example.cookingOption Example.guest sample_toLowerCase_twice Hselectable)
    as [Hiff Hgrows].
  assert (Hin : In Example.kitchen
                  (Opportunities.filteredOpportunities (RT := Sample.runtime)
                     Example.catalog Example.cookingOption Example.guest)).
  { apply Hiff.
    split; [simpl; tauto|].
    split; [left; reflexivity|].
    split; [left; reflexivity|].
    split; [right; exists "Cooking"; split; [left; reflexivity | reflexivity]|].
    split; [left; reflexivity|].
    vm_compute. exact I. }
  split; [exact Hselectable|]. split; [exact Hin|].
  apply Hgrows, Hin.
Defined.

(** * The earlier opportunities page *)

Lemma matchesDate_unbounded {RT : JsRuntime} (c : Opportunities.Criteria) (o : Opportunity) :
  Opportunities.dateRange_start c = "" -> Opportunities.dateRange_end c = "" ->
  Opportunities.matchesDate c o = true.
Proof.
  intros Hfirst Hlast. unfold Opportunities.matchesDate. rewrite Hfirst, Hlast.
  destruct (Opportunities.orElse (date o) (startDate o)) as [s|]; [|reflexivity].
  destruct (nonEmpty s); [|reflexivity].
  destruct (Opportunities.dayOf s); reflexivity.
Qed.

(** X18.  The effect that pre-selects a skill of the profile either leaves
    the skill filter as it is or sets it to an option of the skill
    drop-down: it never selects a value that the drop-down does not offer. *)
Theorem synced_skill_is_an_option {RT : JsRuntime}
  (catalog : list Opportunity) (profile : UserProfile) (skillFilter : string) :
  OpportunitiesLegacy.syncSkillFilter catalog profile skillFilter = skillFilter
  \/ In (OpportunitiesLegacy.syncSkillFilter catalog profile skillFilter)
       (OpportunitiesLegacy.skillOptions catalog).
Proof.
  unfold OpportunitiesLegacy.syncSkillFilter.
  destruct (0 <? List.length (orEmpty (user_skills profile)))%nat; [|left; reflexivity].
  destruct (find _ _) as [topSkill|] eqn:E; [|left; reflexivity].
  destruct (nonEmpty topSkill); [|left; reflexivity].
  right. apply find_some in E. destruct E as [_ E].
  apply (existsb_eqb_In _ _ String.eqb_eq) in E. exact E.
Qed.

(** X19.  For a profile without interests the earlier page filters as the
    current one does with the interest facet and the date range free: the
    same opportunities, in catalog order. *)
Theorem earlier_filter_without_interests {RT : JsRuntime}
  (catalog : list Opportunity) (searchTerm locationFilter skillFilter : string)
  (profile : UserProfile) :
  orEmpty (user_interests profile) = [] ->
  OpportunitiesLegacy.filteredOpportunities catalog searchTerm locationFilter skillFilter
    profile
  = filter
      (Opportunities.keeps
         (Opportunities.Build_Criteria searchTerm locationFilter skillFilter "all" "" ""))
      catalog.
Proof.
  intros Hnone. unfold OpportunitiesLegacy.filteredOpportunities. rewrite Hnone.
  apply filter_ext. intros o. unfold Opportunities.keeps.
  rewrite matchesDate_unbounded by reflexivity.
  cbn [Opportunities.searchTerm Opportunities.locationFilter Opportunities.skillFilter
       Opportunities.interestFilter List.length Nat.eqb orb andb].
  destruct (negb (nonEmpty (toLowerCase (trim searchTerm)))
            || includes (toLowerCase (title o)) (toLowerCase (trim searchTerm))
            || includes (toLowerCase (description o)) (toLowerCase (trim searchTerm))
            || existsb (fun skill => includes (toLowerCase skill)
                                       (toLowerCase (trim searchTerm))) (skills o));
    cbn [negb andb]; [|reflexivity].
  rewrite String.eqb_refl. cbn [orb]. rewrite !andb_true_r. reflexivity.
Qed.

Lemma earlier_filter_without_interests_witness :
  OpportunitiesLegacy.filteredOpportunities (RT := Sample.runtime) Example.catalog
    " TEACH " "all" "all" Example.guest
  = [Example.tutoring; Example.coding].
Proof.
  rewrite (earlier_filter_without_interests (RT := Sample.runtime) Example.catalog
             " TEACH " "all" "all" Example.guest eq_refl).
  vm_compute. reflexivity.
Defined.

(** X20.  The earlier page compares the lower-cased interests of an
    opportunity with the profile interests as written.  Where lower-casing
    twice is lower-casing once, a profile that has interests, none of them
    in lower case, therefore sees no opportunity at all, whatever the other
    filters. *)
Theorem earlier_filter_hides_all_for_capitalised_interests {RT : JsRuntime}
  (catalog : list Opportunity) (searchTerm locationFilter skillFilter : string)
  (profile : UserProfile) :
  (forall s, toLowerCase (toLowerCase s) = toLowerCase s) ->
  orEmpty (user_interests profile) <> [] ->
  Forall (fun u => toLowerCase u <> u) (orEmpty (user_interests profile)) ->
  OpportunitiesLegacy.filteredOpportunities catalog searchTerm locationFilter skillFilter
    profile
  = [].
Proof.
  intros Htwice Hsome Hcap. unfold OpportunitiesLegacy.filteredOpportunities.
  set (userInterests := orEmpty (user_interests profile)) in *.
  assert (Hnone : forall o,
             existsb (fun interest =>
                        existsb (String.eqb (toLowerCase interest)) userInterests)
               (interests o) = false).
  { intros o. destruct (existsb _ (interests o)) eqn:E; [|reflexivity].
    apply existsb_exists in E. destruct E as (interest & _ & E).
    apply (existsb_eqb_In _ _ String.eqb_eq) in E.
    rewrite Forall_forall in Hcap. specialize (Hcap _ E).
    exfalso. apply Hcap. apply Htwice. }
  induction catalog as [|o l IH]; [reflexivity|].
  cbn [filter]. rewrite Hnone.
  destruct userInterests as [|u rest]; [contradiction|].
  cbn [List.length Nat.eqb orb andb]. exact IH.
Qed.

Lemma earlier_filter_hides_all_for_capitalised_interests_witness :
  OpportunitiesLegacy.filteredOpportunities (RT := Sample.runtime) Example.catalog
    "" "all" "all" Example.formal
  = [].
Proof.
  apply (earlier_filter_hides_all_for_capitalised_interests (RT := Sample.runtime)).
  - exact sample_toLowerCase_twice.
  - discriminate.
  - simpl. constructor; [discriminate|]. constructor; [discriminate | constructor].
Defined.

(** * The application shell *)

(** X21.  Whatever the hash of the address, the route parsed from it is one
    of the routes of the navigation bar; and the hash written for a route
    of the navigation bar parses back to that route (the route names are
    lower-case: lower-casing leaves them alone). *)
Theorem hash_routes_round_trip {RT : JsRuntime} :
  (forall hash,
      In (AppShell.parseHashRoute hash) (map AppShell.route AppShell.NAV_ITEMS))
  /\ (forall item,
         In item AppShell.NAV_ITEMS ->
         toLowerCase (AppShell.route item) = AppShell.route item ->
         AppShell.parseHashRoute (Some (AppShell.hashForRoute (AppShell.route item)))
         = AppShell.route item).
Proof.
  split.
  - intros [h|]; unfold AppShell.parseHashRoute; [|simpl; tauto].
    cbv zeta.
    destruct (negb _ || _); [simpl; tauto|].
    destruct (_ =? "opportunities")%string; [simpl; tauto|].
    destruct (_ =? "profile")%string; simpl; tauto.
  - intros item [<- | [<- | [<- | []]]] Hlower;
      cbn [AppShell.route] in *; cbn [AppShell.hashForRoute String.eqb Ascii.eqb Bool.eqb];
      unfold AppShell.parseHashRoute; cbn [AppShell.dropLeading Ascii.eqb Bool.eqb].
    + rewrite toLowerCase_empty. reflexivity.
    + simpl. rewrite Hlower. reflexivity.
    + simpl. rewrite Hlower. reflexivity.
Qed.

Lemma hash_routes_round_trip_witness :
  AppShell.parseHashRoute (RT := Sample.runtime) (Some "#/opportunities")
  = "opportunities".
Proof.
  refine (proj2 (hash_routes_round_trip (RT := Sample.runtime))
            {| AppShell.route := "opportunities"; AppShell.label := "Opportunities" |}
            _ _).
  - simpl. tauto.
  - reflexivity.
Defined.

Lemma lookup_app (name : string) (first second : list (string * json)) :
  lookup name (first ++ second)
  = match lookup name first with
    | Some v => Some v
    | None => lookup name second
    end.
Proof.
  induction first as [|[k v] first IH]; simpl; [reflexivity|].
  destruct (k =? name)%string; [reflexivity | exact IH].
Qed.

(** X22.  The profile read from storage always has a name and an interests
    array.  When nothing is stored, or the storage or the parser throws, it
    is the default profile.  When an object is stored, every property other
    than [interests] is kept as stored, [interests] is kept when it is an
    array and replaced by the default interests otherwise, and a missing
    name is the default name. *)
Theorem stored_profile_is_repaired {RT : JsRuntime} (item : AppShell.StoredItem) :
  (exists items, lookup "interests" (AppShell.readProfileFromStorage item)
                 = Some (JArr items))
  /\ (exists v, lookup "name" (AppShell.readProfileFromStorage item) = Some v)
  /\ (item = AppShell.NoWindow \/ item = AppShell.StorageThrows
      \/ item = AppShell.Item None \/ item = AppShell.Item (Some "")
      \/ (exists stored, item = AppShell.Item (Some stored) /\ JSON_parse stored = None)
      -> AppShell.readProfileFromStorage item = AppShell.DEFAULT_PROFILE)
  /\ (forall stored fields,
         item = AppShell.Item (Some stored) ->
         JSON_parse stored = Some (JObj fields) ->
         (forall k v, k <> "interests" -> lookup k fields = Some v ->
                      lookup k (AppShell.readProfileFromStorage item) = Some v)
         /\ (forall items, lookup "interests" fields = Some (JArr items) ->
                           lookup "interests" (AppShell.readProfileFromStorage item)
                           = Some (JArr items))
         /\ ((forall items, lookup "interests" fields <> Some (JArr items)) ->
             lookup "interests" (AppShell.readProfileFromStorage item)
             = Some (JArr [JStr "environment"]))
         /\ (lookup "name" fields = None ->
             lookup "name" (AppShell.readProfileFromStorage item)
             = Some (JStr "Guest User"))).
Proof.
  assert (Harray : forall v fallback,
             exists items, AppShell.arrayOr v (JArr fallback) = JArr items).
  { intros v fallback. destruct v as [[]|]; simpl; eauto. }
  split; [|split; [|split]].
  - destruct item as [| |[stored|]]; simpl; eauto.
    destruct (nonEmpty stored); simpl; eauto.
    destruct (JSON_parse stored) as [parsed|]; simpl; eauto.
    destruct (Harray (AppShell.interestsOf parsed) [JStr "environment"]) as (items & ->).
    eauto.
  - destruct item as [| |[stored|]]; simpl; eauto.
    destruct (nonEmpty stored); simpl; eauto.
    destruct (JSON_parse stored) as [parsed|]; simpl; eauto.
    rewrite lookup_app. destruct (lookup "name" (AppShell.spread parsed)); simpl; eauto.
  - intros [-> | [-> | [-> | [-> | (stored & -> & Hp)]]]]; try reflexivity.
    simpl. rewrite Hp. destruct (nonEmpty stored); reflexivity.
  - intros stored fields -> Hp. simpl.
    assert (Hstored : nonEmpty stored = true).
    { destruct stored; [|reflexivity]. rewrite JSON_parse_empty in Hp. discriminate. }
    rewrite Hstored, Hp. cbn [AppShell.spread AppShell.interestsOf].
    split; [|split; [|split]].
    + intros k v Hk Hv. cbn [lookup].
      destruct ("interests" =? k)%string eqn:E;
        [apply String.eqb_eq in E; congruence|].
      rewrite lookup_app, Hv. reflexivity.
    + intros items Hi. simpl. rewrite Hi. reflexivity.
    + intros Hno. simpl. destruct (lookup "interests" fields) as [[]|]; try reflexivity.
      exfalso. eapply Hno. reflexivity.
    + intros Hname. simpl. rewrite lookup_app, Hname. reflexivity.
Qed.

(** The stored profile with the name Ann and interests that are no array:
    the name is kept, the interests are the default ones. *)
Lemma stored_profile_is_repaired_witness :
  lookup "name"
    (AppShell.readProfileFromStorage (RT := Example.profileRuntime)
       (AppShell.Item (Some Example.storedProfileText)))
  = Some (JStr "Ann")
  /\ lookup "interests"
       (AppShell.readProfileFromStorage (RT := Example.profileRuntime)
          (AppShell.Item (Some Example.storedProfileText)))
     = Some (JArr [JStr "environment"]).
Proof.
  destruct (proj2 (proj2 (proj2
              (stored_profile_is_repaired (RT := Example.profileRuntime)
                 (AppShell.Item (Some Example.storedProfileText)))))
              Example.storedProfileText
              [("name", JStr "Ann"); ("interests", JStr "not-an-array")]
              eq_refl eq_refl)
    as (Hkept & _ & Hdefault & _).
  split.
  - apply Hkept; [discriminate | reflexivity].
  - apply Hdefault. intros items. discriminate.
Defined.

(** ** The comma-separated interests field *)

Lemma split_join (labels : list string) :
  forall label,
    Forall (fun l => forall c, In c (list_ascii_of_string l) -> c <> ","%char)
      (label :: labels) ->
    split "," (join ", " (label :: labels))
    = label :: map (fun l => " " ++ l) labels.
Proof.
  induction labels as [|next labels IH]; intros label Hplain.
  - apply split_plain_last. exact (Forall_inv Hplain).
  - change (join ", " (label :: next :: labels))
      with (label ++ String "," (String " " (join ", " (next :: labels)))).
    rewrite split_plain by exact (Forall_inv Hplain).
    f_equal. cbn [split Ascii.eqb Bool.eqb].
    rewrite IH by apply (Forall_inv_tail Hplain). reflexivity.
Qed.

(** X23.  The profile form shows the interests joined by a comma and a
    space.  Saving the form without editing that text stores the interests
    unchanged, provided each of them is a plain label: not empty, free of
    commas, and untouched by trimming. *)
Theorem unedited_interests_survive_save {RT : JsRuntime}
  (name : string) (profileInterests : list string) :
  Forall plainLabel profileInterests ->
  App.profile_interests (App.handleSubmit name (join ", " profileInterests))
  = profileInterests.
Proof.
  intros Hplain. cbn [App.handleSubmit App.profile_interests]. unfold App.interestList.
  destruct profileInterests as [|label labels].
  - simpl. rewrite trim_empty. reflexivity.
  - rewrite split_join.
    + inversion Hplain as [|? ? (Hne & _ & Htrim & _) Hrest]; subst.
      cbn [map filter]. rewrite Htrim.
      assert (Hkeep : nonEmpty label = true).
      { unfold nonEmpty. apply negb_true_iff, String.eqb_neq, Hne. }
      rewrite Hkeep. f_equal.
      clear Hplain Hkeep Htrim Hne. induction Hrest as [|l ls (Hne & _ & _ & Htrim) _ IH];
        [reflexivity|].
      cbn [map filter]. rewrite Htrim.
      assert (Hkeep : nonEmpty l = true).
      { unfold nonEmpty. apply negb_true_iff, String.eqb_neq, Hne. }
      rewrite Hkeep, IH. reflexivity.
    + eapply Forall_impl; [|exact Hplain]. intros l (_ & Hc & _). exact Hc.
Qed.

Lemma unedited_interests_survive_save_witness :
  App.profile_interests
    (App.handleSubmit (RT := Sample.runtime) "Ann"
       (join ", " ["environment"; "Animal care"; "art"]))
  = ["environment"; "Animal care"; "art"].
Proof.
  apply (unedited_interests_survive_save (RT := Sample.runtime)).
  repeat (constructor;
          [split; [discriminate|];
           split; [simpl; intros c Hc;
                   repeat (destruct Hc as [<- | Hc]; [discriminate|]); contradiction|];
           split; reflexivity|]).
  constructor.
Defined.

(** ** The runs of the recommendations effect *)

Section LiveRun.

Context {RT : JsRuntime}.
Variable allOpportunities : list Opportunity.
Variable opportunitiesList : string.

Lemma settle_keeps_runs (st : App.PageState) (k : nat) (how : App.Settlement) :
  App.runs (App.step allOpportunities opportunitiesList st (App.Settled k how))
  = App.runs st.
Proof.
  simpl. destruct (nth_error (App.runs st) k) as [r|]; [|reflexivity].
  destruct (App.ignore r); [reflexivity|]. destruct how; reflexivity.
Qed.

Lemma step_oneLiveRun (st : App.PageState) (e : App.PageEvent) :
  oneLiveRun (App.runs st) ->
  oneLiveRun (App.runs (App.step allOpportunities opportunitiesList st e)).
Proof.
  intros Hone. destruct e as [profile | k how].
  - right. cbn [App.step App.runs].
    destruct Hone as [-> | (earlier & latest & -> & Hearlier & _)].
    + exists [], {| App.ignore := false;
                    App.requested := filter nonEmpty (App.profile_interests profile) |}.
      repeat split. constructor.
    + rewrite cleanupLast_snoc. eexists _, _. split; [reflexivity|]. split; [|reflexivity].
      apply Forall_app. split; [exact Hearlier|]. constructor; [reflexivity | constructor].
  - rewrite settle_keeps_runs. exact Hone.
Qed.

Lemma run_oneLiveRun (events : list App.PageEvent) :
  forall st,
    oneLiveRun (App.runs st) ->
    oneLiveRun (App.runs (App.run allOpportunities opportunitiesList st events)).
Proof.
  induction events as [|e events IH]; intros st Hone; [exact Hone|].
  apply (IH _ (step_oneLiveRun st e Hone)).
Qed.

Lemma older_settlements_are_idle (events : list App.PageEvent) :
  forall st,
    oneLiveRun (App.runs st) ->
    Forall (fun e => match e with
                     | App.ProfileChanged _ => False
                     | App.Settled k _ => (S k < List.length (App.runs st))%nat
                     end) events ->
    App.run allOpportunities opportunitiesList st events = st.
Proof.
  induction events as [|e events IH]; intros st Hone Hold; [reflexivity|].
  inversion Hold as [|? ? He Hrest]; subst.
  destruct e as [profile | k how]; [contradiction|].
  assert (Hidle : App.step allOpportunities opportunitiesList st (App.Settled k how) = st).
  { destruct Hone as [Hnil | (earlier & latest & Hruns & Hearlier & _)].
    - rewrite Hnil in He. simpl in He. lia.
    - rewrite Hruns, length_app in He. simpl in He.
      destruct (nth_error earlier k) as [r|] eqn:Hk;
        [|apply nth_error_None in Hk; lia].
      apply (settle_ignored allOpportunities opportunitiesList st k r how).
      + rewrite Hruns, nth_error_app1 by lia. exact Hk.
      + rewrite Forall_forall in Hearlier. apply Hearlier.
        eapply nth_error_In, Hk. }
  change (App.run allOpportunities opportunitiesList st (App.Settled k how :: events))
    with (App.run allOpportunities opportunitiesList
            (App.step allOpportunities opportunitiesList st (App.Settled k how)) events).
  rewrite Hidle. apply IH; assumption.
Qed.

End LiveRun.

(** X24.  However the profile changes and the ranking calls settle, at most
    one run of the effect is live: every run but the latest has its
    [ignore] flag set, and the latest has not. *)
Theorem one_live_run {RT : JsRuntime}
  (catalog : list Opportunity) (opportunitiesList : string)
  (events : list App.PageEvent) :
  oneLiveRun (App.runs (App.run catalog opportunitiesList App.initialPage events)).
Proof.
  apply run_oneLiveRun. left. reflexivity.
Qed.

(** X25.  After a change of the profile the page keeps loading, keeps the
    recommendations it showed and shows no error for as long as only older
    ranking calls settle, in whatever number and order and with whatever
    result: the page state stays the one reached by the change. *)
Theorem page_loads_until_latest_settles {RT : JsRuntime}
  (catalog : list Opportunity) (opportunitiesList : string)
  (before : list App.PageEvent) (profile : App.Profile) (older : list App.PageEvent) :
  Forall
    (settlesOlderRun (App.run catalog opportunitiesList App.initialPage before)) older ->
  App.run catalog opportunitiesList
    (App.step catalog opportunitiesList
       (App.run catalog opportunitiesList App.initialPage before)
       (App.ProfileChanged profile))
    older
  = App.step catalog opportunitiesList
      (App.run catalog opportunitiesList App.initialPage before)
      (App.ProfileChanged profile)
  /\ App.loading
       (App.run catalog opportunitiesList
          (App.step catalog opportunitiesList
             (App.run catalog opportunitiesList App.initialPage before)
             (App.ProfileChanged profile))
          older)
     = true
  /\ App.recommended
       (App.run catalog opportunitiesList
          (App.step catalog opportunitiesList
             (App.run catalog opportunitiesList App.initialPage before)
             (App.ProfileChanged profile))
          older)
     = App.recommended (App.run catalog opportunitiesList App.initialPage before)
  /\ App.error
       (App.run catalog opportunitiesList
          (App.step catalog opportunitiesList
             (App.run catalog opportunitiesList App.initialPage before)
             (App.ProfileChanged profile))
          older)
     = "".
Proof.
  intros Holder.
  set (st := App.run catalog opportunitiesList App.initialPage before) in *.
  assert (Hidle : App.run catalog opportunitiesList
                    (App.step catalog opportunitiesList st (App.ProfileChanged profile))
                    older
                  = App.step catalog opportunitiesList st (App.ProfileChanged profile)).
  { apply older_settlements_are_idle.
    - apply step_oneLiveRun. apply run_oneLiveRun. left. reflexivity.
    - eapply Forall_impl; [|exact Holder].
      intros [p | k how]; [intros []|]. unfold settlesOlderRun.
      cbn [App.step App.runs]. rewrite length_app, cleanupLast_length. simpl. lia. }
  rewrite Hidle. split; [reflexivity|]. split; [reflexivity|]. split; reflexivity.
Qed.

Lemma page_loads_until_latest_settles_witness :
  App.loading
    (App.run (RT := Sample.runtime) Example.catalog Example.opportunitiesList
       (App.step (RT := Sample.runtime) Example.catalog Example.opportunitiesList
          (App.run (RT := Sample.runtime) Example.catalog Example.opportunitiesList
             App.initialPage [App.ProfileChanged App.DEFAULT_PROFILE])
          (App.ProfileChanged App.DEFAULT_PROFILE))
       [App.Settled 0 (App.Resolved (Example.always FetchRejected));
        App.Settled 0 App.Rejected])
  = true.
Proof.
  apply (page_loads_until_latest_settles (RT := Sample.runtime) Example.catalog
           Example.opportunitiesList [App.ProfileChanged App.DEFAULT_PROFILE]
           App.DEFAULT_PROFILE
           [App.Settled 0 (App.Resolved (Example.always FetchRejected));
            App.Settled 0 App.Rejected]).
  repeat constructor.
Defined.

(** ** The calendar of the profile page *)

Lemma padToWeek_fills (fuel : nat) :
  forall cells : list (option ProfileCalendar.Cell),
    ((7 - List.length cells mod 7) mod 7 <= fuel)%nat ->
    ProfileCalendar.padToWeek fuel cells
    = (cells ++ repeat None ((7 - List.length cells mod 7) mod 7))%list.
Proof.
  induction fuel as [|fuel IH]; intros cells Hfuel.
  - apply Nat.le_0_r in Hfuel. rewrite Hfuel. simpl. now rewrite app_nil_r.
  - cbn [ProfileCalendar.padToWeek].
    destruct (List.length cells mod 7 =? 0)%nat eqn:Hfull.
    + apply Nat.eqb_eq in Hfull. rewrite Hfull. simpl. now rewrite app_nil_r.
    + apply Nat.eqb_neq in Hfull.
      assert (Hlen : List.length (cells ++ [None]) = S (List.length cells))
        by (rewrite length_app; simpl; lia).
      pose proof (Nat.mod_upper_bound (List.length cells) 7 ltac:(lia)) as Hlt.
      pose proof (Nat.div_mod_eq (List.length cells) 7) as Hdiv.
      assert (Hnext : ((7 - List.length (cells ++ [None]) mod 7) mod 7
                       = (7 - List.length cells mod 7) mod 7 - 1)%nat).
      { rewrite Hlen.
        rewrite (Nat.mod_small (7 - List.length cells mod 7) 7) by lia.
        destruct (Nat.eq_dec (List.length cells mod 7) 6) as [Hsix | Hless].
        - replace (S (List.length cells)) with (0 + (List.length cells / 7 + 1) * 7)%nat
            by lia.
          rewrite Nat.Div0.mod_add, Hsix. reflexivity.
        - replace (S (List.length cells))
            with (S (List.length cells mod 7) + (List.length cells / 7) * 7)%nat by lia.
          rewrite Nat.Div0.mod_add.
          rewrite (Nat.mod_small (S (List.length cells mod 7)) 7) by lia.
          rewrite Nat.mod_small by lia. lia. }
      rewrite IH by lia. rewrite Hnext, <- app_assoc.
      rewrite (Nat.mod_small (7 - List.length cells mod 7) 7) by lia.
      replace (7 - List.length cells mod 7)%nat
        with (S (7 - List.length cells mod 7 - 1)) at 2 by lia.
      reflexivity.
Qed.

Lemma padToWeek_appends (fuel : nat) :
  forall cells : list (option ProfileCalendar.Cell),
    exists padding,
      ProfileCalendar.padToWeek fuel cells = (cells ++ repeat None padding)%list.
Proof.
  induction fuel as [|fuel IH]; intros cells.
  - exists 0%nat. simpl. now rewrite app_nil_r.
  - cbn [ProfileCalendar.padToWeek].
    destruct (List.length cells mod 7 =? 0)%nat.
    + exists 0%nat. simpl. now rewrite app_nil_r.
    + destruct (IH (cells ++ [None])%list) as [padding ->].
      exists (S padding). now rewrite <- app_assoc.
Qed.

Lemma dayCells_length (y m : Z) (upcoming : option ProfileCalendar.Day) (count : nat) :
  forall first,
    List.length (ProfileCalendar.dayCells y m upcoming first count) = count.
Proof.
  induction count as [|count IH]; intros first; simpl; [reflexivity|].
  now rewrite IH.
Qed.

Lemma dayCells_In (y m : Z) (upcoming : option ProfileCalendar.Day) (count : nat) :
  forall first cell,
    In (Some cell) (ProfileCalendar.dayCells y m upcoming first count) ->
    first <= ProfileCalendar.label cell < first + Z.of_nat count
    /\ ProfileCalendar.key cell = "day-" ++ Number_toString (ProfileCalendar.label cell)
    /\ ProfileCalendar.isSelected cell
       = ProfileCalendar.selects upcoming
           {| ProfileCalendar.fullYear := ProfileCalendar.Date_year y;
              ProfileCalendar.month := m;
              ProfileCalendar.dayOfMonth := ProfileCalendar.label cell |}.
Proof.
  induction count as [|count IH]; intros first cell Hin; [destruct Hin|].
  destruct Hin as [Hhere | Hlater].
  - injection Hhere as <-. cbn. split; [lia|]. split; reflexivity.
  - destruct (IH _ _ Hlater) as (Hrange & Hrest). split; [lia | exact Hrest].
Qed.

(** X26.  The calendar is made of whole weeks: the cells are the empty cells
    before the first of the month, one cell for each day, and fewer than
    seven empty cells after the last day, as many as round the number of
    cells up to the next multiple of seven; six rounds of the last loop are
    always enough. *)
Theorem calendar_fills_whole_weeks
  (fuel : nat) (displayYear displayMonth : Z) (firstDayOfMonth daysInMonth : nat)
  (upcoming : option ProfileCalendar.Day) :
  (6 <= fuel)%nat ->
  exists padding,
    (padding < 7)%nat
    /\ ProfileCalendar.calendarCells fuel displayYear displayMonth firstDayOfMonth
         daysInMonth upcoming
       = (repeat None firstDayOfMonth
          ++ ProfileCalendar.dayCells displayYear displayMonth upcoming 1 daysInMonth
          ++ repeat None padding)%list
    /\ List.length
         (ProfileCalendar.calendarCells fuel displayYear displayMonth firstDayOfMonth
            daysInMonth upcoming)
       = (7 * ((firstDayOfMonth + daysInMonth + 6) / 7))%nat.
Proof.
  intros Hfuel. unfold ProfileCalendar.calendarCells.
  set (cells := (repeat None firstDayOfMonth
                 ++ ProfileCalendar.dayCells displayYear displayMonth upcoming 1
                      daysInMonth)%list).
  assert (Hlen : List.length cells = (firstDayOfMonth + daysInMonth)%nat).
  { unfold cells. now rewrite length_app, repeat_length, dayCells_length. }
  pose proof (Nat.mod_upper_bound (List.length cells) 7 ltac:(lia)) as Hlt.
  pose proof (Nat.mod_upper_bound (7 - List.length cells mod 7) 7 ltac:(lia)) as Hpad.
  exists ((7 - List.length cells mod 7) mod 7)%nat.
  rewrite padToWeek_fills by lia.
  split; [exact Hpad|]. split.
  - unfold cells. now rewrite <- app_assoc.
  - rewrite length_app, repeat_length, Hlen.
    pose proof (Nat.div_mod_eq (firstDayOfMonth + daysInMonth) 7) as Hdiv.
    pose proof (Nat.mod_upper_bound (firstDayOfMonth + daysInMonth) 7 ltac:(lia)) as Hr.
    destruct (Nat.eq_dec ((firstDayOfMonth + daysInMonth) mod 7) 0) as [Hzero | Hpos].
    + rewrite Hzero. simpl (((7 - 0) mod 7)%nat).
      replace (firstDayOfMonth + daysInMonth + 6)%nat
        with (6 + ((firstDayOfMonth + daysInMonth) / 7) * 7)%nat by lia.
      rewrite Nat.div_add by lia. simpl ((6 / 7)%nat). lia.
    + rewrite (Nat.mod_small (7 - (firstDayOfMonth + daysInMonth) mod 7) 7) by lia.
      replace (firstDayOfMonth + daysInMonth + 6)%nat
        with (((firstDayOfMonth + daysInMonth) mod 7 - 1)
              + ((firstDayOfMonth + daysInMonth) / 7 + 1) * 7)%nat by lia.
      rewrite Nat.div_add by lia.
      rewrite (Nat.div_small ((firstDayOfMonth + daysInMonth) mod 7 - 1) 7) by lia.
      lia.
Qed.

Lemma calendar_fills_whole_weeks_witness :
  exists padding,
    (padding < 7)%nat
    /\ ProfileCalendar.calendarCells 6 2025 1 6 28 None
       = (repeat None 6 ++ ProfileCalendar.dayCells 2025 1 None 1 28
          ++ repeat None padding)%list
    /\ List.length (ProfileCalendar.calendarCells 6 2025 1 6 28 None)
       = (7 * ((6 + 28 + 6) / 7))%nat.
Proof.
  apply (calendar_fills_whole_weeks 6 2025 1 6 28 None). lia.
Defined.

(** X27.  Every day cell of the calendar carries a day of the month from 1
    to the number of days, its key is made from that day, and it is marked
    as selected exactly when there is an upcoming date that falls on that
    day of the displayed month and year. *)
Theorem calendar_marks_the_upcoming_day
  (fuel : nat) (displayYear displayMonth : Z) (firstDayOfMonth daysInMonth : nat)
  (upcoming : option ProfileCalendar.Day) (cell : ProfileCalendar.Cell) :
  In (Some cell)
    (ProfileCalendar.calendarCells fuel displayYear displayMonth firstDayOfMonth
       daysInMonth upcoming) ->
  1 <= ProfileCalendar.label cell <= Z.of_nat daysInMonth
  /\ ProfileCalendar.key cell = "day-" ++ Number_toString (ProfileCalendar.label cell)
  /\ (ProfileCalendar.isSelected cell = true <->
      exists day,
        upcoming = Some day
        /\ ProfileCalendar.fullYear day = ProfileCalendar.Date_year displayYear
        /\ ProfileCalendar.month day = displayMonth
        /\ ProfileCalendar.dayOfMonth day = ProfileCalendar.label cell).
Proof.
  intros Hin. unfold ProfileCalendar.calendarCells in Hin.
  destruct (padToWeek_appends fuel
              (repeat None firstDayOfMonth
               ++ ProfileCalendar.dayCells displayYear displayMonth upcoming 1
                    daysInMonth)%list) as [padding Hpad].
  rewrite Hpad in Hin.
  assert (Hday : In (Some cell)
                   (ProfileCalendar.dayCells displayYear displayMonth upcoming 1
                      daysInMonth)).
  { apply in_app_or in Hin. destruct Hin as [Hin | Hin].
    - apply in_app_or in Hin. destruct Hin as [Hin | Hin]; [|exact Hin].
      apply repeat_spec in Hin. discriminate.
    - apply repeat_spec in Hin. discriminate. }
  destruct (dayCells_In _ _ _ _ _ _ Hday) as (Hrange & Hkey & Hsel).
  split; [lia|]. split; [exact Hkey|].
  rewrite Hsel. unfold ProfileCalendar.selects.
  destruct upcoming as [day|]; cbn.
  - split.
    + intros Hall. apply andb_prop in Hall. destruct Hall as [Hym Hd].
      apply andb_prop in Hym. destruct Hym as [Hy Hm].
      apply Z.eqb_eq in Hy, Hm, Hd. exists day. repeat split; congruence.
    + intros (day' & Hsome & Hy & Hm & Hd). injection Hsome as <-.
      rewrite Hy, Hm, Hd, !Z.eqb_refl. reflexivity.
  - split; [discriminate|]. intros (day & Hsome & _). discriminate.
Qed.

Lemma calendar_marks_the_upcoming_day_witness :
  1 <= 14 <= Z.of_nat 28
  /\ "day-14" = "day-" ++ Number_toString 14
  /\ (true = true <->
      exists day,
        Some {| ProfileCalendar.fullYear := 2025; ProfileCalendar.month := 1;
                ProfileCalendar.dayOfMonth := 14 |} = Some day
        /\ ProfileCalendar.fullYear day = ProfileCalendar.Date_year 2025
        /\ ProfileCalendar.month day = 1
        /\ ProfileCalendar.dayOfMonth day = 14).
Proof.
  apply (calendar_marks_the_upcoming_day 6 2025 1 6 28
           (Some {| ProfileCalendar.fullYear := 2025; ProfileCalendar.month := 1;
                    ProfileCalendar.dayOfMonth := 14 |})
           {| ProfileCalendar.key := "day-14"; ProfileCalendar.label := 14;
              ProfileCalendar.isSelected := true |}).
  vm_compute. do 19 right. left. reflexivity.
Defined.

(** ** The quiz modal *)

Lemma quiz_submit_cases
  (networkErrorMessage jsonErrorMessage typeErrorMessage : string)
  (outcome : FetchOutcome) :
  (exists status data tags,
      outcome = FetchResponse status (Some data)
      /\ 200 <= status <= 299
      /\ getProp (Some data) "tags" = Normal tags
      /\ QuizModal.handleSubmit networkErrorMessage jsonErrorMessage typeErrorMessage
           outcome
         = {| QuizModal.isLoading := false; QuizModal.apiResponse := tags;
              QuizModal.apiError := None |})
  \/ ((exists message,
          QuizModal.handleSubmit networkErrorMessage jsonErrorMessage typeErrorMessage
            outcome
          = {| QuizModal.isLoading := false; QuizModal.apiResponse := None;
               QuizModal.apiError := Some message |})
      /\ forall status data tags,
           outcome = FetchResponse status (Some data) ->
           200 <= status <= 299 ->
           getProp (Some data) "tags" <> Normal tags).
Proof.
  unfold QuizModal.handleSubmit, QuizModal.requestTags.
  destruct outcome as [|status body].
  - right. split; [eexists; reflexivity|]. intros ? ? ? [=].
  - destruct (QuizModal.ok status) eqn:Hok.
    + assert (Hrange : 200 <= status <= 299).
      { unfold QuizModal.ok in Hok. apply andb_prop in Hok. lia. }
      destruct body as [data|].
      * destruct (getProp (Some data) "tags") as [tags|] eqn:Htags.
        -- left. exists status, data, tags. repeat split; try lia; assumption.
        -- right. split; [eexists; reflexivity|].
           intros status' data' tags [= <- <-] _. rewrite Htags. discriminate.
      * right. split; [eexists; reflexivity|]. intros ? ? ? [=].
    + right. split; [eexists; reflexivity|].
      intros status' data' tags [= <- _] Hrange.
      unfold QuizModal.ok in Hok. apply andb_false_iff in Hok. lia.
Qed.

Lemma feedback_of_tags (tags : option json) (interestTags skillTags : list json) :
  QuizModal.renderContent
    {| QuizModal.isLoading := false; QuizModal.apiResponse := tags;
       QuizModal.apiError := None |}
  = Normal (QuizModal.FeedbackScreen interestTags skillTags)
  <-> exists value,
        tags = Some value
        /\ getProp (Some value) "interests" = Normal (Some (JArr interestTags))
        /\ getProp (Some value) "skills" = Normal (Some (JArr skillTags)).
Proof.
  unfold QuizModal.renderContent, QuizModal.errorShown.
  cbn [QuizModal.isLoading QuizModal.apiError QuizModal.apiResponse].
  split.
  - destruct tags as [value|]; [|discriminate].
    destruct (truthy (Some value)); [|discriminate].
    destruct (getProp (Some value) "interests") as [interests|] eqn:Hinterests;
      [|discriminate].
    destruct (getProp (Some value) "skills") as [skills|] eqn:Hskills;
      [|destruct interests as [[]|]; discriminate].
    destruct interests as [[]|]; try discriminate.
    destruct skills as [[]|]; try discriminate.
    intros Hscreen. cbn in Hscreen. injection Hscreen as <- <-.
    exists value. split; [reflexivity|]. split; assumption.
  - intros (value & -> & Hinterests & Hskills).
    assert (Htruthy : truthy (Some value) = true).
    { destruct value; try discriminate; reflexivity. }
    rewrite Htruthy, Hinterests, Hskills. reflexivity.
Qed.

(** X28.  When the request of the quiz has settled the modal no longer
    loads and never holds both an error and tags.  [renderContent] then
    returns the feedback screen, the only screen with the button "Great!
    See My Matches", exactly when the service answered with a 2xx status
    and a JSON body whose [tags] property has arrays as its [interests] and
    [skills].  A click on that button hands the [tags] property to the
    application; a click on the overlay or on the button [x] hands over
    nothing, whatever the answer was. *)
Theorem quiz_hands_over_tags_of_good_reply
  (networkErrorMessage jsonErrorMessage typeErrorMessage : string)
  (outcome : FetchOutcome) :
  QuizModal.isLoading
    (QuizModal.handleSubmit networkErrorMessage jsonErrorMessage typeErrorMessage outcome)
  = false
  /\ (QuizModal.apiError
        (QuizModal.handleSubmit networkErrorMessage jsonErrorMessage typeErrorMessage
           outcome) = None
      \/ QuizModal.apiResponse
           (QuizModal.handleSubmit networkErrorMessage jsonErrorMessage typeErrorMessage
              outcome) = None)
  /\ (forall interestTags skillTags,
        QuizModal.renderContent
          (QuizModal.handleSubmit networkErrorMessage jsonErrorMessage typeErrorMessage
             outcome)
        = Normal (QuizModal.FeedbackScreen interestTags skillTags)
        <-> exists status data tags,
              outcome = FetchResponse status (Some data)
              /\ 200 <= status <= 299
              /\ getProp (Some data) "tags" = Normal (Some tags)
              /\ getProp (Some tags) "interests" = Normal (Some (JArr interestTags))
              /\ getProp (Some tags) "skills" = Normal (Some (JArr skillTags)))
  /\ (forall screen,
        QuizModal.renderContent
          (QuizModal.handleSubmit networkErrorMessage jsonErrorMessage typeErrorMessage
             outcome)
        = Normal screen ->
        QuizModal.rendered screen QuizModal.SeeMyMatches = true ->
        exists status data tags,
          outcome = FetchResponse status (Some data)
          /\ getProp (Some data) "tags" = Normal (Some tags)
          /\ QuizModal.handedOver QuizModal.SeeMyMatches
               (QuizModal.handleSubmit networkErrorMessage jsonErrorMessage
                  typeErrorMessage outcome)
             = Some tags)
  /\ QuizModal.handedOver QuizModal.Overlay
       (QuizModal.handleSubmit networkErrorMessage jsonErrorMessage typeErrorMessage
          outcome) = None
  /\ QuizModal.handedOver QuizModal.CloseButton
       (QuizModal.handleSubmit networkErrorMessage jsonErrorMessage typeErrorMessage
          outcome) = None.
Proof.
  assert (Hfeedback :
            forall interestTags skillTags,
              QuizModal.renderContent
                (QuizModal.handleSubmit networkErrorMessage jsonErrorMessage
                   typeErrorMessage outcome)
              = Normal (QuizModal.FeedbackScreen interestTags skillTags)
              <-> exists status data tags,
                    outcome = FetchResponse status (Some data)
                    /\ 200 <= status <= 299
                    /\ getProp (Some data) "tags" = Normal (Some tags)
                    /\ getProp (Some tags) "interests"
                       = Normal (Some (JArr interestTags))
                    /\ getProp (Some tags) "skills" = Normal (Some (JArr skillTags))).
  { intros interestTags skillTags.
    destruct (quiz_submit_cases networkErrorMessage jsonErrorMessage typeErrorMessage
                outcome)
      as [(status & data & tags & Hout & Hrange & Htags & ->)
         | [(message & ->) Hnone]].
    - rewrite feedback_of_tags. split.
      + intros (value & -> & Hi & Hs). exists status, data, value. tauto.
      + intros (status' & data' & value & Hout' & _ & Htags' & Hi & Hs).
        rewrite Hout in Hout'. injection Hout' as <- <-.
        rewrite Htags in Htags'. injection Htags' as ->.
        exists value. tauto.
    - split.
      + unfold QuizModal.renderContent, QuizModal.errorShown.
        cbn [QuizModal.isLoading QuizModal.apiError QuizModal.apiResponse truthy].
        destruct (nonEmpty message); discriminate.
      + intros (status & data & tags & Hout & Hrange & Htags & _).
        destruct (Hnone status data (Some tags) Hout Hrange Htags). }
  split; [|split; [|split; [exact Hfeedback|split; [|split; reflexivity]]]].
  - destruct (quiz_submit_cases networkErrorMessage jsonErrorMessage typeErrorMessage
                outcome)
      as [(? & ? & ? & _ & _ & _ & ->) | [(? & ->) _]]; reflexivity.
  - destruct (quiz_submit_cases networkErrorMessage jsonErrorMessage typeErrorMessage
                outcome)
      as [(? & ? & ? & _ & _ & _ & ->) | [(? & ->) _]]; [left | right]; reflexivity.
  - intros screen Hscreen Hbutton.
    destruct screen as [|message|interestTags skillTags|]; try discriminate.
    pose proof (proj1 (Hfeedback interestTags skillTags) Hscreen)
      as (status & data & tags & Hout & Hrange & Htags & Hi & _).
    exists status, data, tags. split; [exact Hout|]. split; [exact Htags|].
    destruct (quiz_submit_cases networkErrorMessage jsonErrorMessage typeErrorMessage
                outcome)
      as [(status' & data' & tags' & Hout' & _ & Htags' & ->) | [_ Hnone]].
    + rewrite Hout in Hout'. injection Hout' as <- <-.
      rewrite Htags in Htags'. injection Htags' as <-.
      unfold QuizModal.handedOver, QuizModal.handleCloseAndSave.
      cbn [QuizModal.apiResponse].
      assert (Htruthy : truthy (Some tags) = true).
      { destruct tags; try discriminate; reflexivity. }
      rewrite Htruthy. reflexivity.
    + destruct (Hnone status data (Some tags) Hout Hrange Htags).
Qed.

(** A reply with tags: the feedback screen is returned and its button hands
    the tags over. *)
Lemma quiz_hands_over_tags_of_good_reply_witness :
  exists status data tags,
    FetchResponse 200
      (Some (JObj [("tags", JObj [("interests", JArr [JStr "animals"]);
                                  ("skills", JArr [])])]))
    = FetchResponse status (Some data)
    /\ getProp (Some data) "tags" = Normal (Some tags)
    /\ QuizModal.handedOver QuizModal.SeeMyMatches
         (QuizModal.handleSubmit "offline" "no JSON" "no tags"
            (FetchResponse 200
               (Some (JObj [("tags", JObj [("interests", JArr [JStr "animals"]);
                                           ("skills", JArr [])])]))))
       = Some tags.
Proof.
  apply (proj1 (proj2 (proj2 (proj2
           (quiz_hands_over_tags_of_good_reply "offline" "no JSON" "no tags"
              (FetchResponse 200
                 (Some (JObj [("tags", JObj [("interests", JArr [JStr "animals"]);
                                             ("skills", JArr [])])])))))))
           (QuizModal.FeedbackScreen [JStr "animals"] [])).
  - reflexivity.
  - reflexivity.
Defined.
